(** * soulstruct: text directory (MSGDirectory) and param archives

    A shallow embedding of
      - [soulstruct/text/base/msg_directory.py]  (class [MSGDirectory])
      - [soulstruct/params/dark_souls_params.py] (classes
        [DarkSoulsGameParameters] and [DrawParamBlock])
    followed by the properties of the specification that concern them.

    Python values are represented as follows.
      - [str]  : [string]; the methods used by the source ([lower],
        [split], [endswith], [startswith], [in], [replace], slicing) are
        written out in [Module Py].
      - [dict] : [gmap] where only lookups are made, an insertion-ordered
        association list ([Py.odict]) where the source iterates over it.
      - [set]  : [gset].
      - exceptions : the type [Py.exn], one constructor per class, with
        the raise site as argument.
      - objects that are mutated through references (the BND archives held
        by an [MSGDirectory]) live in a heap of objects addressed by
        location. *)

From Stdlib Require Import ZArith Ascii String List Lia.
From stdpp Require Import base gmap sets list strings sorting pretty.

Local Open Scope Z_scope.

(* ================================================================== *)
(** * Python primitives *)
(* ================================================================== *)

Module Py.

(** ** Exceptions *)

(** Raise sites of [ValueError] in the two source files. *)
Inductive value_error :=
  | DcxItemOnly                                   (* msg_directory.py:78 *)
  | DcxMenuOnly                                   (* msg_directory.py:80 *)
  | UnexpectedIndex (path : string) (id : Z)      (* msg_directory.py:96 *)
  | ItemExists (index : Z)                        (* msg_directory.py:127 *)
  | NoItemToDelete (index : Z)                    (* msg_directory.py:139 *)
  | AmbiguousEquipment                            (* msg_directory.py:310 *)
  | AmbiguousItem                                 (* msg_directory.py:312 *)
  | UnrecognizedItemType (item_type : string)     (* msg_directory.py:317 *)
  | OnlySlots01                                   (* dark_souls_params.py:150 *)
  | MalformedName (basename : string).            (* dark_souls_params.py:154 *)

(** A dictionary key, as reported by [KeyError]. *)
Inductive key :=
  | KStr (k : string)
  | KInt (k : Z)
  | KPair (k1 : string) (k2 : Z).

Inductive attribute_error :=
  | NoCategory (text_category : string)           (* msg_directory.py:290 *)
  | NoneHasNoAttribute (attr : string).           (* attribute access on None *)

Inductive exn :=
  | ValueError (e : value_error)
  | KeyError (k : key)
  | AttributeError (e : attribute_error)
  | IndexError
  | TypeError
  | FileNotFoundError (path : string)
  | OSError (path : string)
  | FormatError (what : string).  (* raised inside a codec of another module *)

Inductive exn_class :=
  | CValueError | CKeyError | CAttributeError | CIndexError | CTypeError
  | CFileNotFoundError | COSError | CFormatError.

Definition class_of (e : exn) : exn_class :=
  match e with
  | ValueError _ => CValueError
  | KeyError _ => CKeyError
  | AttributeError _ => CAttributeError
  | IndexError => CIndexError
  | TypeError => CTypeError
  | FileNotFoundError _ => CFileNotFoundError
  | OSError _ => COSError
  | FormatError _ => CFormatError
  end.

(** The result of a call that may raise. *)
Definition result (A : Type) : Type := exn + A.
Definition Ok {A} (a : A) : result A := inr a.
Definition Raise {A} (e : exn) : result A := inl e.

Definition rbind {A B} (r : result A) (k : A -> result B) : result B :=
  match r with
  | inl e => inl e
  | inr a => k a
  end.

(** [for x in l: acc = body(acc, x)], stopping at the first exception. *)
Fixpoint rfold {A B} (body : A -> B -> result A) (acc : A) (l : list B)
  : result A :=
  match l with
  | [] => Ok acc
  | x :: l' => rbind (body acc x) (fun acc' => rfold body acc' l')
  end.

(** A call into a codec of another module: it returns a value or raises an
    exception of its own, which the callers modelled here never catch. *)
Definition decoded {A} (what : string) (o : option A) : result A :=
  match o with
  | Some a => Ok a
  | None => Raise (FormatError what)
  end.

(** ** [str] methods *)

Definition lower_ascii (c : ascii) : ascii :=
  let n := N_of_ascii c in
  if ((65 <=? n) && (n <=? 90))%N then ascii_of_N (n + 32) else c.

(** [s.lower()].  Strings are byte strings; every word the source compares
    a lowered string with is made of the ASCII letters a-z without k, which
    no character outside ASCII lowers to, so the comparisons agree with
    Python's on Unicode strings. *)
Fixpoint lower (s : string) : string :=
  match s with
  | EmptyString => EmptyString
  | String c s' => String (lower_ascii c) (lower s')
  end.

Fixpoint take (n : nat) (s : string) : string :=
  match n, s with
  | S n', String c s' => String c (take n' s')
  | _, _ => EmptyString
  end.

Fixpoint drop (n : nat) (s : string) : string :=
  match n, s with
  | S n', String _ s' => drop n' s'
  | _, _ => s
  end.

(** [s[:-n]] for a positive literal [n]. *)
Definition slice_to_neg (n : nat) (s : string) : string :=
  take (String.length s - n) s.

(** [s.startswith(p)]. *)
Definition startswith (p s : string) : bool := String.prefix p s.

(** [s.endswith(p)]. *)
Definition endswith (p s : string) : bool :=
  (String.length p <=? String.length s)%nat
  && String.eqb (drop (String.length s - String.length p) s) p.

(** [sub in s]. *)
Fixpoint contains (sub s : string) : bool :=
  String.prefix sub s
  || match s with
     | EmptyString => false
     | String _ s' => contains sub s'
     end.

(** [s.split(sep)] for a one-character separator. *)
Fixpoint split (sep : ascii) (s : string) : list string :=
  match s with
  | EmptyString => [EmptyString]
  | String c s' =>
      if Ascii.eqb c sep then EmptyString :: split sep s'
      else match split sep s' with
           | [] => [String c EmptyString]
           | p :: ps => String c p :: ps
           end
  end.

(** [s.replace(old, new)]: every non-overlapping occurrence, left to
    right.  [skip] counts the characters of an occurrence still to be
    passed over. *)
Fixpoint replace_from (old new : string) (skip : nat) (s : string) : string :=
  match s with
  | EmptyString => EmptyString
  | String c s' =>
      match skip with
      | S k => replace_from old new k s'
      | O =>
          if String.prefix old s
          then new +:+ replace_from old new (String.length old - 1) s'
          else String c (replace_from old new 0 s')
      end
  end.

Fixpoint intersperse (new s : string) : string :=
  match s with
  | EmptyString => new
  | String c s' => new +:+ String c (intersperse new s')
  end.

Definition replace (old new s : string) : string :=
  match old with
  | EmptyString => intersperse new s
  | _ => replace_from old new 0 s
  end.

(** ** Insertion-ordered [dict] *)

Definition odict (K V : Type) : Type := list (K * V).

Section odict.
Context {K V : Type} `{EqDecision K}.

  (** [d[k]] / [d.get(k)]. *)
Fixpoint oget (k : K) (d : odict K V) : option V :=
    match d with
    | [] => None
    | (k', v) :: d' => if decide (k' = k) then Some v else oget k d'
    end.

  (** [d[k] = v]: an existing key keeps its position, a new key goes last. *)
Fixpoint oset (k : K) (v : V) (d : odict K V) : odict K V :=
    match d with
    | [] => [(k, v)]
    | (k', v') :: d' =>
        if decide (k' = k) then (k, v) :: d' else (k', v') :: oset k v d'
    end.

Definition okeys (d : odict K V) : list K := map fst d.
End odict.

(** ** [list] slicing and [sorted] *)

(** A bound of [l[start:stop]] for a list of length [n]: [None] is the
    omitted bound, a negative bound counts from the end, and every bound
    is clamped to [0..n]. *)
Definition slice_bound (n : nat) (omitted : nat) (b : option Z) : nat :=
  match b with
  | None => omitted
  | Some z =>
      if (z <? 0)%Z then Z.to_nat (Z.max (z + Z.of_nat n) 0)
      else Nat.min (Z.to_nat z) n
  end.

(** [l[start:stop]] *)
Definition slice {A} (start stop : option Z) (l : list A) : list A :=
  let n := length l in
  let lo := slice_bound n 0 start in
  let hi := slice_bound n n stop in
  firstn (hi - lo) (skipn lo l).

(** [sorted(d)] for a dictionary with integer keys. *)
Definition sorted_keys {V} (d : gmap Z V) : list Z :=
  merge_sort Z.le (elements (dom d)).


End Py.

Import Py.

(* ================================================================== *)
(** * Archives *)
(* ================================================================== *)

(** Modelled from the spec: the archive module ([soulstruct.bnd]) is not
    part of the sources at hand.  Following the data model of the
    specification, an archive entry is [{id, logical_path, raw_bytes}] and
    an archive is an ordered list of entries with its compression
    signature.  [Data] is the type of raw payloads. *)
Record BNDEntry (Data : Type) := mkBNDEntry {
  entry_id : Z;
  entry_path : string;
  entry_data : Data;
}.
Arguments mkBNDEntry {Data}.
Arguments entry_id {Data}.
Arguments entry_path {Data}.
Arguments entry_data {Data}.

(* ================================================================== *)
(** * dark_souls_params.py *)
(* ================================================================== *)

Module Params.

(** Modelled from the spec: a param archive as the constructors below use
    it, the truth value of its [dcx] attribute and its entries in
    iteration order. *)
Record BND (Data : Type) := mkBND {
  dcx : bool;
  entries : list (BNDEntry Data);
}.
Arguments mkBND {Data}.
Arguments dcx {Data}.
Arguments entries {Data}.

(** [DRAWPARAM_ALIASES] (the second components are all empty dicts). *)
Definition DRAWPARAM_ALIASES : gmap string string :=
  list_to_map
    [ ("DofBank", "Dof");
      ("EnvLightTexBank", "EnvLightTex");
      ("FogBank", "Fog");
      ("LensFlareBank", "LensFlare");
      ("LensFlareExBank", "LensFlareEx");
      ("LightBank", "AmbientLight");
      ("LightScatteringBank", "ScatteredLight");
      ("LodBank", "Lod");
      ("PointLightBank", "PointLight");
      ("ShadowBank", "Shadow");
      ("ToneCorrectBank", "ToneCorrect");
      ("ToneMapBank", "ToneMap");
      ("s_LightBank", "s_AmbientLight") ]%string.

Section Params.
  (** What the module imports from the rest of the package: the payload
      and table types, the bundled schema archives [PARAMDEF_BND(game)],
      the table decoders [ParamTable(data, paramdef_bnd)] and
      [DrawParamTable(data, paramdef_bnd)] ([None] when the decoder raises),
      the nickname table
      [GAME_PARAM_INFO] and the [basename] property of an entry. *)
Context {Data ParamDef Table : Type}.
Variable PARAMDEF_BND : string -> ParamDef.
Variable ParamTable : Data -> ParamDef -> option Table.
Variable DrawParamTable : Data -> ParamDef -> option Table.
Variable GAME_PARAM_INFO : gmap string string.
Variable basename : BNDEntry Data -> string.

  (** [PARAMDEF_BND('dsr' if bnd.dcx else 'ptd')] *)
Definition dialect (b : BND Data) : string :=
    if dcx b then "dsr"%string else "ptd"%string.

  (** ** [DarkSoulsGameParameters] *)

Record DarkSoulsGameParameters := mkGameParameters {
    gp_reload_warning : bool;
    gp_data : gmap string Table;           (* _data, keyed by entry path *)
    gp_game_param_bnd : BND Data;           (* _game_param_bnd *)
    gp_paramdef_bnd : ParamDef;             (* paramdef_bnd *)
    gp_attrs : gmap string Table;           (* attributes set by setattr *)
  }.

  (** Body of the loop of [__init__] (lines 71-80). *)
Definition GameParameters_load_entry
      (self : DarkSoulsGameParameters) (entry : BNDEntry Data)
    : result DarkSoulsGameParameters :=
    rbind (decoded "ParamTable"
             (ParamTable (entry_data entry) (gp_paramdef_bnd self))) (fun p =>
    let data' := <[entry_path entry := p]> (gp_data self) in
    let attrs' :=
      match GAME_PARAM_INFO !! slice_to_neg 6 (basename entry) with
      | None => gp_attrs self
      | Some param_nickname => <[param_nickname := p]> (gp_attrs self)
      end in
    Ok (mkGameParameters (gp_reload_warning self) data'
          (gp_game_param_bnd self) (gp_paramdef_bnd self) attrs')).

  (** [DarkSoulsGameParameters.__init__], from the point where the source
      has been resolved to an archive (line 69 on). *)
Definition GameParameters_init (game_param_bnd : BND Data)
    : result DarkSoulsGameParameters :=
    let paramdef_bnd := PARAMDEF_BND (dialect game_param_bnd) in
    rfold GameParameters_load_entry
      (mkGameParameters true ∅ game_param_bnd paramdef_bnd ∅)
      (entries game_param_bnd).

  (** ** [DrawParamBlock] *)

Record DrawParamBlock := mkDrawParamBlock {
    dp_data : gmap string (list (option Table));   (* _data *)
    dp_paramdef_bnd : ParamDef;                     (* paramdef_bnd *)
    dp_attrs : gmap string string;  (* attribute name -> key of _data whose
                                       list object the attribute aliases *)
  }.

  (** Lines 144-156: slot and base name of an entry. *)
Definition slot_and_basename (entry : BNDEntry Data)
    : result (nat * string) :=
    let parts := split "_" (slice_to_neg 6 (basename entry)) in
    rbind
      (match parts with
       | [_; p1] => Ok (0%nat, p1)
       | [_; p1; p2] =>
           if negb (String.eqb p1 "1") then Raise (ValueError OnlySlots01)
           else Ok (1%nat, p2)
       | _ => Raise (ValueError (MalformedName (basename entry)))
       end)
      (fun '(slot, name) =>
         let p0 := default EmptyString (parts !! 0%nat) in
         Ok (slot, if startswith "s" p0 then ("s_" +:+ name)%string else name)).

  (** [lst[slot] = x] on a Python list. *)
Definition list_assign {A} (l : list A) (i : nat) (x : A) : result (list A) :=
    if (i <? length l)%nat then Ok (<[i := x]> l) else Raise IndexError.

  (** Body of the loop of [__init__] (lines 144-164). *)
Definition DrawParamBlock_load_entry
      (self : DrawParamBlock) (entry : BNDEntry Data) : result DrawParamBlock :=
    rbind (slot_and_basename entry) (fun '(slot, name) =>
    rbind (decoded "DrawParamTable"
             (DrawParamTable (entry_data entry) (dp_paramdef_bnd self))) (fun t =>
    let tables := default [None; None] (dp_data self !! name) in
    rbind (list_assign tables slot (Some t)) (fun tables' =>
    let data' := <[name := tables']> (dp_data self) in
    match DRAWPARAM_ALIASES !! name with
    | None => Raise (KeyError (KStr name))
    | Some param_nickname =>
        Ok (mkDrawParamBlock data' (dp_paramdef_bnd self)
              (<[param_nickname := name]> (dp_attrs self)))
    end))).

  (** [DrawParamBlock.__init__] applied to an archive object. *)
Definition DrawParamBlock_init (draw_param_bnd : BND Data)
    : result DrawParamBlock :=
    let paramdef_bnd := PARAMDEF_BND (dialect draw_param_bnd) in
    rfold DrawParamBlock_load_entry
      (mkDrawParamBlock ∅ paramdef_bnd ∅)
      (entries draw_param_bnd).

  (** The condition under which lines 144-154 raise [ValueError]. *)
Definition bad_parts (entry : BNDEntry Data) : Prop :=
    let parts := split "_" (slice_to_neg 6 (basename entry)) in
    (length parts = 3%nat /\ parts !! 1%nat <> Some "1"%string)
    \/ (length parts <> 2%nat /\ length parts <> 3%nat).

  (** ** [pickle] *)

  (** Lines 106-110 of [DarkSoulsGameParameters.pickle]: the name of the
      pickle file for the path [game_param_pickle_path]. *)
Definition pickle_file_name (game_param_pickle_path : string) : string :=
    let path := game_param_pickle_path in
    let path :=
      if endswith ".dcx" path then take (String.length ".dcx") path else path in
    let path :=
      if endswith ".parambnd" path
      then take (String.length ".parambnd") path else path in
    (path +:+ ".pickle")%string.

  (** ** [DarkSoulsLightingParameters] *)

  (** Modelled from the spec: [BND(path)] on a file path, which returns
      the archive stored there or raises ([FileNotFoundError] when there
      is no such file).  [os_path_join] is [os.path.join]. *)
Variable BND_open : string -> result (BND Data).
Variable os_path_join : string -> string -> string.

Definition _MAP_IDS : list (Z + string) :=
    [inl 10; inl 11; inl 12; inl 13; inl 14; inl 15; inl 16; inl 17; inl 18;
     inl 99; inr "default"%string]%Z.

Record DarkSoulsLightingParameters := mkLightingParameters {
    lp_reload_warning : bool;
    lp_data : odict string DrawParamBlock;  (* _data; each block is also the
                                               attribute of that name *)
  }.

  (** Lines 212-216: [(file_map_name, map_name)]. *)
Definition map_names (area_id : Z + string) : string * string :=
    match area_id with
    | inl n => ("a" +:+ pretty n, "m" +:+ pretty n)%string
    | inr name => (name, name)
    end.

  (** Lines 217-224. *)
Definition open_draw_param_bnd (draw_param_directory file_map_name : string)
    : result (BND Data) :=
    match BND_open (os_path_join draw_param_directory
                      (file_map_name +:+ "_DrawParam.parambnd.dcx")) with
    | inl (FileNotFoundError _) =>
        match BND_open (os_path_join draw_param_directory
                          (file_map_name +:+ "_DrawParam.parambnd")) with
        | inl (FileNotFoundError _) =>
            Raise (FileNotFoundError
                     (file_map_name +:+ "_DrawParam.parambnd[.dcx]"))
        | r => r
        end
    | r => r
    end.

  (** Body of the loop of [__init__] (lines 212-226). *)
Definition LightingParameters_load_area (draw_param_directory : string)
      (self : DarkSoulsLightingParameters) (area_id : Z + string)
    : result DarkSoulsLightingParameters :=
    let '(file_map_name, map_name) := map_names area_id in
    rbind (open_draw_param_bnd draw_param_directory file_map_name)
      (fun draw_param_bnd =>
    rbind (DrawParamBlock_init draw_param_bnd) (fun block =>
    Ok (mkLightingParameters (lp_reload_warning self)
          (oset map_name block (lp_data self))))).

  (** [DarkSoulsLightingParameters.__init__] *)
Definition LightingParameters_init (draw_param_directory : string)
    : result DarkSoulsLightingParameters :=
    rfold (LightingParameters_load_area draw_param_directory)
      (mkLightingParameters true []) _MAP_IDS.

  (** [DarkSoulsLightingParameters.__getitem__] *)
Definition LightingParameters_getitem (self : DarkSoulsLightingParameters)
      (map_name : string) : result DrawParamBlock :=
    match oget map_name (lp_data self) with
    | None => Raise (KeyError (KStr map_name))
    | Some block => Ok block
    end.

  (** [DarkSoulsLightingParameters.__iter__]: the pairs it yields. *)
Definition LightingParameters_iter (self : DarkSoulsLightingParameters)
    : list (string * DrawParamBlock) :=
    lp_data self.


End Params.

End Params.


(* ================================================================== *)
(** * text/base/msg_directory.py *)
(* ================================================================== *)

Module Text.

(** Modelled from the spec: a text archive ([soulstruct.bnd.BND]) as
    [MSGDirectory] uses it: the truth value of [dcx_magic], the file name
    of its path ([path.name]) and its entries in iteration order.  Entries
    are owned by exactly one archive and entry IDs are meant to be unique
    within it. *)
Record BND (Data : Type) := mkBND {
  dcx_magic : bool;
  path_name : string;
  entries : list (BNDEntry Data);
}.
Arguments mkBND {Data}.
Arguments dcx_magic {Data}.
Arguments path_name {Data}.
Arguments entries {Data}.

(** [BiDict]: a dictionary holding every pair in both directions. *)
Record BiDict := mkBiDict {
  name_of_index : gmap Z string;
  index_of_name : gmap string Z;
}.

(** The class attributes that game-specific subclasses of [MSGDirectory]
    provide ([_MSGBND_INDEX_NAMES], [FMG_CLASS]) and the [name] property of
    an archive entry.
      - [FMG_unpack data]  is [FMG_CLASS(data).entries];
      - [FMG_pack entries word_wrap_limit pipe_to_newline] is
        [FMG_CLASS({"entries": entries}).pack(word_wrap_limit=...,
        pipe_to_newline=...)];
    both are [None] when the FMG class raises. *)
Class MSGFormat (Data : Type) := {
  MSGBND_INDEX_NAMES : BiDict;
  FMG_unpack : Data -> option (gmap Z string);
  FMG_pack : gmap Z string -> option Z -> bool -> option Data;
  entry_name : BNDEntry Data -> string;
}.

(** [_CAN_MERGE_PATCH], in the order of the source. *)
Definition _CAN_MERGE_PATCH : list string :=
  [ "WeaponNamesPatch"; "WeaponSummariesPatch"; "WeaponDescriptionsPatch";
    "ArmorNamesPatch"; "ArmorSummariesPatch"; "ArmorDescriptionsPatch";
    "RingNamesPatch"; "RingSummariesPatch"; "RingDescriptionsPatch";
    "GoodNamesPatch"; "GoodSummariesPatch"; "GoodDescriptionsPatch";
    "SpellNamesPatch"; "SpellDescriptionsPatch";
    "NPCNamesPatch"; "PlaceNamesPatch" ]%string.

Definition _CANNOT_MERGE_PATCH : gset string :=
  list_to_set
    [ "EventText"; "MenuDialogs"; "SoapstoneMessages"; "MenuHelpSnippets";
      "KeyGuide"; "MenuText_Other"; "MenuText_Common" ]%string.

(** Location of an archive object in the heap. *)
Definition loc := nat.

Record MSGDirectory := mkMSGDirectory {
  directory : option string;
  _is_menu : gmap string bool;
  _original_names : gmap string string;
  categories : odict string (gmap Z string);
  _is_patch : gset (string * Z);
  item_msgbnd : option loc;
  menu_msgbnd : option loc;
}.

(** The attributes [setattr(self, key, fmg_dict)] creates at the end of
    [__init__] are further references to the dictionaries held in
    [categories]; they are read through [categories]. *)

Section MSGDirectory.
Context {Data : Type} `{Fmt : MSGFormat Data}.

(** ** Program state

    [self] is the [MSGDirectory] object; [heap] holds the archive objects
    ([loc] is an index into it, allocation appends); [disk] maps a file
    path to the archive stored there and [locked] is the set of paths that
    cannot be written. *)
Record State := mkState {
  self : MSGDirectory;
  heap : list (BND Data);
  disk : gmap string (BND Data);
  locked : gset string;
}.

Definition M (A : Type) : Type := State -> State * result A.

Definition ret {A} (a : A) : M A := fun s => (s, Ok a).
Definition raise {A} (e : exn) : M A := fun s => (s, Raise e).
Definition lift {A} (r : result A) : M A := fun s => (s, r).
Definition bind {A B} (m : M A) (k : A -> M B) : M B :=
  fun s =>
    match m s with
    | (s', inl e) => (s', inl e)
    | (s', inr a) => k a s'
    end.

#[local] Notation "'let!' x := m 'in' k" := (bind m (fun x => k))
  (at level 10, x pattern, m at level 100, k at level 200).
#[local] Notation "m >> k" := (bind m (fun _ => k))
  (at level 100, k at level 200, right associativity).

(** [for x in l: body(x)] *)
Fixpoint for_each {B} (l : list B) (body : B -> M unit) : M unit :=
  match l with
  | [] => ret tt
  | x :: l' => body x >> for_each l' body
  end.

(** [try: m  except FileNotFoundError: h] *)
Definition except_FileNotFoundError {A} (m h : M A) : M A :=
  fun s =>
    match m s with
    | (s', inl (FileNotFoundError _)) => h s'
    | r => r
    end.

Definition get_self : M MSGDirectory := fun s => (s, Ok (self s)).
Definition set_self (f : MSGDirectory -> MSGDirectory) : M unit :=
  fun s => (mkState (f (self s)) (heap s) (disk s) (locked s), Ok tt).

(** [d[k]], raising [KeyError]. *)
Definition subscript {K V} `{Countable K} (d : gmap K V) (k : K) (shown : key)
  : M V :=
  match d !! k with
  | Some v => ret v
  | None => raise (KeyError shown)
  end.

(** ** Archive objects *)

Definition alloc (b : BND Data) : M loc :=
  fun s => (mkState (self s) (heap s ++ [b]) (disk s) (locked s),
            Ok (length (heap s))).

(** Reading through a reference; [attr] is the attribute looked up, which
    raises [AttributeError] on [None].  A location outside the heap does
    not occur in Python; the model answers [TypeError] there. *)
Definition deref (o : option loc) (attr : string) : M (loc * BND Data) :=
  match o with
  | None => raise (AttributeError (NoneHasNoAttribute attr))
  | Some l =>
      fun s => match heap s !! l with
               | Some b => (s, Ok (l, b))
               | None => (s, Raise TypeError)
               end
  end.

Definition store (l : loc) (b : BND Data) : M unit :=
  fun s => (mkState (self s) (<[l := b]> (heap s)) (disk s) (locked s), Ok tt).

(** [deepcopy(msgbnd)] *)
Definition deepcopy (o : option loc) : M (option loc) :=
  match o with
  | None => ret None
  | Some l =>
      fun s => match heap s !! l with
               | Some b => bind (alloc b) (fun l' => ret (Some l')) s
               | None => (s, Raise TypeError)
               end
  end.

(** Modelled from the spec: [msgbnd.entries_by_id] of the archive class,
    the dictionary [{entry.id: entry}] (the specification's [entry(id)]);
    the result is the position of the entry the dictionary holds for
    [id]. *)
Fixpoint entries_by_id (es : list (BNDEntry Data)) (id : Z) : option nat :=
  match es with
  | [] => None
  | e :: es' =>
      match entries_by_id es' id with
      | Some i => Some (S i)
      | None => if decide (entry_id e = id) then Some O else None
      end
  end.

(** Modelled from the spec: [msgbnd.remove_entry(id)] of the archive
    class, which takes the entry with that ID out of the archive. *)
Definition remove_entry (l : loc) (b : BND Data) (id : Z) : M unit :=
  match entries_by_id (entries b) id with
  | None => raise (KeyError (KInt id))
  | Some i => store l (mkBND (dcx_magic b) (path_name b) (delete i (entries b)))
  end.

(** Modelled from the spec: [BND(path)] of the archive class, which reads
    the archive file at [path] into a new object and raises
    [FileNotFoundError] when there is no such file. *)
Definition BND_open (path : string) : M loc :=
  fun s => match disk s !! path with
           | Some b => alloc b s
           | None => (s, Raise (FileNotFoundError path))
           end.

(** [directory / name] *)
Definition joinpath (dir name : string) : string := dir +:+ "/" +:+ name.

(** Modelled from the spec: [msgbnd.write(path)] of the archive class,
    called as [msgbnd.write(msg_directory / msgbnd.path.name)]; it stores
    the archive at the path or raises [OSError]. *)
Definition BND_write (o : option loc) (msg_directory : option string) : M unit :=
  let! (_, b) := deref o "write" in
  match msg_directory with
  | None => raise TypeError
  | Some dir =>
      let path := joinpath dir (path_name b) in
      fun s =>
        if decide (path ∈ locked s) then (s, Raise (OSError path))
        else (mkState (self s) (heap s) (<[path := b]> (disk s)) (locked s),
              Ok tt)
  end.

(** ** Field updates of [self] *)

Definition with_categories (c : odict string (gmap Z string))
    (me : MSGDirectory) : MSGDirectory :=
  mkMSGDirectory (directory me) (_is_menu me) (_original_names me) c
    (_is_patch me) (item_msgbnd me) (menu_msgbnd me).

Definition with_msgbnds (item menu : option loc) (me : MSGDirectory)
  : MSGDirectory :=
  mkMSGDirectory (directory me) (_is_menu me) (_original_names me)
    (categories me) (_is_patch me) item menu.

Definition with_item_msgbnd (item : option loc) (me : MSGDirectory)
  : MSGDirectory :=
  with_msgbnds item (menu_msgbnd me) me.

Definition with_menu_msgbnd (menu : option loc) (me : MSGDirectory)
  : MSGDirectory :=
  with_msgbnds (item_msgbnd me) menu me.

(** Lines 100-101: [self._original_names[new_name] = original_name] and
    [self._is_menu[new_name] = is_menu]. *)
Definition record_entry (new_name original_name : string) (is_menu : bool)
    (me : MSGDirectory) : MSGDirectory :=
  mkMSGDirectory (directory me) (<[new_name := is_menu]> (_is_menu me))
    (<[new_name := original_name]> (_original_names me))
    (categories me) (_is_patch me) (item_msgbnd me) (menu_msgbnd me).

(** Lines 108-109: [self._is_patch.add((new_name, index))] for every index
    of the table. *)
Definition add_patch_indices (new_name : string) (fmg : gmap Z string)
    (me : MSGDirectory) : MSGDirectory :=
  mkMSGDirectory (directory me) (_is_menu me) (_original_names me)
    (categories me)
    (_is_patch me ∪ set_map (fun index : Z => (new_name, index)) (dom fmg))
    (item_msgbnd me) (menu_msgbnd me).

(** Line 111: [self.categories.setdefault(new_name, {}).update(entries)];
    the entries of the right operand of [update] win. *)
Definition merge_entries (new_name : string) (fmg : gmap Z string)
    (me : MSGDirectory) : MSGDirectory :=
  with_categories
    (oset new_name (fmg ∪ default ∅ (oget new_name (categories me)))
       (categories me))
    me.

(** ** [load_fmg_entries_from_bnd] *)

(** Body of the loop (lines 93-111). *)
Definition load_fmg_entry (entry : BNDEntry Data) (is_menu : bool) : M unit :=
  match name_of_index MSGBND_INDEX_NAMES !! entry_id entry with
  | None =>
      raise (ValueError (UnexpectedIndex (entry_path entry) (entry_id entry)))
  | Some new_name =>
      let original_name := entry_name entry in
      set_self (record_entry new_name original_name is_menu) >>
      let! fmg := lift (decoded "FMG" (FMG_unpack (entry_data entry))) in
      if endswith "Patch" new_name then
        let new_name := slice_to_neg 5 new_name in
        set_self (add_patch_indices new_name fmg) >>
        set_self (merge_entries new_name fmg)
      else
        set_self (merge_entries new_name fmg)
  end.

Definition load_fmg_entries_from_bnd (msgbnd : option loc) (is_menu : bool)
  : M unit :=
  match msgbnd with
  | None => raise TypeError  (* None is not iterable *)
  | Some _ =>
      let! (_, b) := deref msgbnd "__iter__" in
      for_each (entries b) (fun entry => load_fmg_entry entry is_menu)
  end.

(** ** [__init__] *)

(** Lines 61-64 and 69-72: the DCX file is tried first. *)
Definition open_msgbnd (dir name : string) : M loc :=
  except_FileNotFoundError
    (BND_open (joinpath dir (name +:+ ".dcx")))
    (BND_open (joinpath dir name)).

(** The archive file that [open_msgbnd] reads, if any. *)
Definition found_msgbnd (s : State) (dir name : string) : option (BND Data) :=
  match disk s !! joinpath dir (name +:+ ".dcx") with
  | Some b => Some b
  | None => disk s !! joinpath dir name
  end.

(** The attributes set before anything is read (lines 45-52). *)
Definition blank : MSGDirectory :=
  mkMSGDirectory None ∅ ∅ [] ∅ None None.

Definition MSGDirectory_init (msg_directory : option string) : M unit :=
  set_self (fun _ => blank) >>
  match msg_directory with
  | None => set_self (with_msgbnds None None)
  | Some dir =>
      set_self (fun me =>
        mkMSGDirectory (Some dir) (_is_menu me) (_original_names me)
          (categories me) (_is_patch me) (item_msgbnd me) (menu_msgbnd me)) >>
      let! li := open_msgbnd dir "item.msgbnd" in
      set_self (with_item_msgbnd (Some li)) >>
      let! lm := open_msgbnd dir "menu.msgbnd" in
      set_self (with_menu_msgbnd (Some lm)) >>
      let! (_, item) := deref (Some li) "dcx_magic" in
      let! (_, menu) := deref (Some lm) "dcx_magic" in
      if dcx_magic item && negb (dcx_magic menu) then
        raise (ValueError DcxItemOnly)
      else if negb (dcx_magic item) && dcx_magic menu then
        raise (ValueError DcxMenuOnly)
      else
        load_fmg_entries_from_bnd (Some li) false >>
        load_fmg_entries_from_bnd (Some lm) true
  end.

(** [MSGDirectory(msg_directory)]: the new object is returned only when
    [__init__] returns; an exception leaves the caller without it. *)
Definition MSGDirectory_new (msg_directory : option string) (s : State)
  : result State :=
  match MSGDirectory_init msg_directory s with
  | (_, inl e) => Raise e
  | (s', inr _) => Ok s'
  end.

(** ** Item text *)

Definition resolve_item_type (item_type : string) : result string :=
  let t := lower item_type in
  if bool_decide (t ∈ ["good"; "consumable"]%string) then Ok "Good"%string
  else if bool_decide (t ∈ ["ring"; "accessory"]%string) then Ok "Ring"%string
  else if bool_decide (t ∈ ["weapon"; "shield"]%string) then Ok "Weapon"%string
  else if bool_decide (t ∈ ["armour"; "armor"; "protector"]%string)
       then Ok "Armor"%string
  else if String.eqb t "equipment" then Raise (ValueError AmbiguousEquipment)
  else if String.eqb t "item" then Raise (ValueError AmbiguousItem)
  else Raise (ValueError (UnrecognizedItemType item_type)).

(** [self.categories[name]] *)
Definition category (name : string) : M (gmap Z string) :=
  let! me := get_self in
  match oget name (categories me) with
  | Some d => ret d
  | None => raise (KeyError (KStr name))
  end.

(** [self.categories[name][index] = text] *)
Definition set_text (name : string) (index : Z) (text : string) : M unit :=
  let! d := category name in
  set_self (fun me =>
    with_categories (oset name (<[index := text]> d) (categories me)) me).

Definition delete_item_text (index : Z) (item_fmg : string) : M unit :=
  let! item_fmg := lift (resolve_item_type item_fmg) in
  let! names := category (item_fmg +:+ "Names") in
  match names !! index with
  | None => raise (ValueError (NoItemToDelete index))
  | Some _ =>
      set_text (item_fmg +:+ "Names") index "" >>
      set_text (item_fmg +:+ "Summaries") index "" >>
      set_text (item_fmg +:+ "Descriptions") index ""
  end.

(** [__getitem__] *)
Definition getitem (text_category : string) : M (gmap Z string) :=
  let! me := get_self in
  match oget text_category (categories me) with
  | Some d => ret d
  | None => raise (AttributeError (NoCategory text_category))
  end.

(** [self[text_category][index]] *)
Definition getitem_index (text_category : string) (index : Z) : M string :=
  let! d := getitem text_category in
  subscript d index (KInt index).

(** The text stored for [(text_category, index)], if any. *)
Definition text_of (me : MSGDirectory) (text_category : string) (index : Z)
  : option string :=
  match oget text_category (categories me) with
  | Some d => d !! index
  | None => None
  end.

(** ** [update_msgbnd_entry] and [save] *)

Definition set_entry_data (data : Data) (e : BNDEntry Data) : BNDEntry Data :=
  mkBNDEntry (entry_id e) (entry_path e) data.

Definition set_entry_path (path : string) (e : BNDEntry Data) : BNDEntry Data :=
  mkBNDEntry (entry_id e) path (entry_data e).

(** Mutation of the entry at position [i] of the archive object at [l]. *)
Definition update_entry (l : loc) (i : nat)
    (f : BNDEntry Data -> BNDEntry Data) : M unit :=
  let! (_, b) := deref (Some l) "entries_by_id" in
  store l (mkBND (dcx_magic b) (path_name b) (alter f i (entries b))).

Definition update_msgbnd_entry (msgbnd : option loc) (fmg_name : string)
    (fmg_entries : gmap Z string) (word_wrap_limit : option Z)
    (pipe_to_newline use_original_names : bool) : M unit :=
  let! fmg_patch_data :=
    lift (decoded "FMG.pack"
            (FMG_pack fmg_entries word_wrap_limit pipe_to_newline)) in
  (* the [except IndexError] clause never matches the [KeyError] of a dict *)
  let! bnd_entry_id :=
    subscript (index_of_name MSGBND_INDEX_NAMES) fmg_name (KStr fmg_name) in
  let! (l, b) := deref msgbnd "entries_by_id" in
  match entries_by_id (entries b) bnd_entry_id with
  | None => raise (KeyError (KInt bnd_entry_id))
  | Some i =>
      update_entry l i (set_entry_data fmg_patch_data) >>
      if negb use_original_names then
        let! me := get_self in
        let! original_name :=
          subscript (_original_names me) fmg_name (KStr fmg_name) in
        update_entry l i (fun e =>
          set_entry_path
            (replace original_name (fmg_name +:+ ".fmg") (entry_path e)) e)
      else ret tt
  end.

(** Lines 186-196: the copy [fmg_entries_main] with the Patch indices
    popped, and [fmg_entries_patch] with the popped texts that are not
    empty.  Each index is visited once, so the popped text is the text of
    [fmg_entries] at that index. *)
Definition separate_patch_indices (is_patch : gset (string * Z))
    (fmg_name : string) (fmg_entries : gmap Z string)
  : gmap Z string * gmap Z string :=
  map_fold
    (fun index patch_text '(fmg_entries_main, fmg_entries_patch) =>
       if decide ((fmg_name, index) ∈ is_patch) then
         (delete index fmg_entries_main,
          if decide (patch_text = EmptyString) then fmg_entries_patch
          else <[index := patch_text]> fmg_entries_patch)
       else (fmg_entries_main, fmg_entries_patch))
    (fmg_entries, ∅) fmg_entries.

(** Body of the loop over [self.categories.items()] (lines 185-217). *)
Definition save_category (new_item_msgbnd new_menu_msgbnd : option loc)
    (description_word_wrap_limit : option Z)
    (separate_patch use_original_names pipe_to_newline : bool)
    (fmg_name : string) (fmg_entries : gmap Z string) : M unit :=
  let! me := get_self in
  let word_wrap :=
    if contains "Descriptions" fmg_name then description_word_wrap_limit
    else None in
  let '(fmg_entries_main, fmg_entries_patch) :=
    if separate_patch || bool_decide (fmg_name ∈ _CANNOT_MERGE_PATCH)
    then separate_patch_indices (_is_patch me) fmg_name fmg_entries
    else (fmg_entries, ∅) in
  (if decide (fmg_entries_patch = ∅) then ret tt
   else
     let! is_menu :=
       subscript (_is_menu me) (fmg_name +:+ "Patch")
         (KStr (fmg_name +:+ "Patch")) in
     let patch_msgbnd := if is_menu then new_menu_msgbnd else new_item_msgbnd in
     update_msgbnd_entry patch_msgbnd (fmg_name +:+ "Patch") fmg_entries_patch
       word_wrap pipe_to_newline use_original_names) >>
  let! is_menu := subscript (_is_menu me) fmg_name (KStr fmg_name) in
  let main_msgbnd := if is_menu then new_menu_msgbnd else new_item_msgbnd in
  (* line 213 passes [fmg_entries], not [fmg_entries_main] *)
  update_msgbnd_entry main_msgbnd fmg_name fmg_entries
    word_wrap pipe_to_newline use_original_names.

(** Lines 177-182. *)
Definition remove_merged_patch (new_item_msgbnd new_menu_msgbnd : option loc)
    (patch_fmg_name : string) : M unit :=
  let! me := get_self in
  match _is_menu me !! patch_fmg_name with
  | None => ret tt
  | Some is_menu =>
      let! bnd_index :=
        subscript (index_of_name MSGBND_INDEX_NAMES) patch_fmg_name
          (KStr patch_fmg_name) in
      let msgbnd :=
        if is_menu : bool then new_menu_msgbnd else new_item_msgbnd in
      let! (l, b) := deref msgbnd "entries_by_id" in
      match entries_by_id (entries b) bnd_index with
      | None => ret tt
      | Some _ => remove_entry l b bnd_index
      end
  end.

(** Everything [save] does before it assigns to [self] (lines 168-221). *)
Definition save_pack_and_write (msg_directory : option string)
    (description_word_wrap_limit : option Z)
    (separate_patch use_original_names pipe_to_newline : bool)
  : M (option loc * option loc) :=
  let! me := get_self in
  let! new_item_msgbnd := deepcopy (item_msgbnd me) in
  let! new_menu_msgbnd := deepcopy (menu_msgbnd me) in
  let msg_directory :=
    match msg_directory with
    | None => directory me
    | Some d => Some d
    end in
  (if negb separate_patch then
     for_each _CAN_MERGE_PATCH
       (remove_merged_patch new_item_msgbnd new_menu_msgbnd)
   else ret tt) >>
  for_each (categories me) (fun '(fmg_name, fmg_entries) =>
    save_category new_item_msgbnd new_menu_msgbnd description_word_wrap_limit
      separate_patch use_original_names pipe_to_newline
      fmg_name fmg_entries) >>
  BND_write new_item_msgbnd msg_directory >>
  BND_write new_menu_msgbnd msg_directory >>
  ret (new_item_msgbnd, new_menu_msgbnd).

Definition save (msg_directory : option string)
    (description_word_wrap_limit : option Z)
    (separate_patch use_original_names pipe_to_newline : bool) : M unit :=
  let! (new_item_msgbnd, new_menu_msgbnd) :=
    save_pack_and_write msg_directory description_word_wrap_limit
      separate_patch use_original_names pipe_to_newline in
  (* Update BNDs only after successful write. *)
  set_self (with_msgbnds new_item_msgbnd new_menu_msgbnd).

(** ** [get_all_item_text], [add_item_text], [change_item_text] *)

(** The dictionary [{"name": ..., "summary": ..., "description": ...}]. *)
Record item_text := mkItemText {
  it_name : string;
  it_summary : string;
  it_description : string;
}.

Definition get_all_item_text (index : Z) (item_type : string)
  : M (option item_text) :=
  let! item_fmg := lift (resolve_item_type item_type) in
  let! names := category (item_fmg +:+ "Names") in
  match names !! index with
  | None => ret None
  | Some _ =>
      let! names := category (item_fmg +:+ "Names") in
      let! name := subscript names index (KInt index) in
      let! summaries := category (item_fmg +:+ "Summaries") in
      let! summary := subscript summaries index (KInt index) in
      let! descriptions := category (item_fmg +:+ "Descriptions") in
      let! description := subscript descriptions index (KInt index) in
      ret (Some (mkItemText name summary description))
  end.

Definition add_item_text (index : Z)
    (item_type name summary description : string) : M unit :=
  let! item_fmg := lift (resolve_item_type item_type) in
  let! names := category (item_fmg +:+ "Names") in
  match names !! index with
  | Some _ => raise (ValueError (ItemExists index))
  | None =>
      set_text (item_fmg +:+ "Names") index name >>
      set_text (item_fmg +:+ "Summaries") index summary >>
      set_text (item_fmg +:+ "Descriptions") index description
  end.

(** The [index] argument of [change_item_text]: one index or a list (or
    tuple) of them. *)
Inductive index_arg :=
  | OneIndex (i : Z)
  | Indices (l : list Z).

(** [(index,)] unless [index] is a list or tuple already. *)
Definition index_tuple (index : index_arg) : list Z :=
  match index with
  | OneIndex i => [i]
  | Indices l => l
  end.

(** The [text_dict] argument of [change_item_text]; [None] is a key that
    the dictionary does not have. *)
Record text_dict := mkTextDict {
  td_index : option index_arg;
  td_item_type : option string;
  td_name : option string;
  td_summary : option string;
  td_description : option string;
}.

(** [self[text_category][index] = text] *)
Definition setitem_text (text_category : string) (index : Z) (text : string)
  : M unit :=
  let! d := getitem text_category in
  set_self (fun me =>
    with_categories
      (oset text_category (<[index := text]> d) (categories me)) me).

(** [if key in text_dict: self[text_category][i] = text_dict[key]] *)
Definition change_if_given (given : option string) (text_category : string)
    (i : Z) : M unit :=
  match given with
  | None => ret tt
  | Some text => setitem_text text_category i text
  end.

(** Body of the loop of [change_item_text] (lines 239-248); [patch] is
    the suffix, "Patch" or the empty string. *)
Definition change_item_text_at (text_dict_ : text_dict)
    (item_fmg patch : string) (i : Z) : M unit :=
  (* the membership test only decides whether a message is logged *)
  (let! _ := getitem (item_fmg +:+ "Names") in ret tt) >>
  change_if_given (td_name text_dict_)
    (item_fmg +:+ "Names" +:+ patch) i >>
  change_if_given (td_summary text_dict_)
    (item_fmg +:+ "Summaries" +:+ patch) i >>
  change_if_given (td_description text_dict_)
    (item_fmg +:+ "Descriptions" +:+ patch) i.

Definition change_item_text (text_dict_ : text_dict)
    (index : option index_arg) (item_type : option string) (patch : bool)
  : M unit :=
  let! index :=
    match index with
    | Some index => ret index
    | None =>
        match td_index text_dict_ with
        | Some index => ret index
        | None => raise (KeyError (KStr "index"))
        end
    end in
  let index := index_tuple index in
  let! item_type :=
    match item_type with
    | Some item_type => ret item_type
    | None =>
        match td_item_type text_dict_ with
        | Some item_type => ret item_type
        | None => raise (KeyError (KStr "item_type"))
        end
    end in
  let! item_fmg := lift (resolve_item_type item_type) in
  let patch := if patch then "Patch"%string else EmptyString in
  for_each index (change_item_text_at text_dict_ item_fmg patch).

(** ** [find] *)

(** The loop over [fmg_dict.items()] (lines 273-279): the dictionary after
    the replacements, and whether some text contained [search_string].
    Each index is visited once, with the text it had before the loop. *)
Definition find_in_dict (search_string : string) (replace_with : option string)
    (fmg_dict : gmap Z string) : gmap Z string * bool :=
  map_fold
    (fun index text '(dict, found_something) =>
       if contains search_string text then
         (match replace_with with
          | Some new => <[index := replace search_string new text]> dict
          | None => dict
          end, true)
       else (dict, found_something))
    (fmg_dict, false) fmg_dict.

(** The loop over [dicts_to_search] (line 272); a dictionary is changed in
    place, so its new content is what [categories] holds under its name. *)
Fixpoint find_in_dicts (search_string : string) (replace_with : option string)
    (dicts_to_search : list (string * gmap Z string)) (found_something : bool)
  : M bool :=
  match dicts_to_search with
  | [] => ret found_something
  | (fmg_name, fmg_dict) :: rest =>
      let '(dict, found) := find_in_dict search_string replace_with fmg_dict in
      match replace_with with
      | Some _ =>
          set_self (fun me =>
            with_categories (oset fmg_name dict (categories me)) me)
      | None => ret tt
      end >>
      find_in_dicts search_string replace_with rest (found_something || found)
  end.

(** [find]; what it prints is not modelled, the value returned here is
    [found_something], which decides whether the last message is
    printed. *)
Definition find (search_string : string) (replace_with : option string)
    (text_category : option string) (exclude_conversations : bool) : M bool :=
  let! me := get_self in
  let! dicts_to_search :=
    match text_category with
    | None =>
        ret (if exclude_conversations
             then filter (fun p => p.1 <> "Subtitles"%string) (categories me)
             else categories me)
    | Some text_category =>
        let! d := getitem text_category in
        ret [(text_category, d)]
    end in
  find_in_dicts search_string replace_with dicts_to_search false.

(** ** [get_range] *)

(** [[f(x) for x in l]] *)
Fixpoint comprehension {B C} (f : B -> M C) (l : list B) : M (list C) :=
  match l with
  | [] => ret []
  | x :: l' =>
      let! y := f x in
      let! ys := comprehension f l' in
      ret (y :: ys)
  end.

Definition get_range (category_ : string) (start end_ : option Z)
  : M (list (Z * string)) :=
  let! d := category category_ in
  comprehension
    (fun text_id =>
       let! d := category category_ in
       let! text := subscript d text_id (KInt text_id) in
       ret (text_id, text))
    (slice start end_ (sorted_keys d)).


(** ** Predicates used in the statements *)

(** An entry whose ID has a name in [_MSGBND_INDEX_NAMES]. *)
Definition mapped (entry : BNDEntry Data) : Prop :=
  is_Some (name_of_index MSGBND_INDEX_NAMES !! entry_id entry).

(** The object after one iteration of the loop of
    [load_fmg_entries_from_bnd] that neither meets an unexpected index nor
    fails to decode. *)
Definition loaded_entry (entry : BNDEntry Data) (is_menu : bool)
    (new_name : string) (fmg : gmap Z string) (me : MSGDirectory)
  : MSGDirectory :=
  let me1 := record_entry new_name (entry_name entry) is_menu me in
  if endswith "Patch" new_name
  then merge_entries (slice_to_neg 5 new_name) fmg
         (add_patch_indices (slice_to_neg 5 new_name) fmg me1)
  else merge_entries new_name fmg me1.

(** Provenance pairs stay and no key of the merged view goes away. *)
Definition grows (me me' : MSGDirectory) : Prop :=
  _is_patch me ⊆ _is_patch me'
  /\ forall c i, is_Some (text_of me c i) -> is_Some (text_of me' c i).

(** The entries of both archives in the order [__init__] loads them, each
    with the [is_menu] flag it is loaded with. *)
Definition tagged_entries (item menu : BND Data) : list (BNDEntry Data * bool) :=
  map (fun e => (e, false)) (entries item) ++ map (fun e => (e, true)) (entries menu).

Definition load_tagged (p : BNDEntry Data * bool) : M unit :=
  load_fmg_entry p.1 p.2.

(** The state in which [__init__] starts loading, once both archives have
    been read into new objects. *)
Definition opened_state (s : State) (dir : string) (item menu : BND Data) : State :=
  mkState
    (mkMSGDirectory (Some dir) ∅ ∅ [] ∅
       (Some (length (heap s))) (Some (S (length (heap s)))))
    ((heap s ++ [item]) ++ [menu]) (disk s) (locked s).

(** [maintains I E Q m]: run from a state satisfying [I], [m] ends in a
    state satisfying [I]; it raises only exceptions satisfying [E] and
    returns only values satisfying [Q]. *)
Definition maintains {A} (I : State -> Prop) (E : exn -> Prop) (Q : A -> Prop)
    (m : M A) : Prop :=
  forall s s' r, I s -> m s = (s', r) ->
    I s' /\ match r with inl e => E e | inr a => Q a end.

(** With respect to [s0]: the directory object is the same and every
    archive object of [s0] is still there, unchanged. *)
Definition untouched (s0 s : State) : Prop :=
  self s = self s0
  /\ (length (heap s0) <= length (heap s))%nat
  /\ forall l, (l < length (heap s0))%nat -> heap s !! l = heap s0 !! l.

(** A reference that is [None] or was allocated after [s0]. *)
Definition fresh_for (s0 : State) (o : option loc) : Prop :=
  forall l, o = Some l -> (length (heap s0) <= l)%nat.

Definition not_ValueError (e : exn) : Prop := class_of e <> CValueError.

(** The text [change_item_text] leaves in category [c] at an index it was
    given, for an item prefix [prefix] and no Patch suffix, where [old] is
    the text before. *)
Definition changed_text (text_dict_ : text_dict) (prefix c : string)
    (old : option string) : option string :=
  if decide (c = prefix +:+ "Names") then
    match td_name text_dict_ with Some t => Some t | None => old end
  else if decide (c = prefix +:+ "Summaries") then
    match td_summary text_dict_ with Some t => Some t | None => old end
  else if decide (c = prefix +:+ "Descriptions") then
    match td_description text_dict_ with Some t => Some t | None => old end
  else old.

(** An optional argument with its fallback: the argument if it is given
    (not [None]), else the fallback ([text_dict[key]] in
    [change_item_text], [self.directory] in [save]). *)
Definition effective {A} (arg from_dict : option A) : option A :=
  match arg with
  | Some a => Some a
  | None => from_dict
  end.

(** The key of [categories] under which the table of an archive entry
    named [new_name] is stored (lines 104-111). *)
Definition category_of (new_name : string) : string :=
  if endswith "Patch" new_name then slice_to_neg 5 new_name else new_name.

(** With respect to [s0]: the files are the same. *)
Definition same_files (s0 s : State) : Prop :=
  disk s = disk s0 /\ locked s = locked s0.

(** Whether [find] searches category [c] (lines 263-270): the named
    category alone, or every category, apart from "Subtitles" when
    conversations are excluded. *)
Definition searches (text_category : option string)
    (exclude_conversations : bool) (c : string) : bool :=
  match text_category with
  | Some t => bool_decide (c = t)
  | None => negb exclude_conversations || bool_decide (c <> "Subtitles"%string)
  end.

(** What [find] with a replacement leaves in place of [text]. *)
Definition replace_in (search_string new text : string) : string :=
  if contains search_string text then replace search_string new text else text.

End MSGDirectory.

Arguments State : clear implicits.
Arguments M : clear implicits.

End Text.

(* ================================================================== *)
(** * A small game, for concrete runs *)
(* ================================================================== *)

Module Fixtures.
Import Text.

Local Open Scope string_scope.

(** Modelled from the spec: the fixed ID-to-category-name table of a game
    (the tables of the real games are class attributes of modules outside
    the sources at hand); a few categories suffice here. *)
Definition index_names : list (Z * string) :=
  [ (2, "EventText"); (10, "GoodNames"); (11, "WeaponNames");
    (20, "GoodSummaries"); (24, "GoodDescriptions");
    (101, "EventTextPatch"); (110, "GoodNamesPatch");
    (114, "WeaponNamesPatch") ].

(** Modelled from the spec: an FMG class whose raw form is the indexed
    text table itself, so that packing and opening are inverse. *)
#[export] Instance table_format : MSGFormat (gmap Z string) := {|
  MSGBND_INDEX_NAMES :=
    mkBiDict (list_to_map index_names)
             (list_to_map (map (fun p => (p.2, p.1)) index_names));
  FMG_unpack data := Some data;
  FMG_pack fmg_entries _ _ := Some fmg_entries;
  entry_name entry := entry_path entry;
|}.

Definition entry (id : Z) (path : string) (fmg : gmap Z string)
  : BNDEntry (gmap Z string) :=
  mkBNDEntry id path fmg.

Definition no_entries (name : string) : BND (gmap Z string) :=
  mkBND false name [].

Definition on_disk (item menu : BND (gmap Z string))
  : State (gmap Z string) :=
  mkState blank []
    (<["msg/item.msgbnd" := item]> (<["msg/menu.msgbnd" := menu]> ∅)) ∅.

(** A mergeable category with base entry {1: "a"} and Patch entry
    {2: "b"}. *)
Definition weapon_item : BND (gmap Z string) :=
  mkBND false "item.msgbnd"
    [ entry 11 "WeaponNames.fmg" {[ 1 := "a" ]};
      entry 114 "WeaponNamesPatch.fmg" {[ 2 := "b" ]} ].

Definition weapon_dir : State (gmap Z string) := on_disk weapon_item (no_entries "menu.msgbnd").

(** A never-merge category with base entry {1: "a"} and Patch entry
    {2: "b"}. *)
Definition event_menu : BND (gmap Z string) :=
  mkBND false "menu.msgbnd"
    [ entry 2 "EventText.fmg" {[ 1 := "a" ]};
      entry 101 "EventTextPatch.fmg" {[ 2 := "b" ]} ].

Definition event_dir : State (gmap Z string) := on_disk (no_entries "item.msgbnd") event_menu.

(** An archive with an entry whose ID is not in the table. *)
Definition stray_item : BND (gmap Z string) :=
  mkBND false "item.msgbnd"
    [ entry 11 "WeaponNames.fmg" {[ 1 := "a" ]};
      entry 999 "Stray.fmg" {[ 1 := "x" ]} ].

Definition stray_dir : State (gmap Z string) := on_disk stray_item (no_entries "menu.msgbnd").

(** A DCX item archive next to a menu archive that is not DCX. *)
Definition dcx_item : BND (gmap Z string) :=
  mkBND true "item.msgbnd.dcx" [ entry 11 "WeaponNames.fmg" {[ 1 := "a" ]} ].

Definition mixed_dir : State (gmap Z string) :=
  mkState blank []
    (<["msg/item.msgbnd.dcx" := dcx_item]>
       (<["msg/menu.msgbnd" := no_entries "menu.msgbnd"]> ∅)) ∅.

(** A directory object assembled by hand (constructed without a folder,
    then given its attributes) around those two archives. *)
Definition mixed_set : State (gmap Z string) :=
  mkState
    (mkMSGDirectory (Some "msg") {[ "WeaponNames" := false ]}
       {[ "WeaponNames" := "WeaponNames.fmg" ]}
       [ ("WeaponNames", {[ 1 := "a" ]}) ] ∅ (Some 0%nat) (Some 1%nat))
    [ dcx_item; no_entries "menu.msgbnd" ] ∅ ∅.

(** Name, summary and description of one good. *)
Definition goods : State (gmap Z string) :=
  mkState
    (mkMSGDirectory None ∅ ∅
       [ ("GoodNames", {[ 1 := "Estus Flask" ]});
         ("GoodSummaries", {[ 1 := "Restores HP" ]});
         ("GoodDescriptions", {[ 1 := "An emerald flask." ]}) ]
       ∅ None None)
    [] ∅ ∅.

(** The directory objects opened from the folders above. *)
Definition opened (s : State (gmap Z string)) : State (gmap Z string) :=
  match MSGDirectory_new (Some "msg") s with
  | inr s' => s'
  | inl _ => s
  end.

Definition weapon_set : State (gmap Z string) := opened weapon_dir.
Definition event_set : State (gmap Z string) := opened event_dir.

(** The same state where the item archive cannot be written. *)
Definition locked_item (s : State (gmap Z string)) : State (gmap Z string) :=
  mkState (self s) (heap s) (disk s) {[ "msg/item.msgbnd" ]}.

(** Param archives: payloads are strings, a decoded table records the
    payload and the schema archive it was decoded with. *)
Definition param_entry (path : string) : BNDEntry string :=
  mkBNDEntry 0 path path.

Definition draw_params : Params.BND string :=
  Params.mkBND true
    [ param_entry "m10_FogBank.param"; param_entry "m10_1_FogBank.param";
      param_entry "s10_LightBank.param" ].

Definition draw_params_slot2 : Params.BND string :=
  Params.mkBND false
    [ param_entry "m10_FogBank.param"; param_entry "m10_2_FogBank.param" ].

Definition decode_with (data paramdef : string) : option (string * string) :=
  Some (data, paramdef).

(** Names of goods, without their summaries and descriptions. *)
Definition names_only : State (gmap Z string) :=
  mkState
    (mkMSGDirectory None ∅ ∅ [ ("GoodNames", {[ 1 := "Estus Flask" ]}) ]
       ∅ None None)
    [] ∅ ∅.

(** A category with three ids. *)
Definition numbered : State (gmap Z string) :=
  mkState
    (mkMSGDirectory None ∅ ∅
       [ ("GoodNames", {[ 30 := "c"; 10 := "a"; 20 := "b" ]}) ]
       ∅ None None)
    [] ∅ ∅.

(** Goods next to conversations. *)
Definition with_subtitles : State (gmap Z string) :=
  mkState
    (mkMSGDirectory None ∅ ∅
       [ ("GoodNames", {[ 1 := "Estus Flask" ]});
         ("Subtitles", {[ 1 := "Flask?" ]}) ]
       ∅ None None)
    [] ∅ ∅.

(** An item archive with a Patch resource whose base resource is
    missing. *)
Definition patch_only_item : BND (gmap Z string) :=
  mkBND false "item.msgbnd"
    [ entry 114 "WeaponNamesPatch.fmg" {[ 2 := "b" ]} ].

Definition patch_only_dir : State (gmap Z string) :=
  on_disk patch_only_item (no_entries "menu.msgbnd").

Definition patch_only_set : State (gmap Z string) := opened patch_only_dir.

(** A folder without archives. *)
Definition empty_dir : State (gmap Z string) := mkState blank [] ∅ ∅.



(** A DrawParam archive with a base name that [DRAWPARAM_ALIASES] does
    not have. *)
Definition draw_params_unknown : Params.BND string :=
  Params.mkBND false
    [ param_entry "m10_FogBank.param"; param_entry "m10_NopeBank.param" ].

(** A folder of DrawParam archives: the numbered maps are there as DCX
    files, the default map as a plain file only. *)
Definition default_draw_params : Params.BND string :=
  Params.mkBND false [ param_entry "default_LodBank.param" ].

Definition lighting_files : gmap string (Params.BND string) :=
  list_to_map
    (map (fun a => ("DrawParam/" +:+ a +:+ "_DrawParam.parambnd.dcx", draw_params))
       [ "a10"; "a11"; "a12"; "a13"; "a14"; "a15"; "a16"; "a17"; "a18"; "a99" ]
     ++ [ ("DrawParam/default_DrawParam.parambnd", default_draw_params) ])%list.

Definition open_file (files : gmap string (Params.BND string)) (path : string)
  : result (Params.BND string) :=
  match files !! path with
  | Some bnd => Ok bnd
  | None => Raise (FileNotFoundError path)
  end.

Definition join (dir name : string) : string := dir +:+ "/" +:+ name.

End Fixtures.

(* ================================================================== *)
(** * Facts about the Python primitives *)
(* ================================================================== *)

Section rfold_facts.
Context {A B : Type} (body : A -> B -> result A).

Lemma rfold_app (l1 l2 : list B) (a : A) :
  rfold body a (l1 ++ l2) = rbind (rfold body a l1) (fun a' => rfold body a' l2).
Proof.
  revert a. induction l1 as [|x l1 IH]; intros a; simpl; [reflexivity|].
  destruct (body a x) as [e|a1]; simpl; [reflexivity|apply IH].
Qed.

(** An invariant of the loop body is an invariant of the loop, and every
    element of a loop that ran to its end was processed without exception
    from a state satisfying the invariant. *)
Lemma rfold_invariant (P : A -> Prop) (l : list B) :
  (forall a x a', x ∈ l -> P a -> body a x = Ok a' -> P a') ->
  forall a a', P a -> rfold body a l = Ok a' ->
    P a' /\ forall x, x ∈ l -> exists a1 a2, P a1 /\ body a1 x = Ok a2.
Proof.
  induction l as [|x l IH]; intros Hstep a a' Ha Hrun; simpl in Hrun.
  - inversion Hrun; subst. split; [assumption|]. intros x Hx. inversion Hx.
  - destruct (body a x) as [e|a1] eqn:Hbody; simpl in Hrun; [discriminate|].
    assert (Ha1 : P a1) by (eapply Hstep; eauto; left).
    destruct (IH (fun a0 y a0' Hy => Hstep a0 y a0' (list_elem_of_further _ _ _ Hy))
                 a1 a' Ha1 Hrun) as [Hfinal Hall].
    split; [assumption|]. intros y Hy.
    apply elem_of_cons in Hy as [->|Hy]; [exists a, a1; auto|auto].
Qed.

(** The loop stops at the first exception. *)
Lemma rfold_raise_at (pre post : list B) (x : B) (a a1 : A) (e : exn) :
  rfold body a pre = Ok a1 -> body a1 x = Raise e ->
  rfold body a (pre ++ x :: post) = Raise e.
Proof.
  intros Hpre Hx. rewrite rfold_app, Hpre. simpl. rewrite Hx. reflexivity.
Qed.
End rfold_facts.

(* ================================================================== *)
(** * Properties of the param archives *)
(* ================================================================== *)

Section ParamsFacts.
Import Params.
Context {Data ParamDef Table : Type}.
Variable PARAMDEF_BND : string -> ParamDef.
Variable ParamTable : Data -> ParamDef -> option Table.
Variable DrawParamTable : Data -> ParamDef -> option Table.
Variable GAME_PARAM_INFO : gmap string string.
Variable basename : BNDEntry Data -> string.

#[local] Notation "'gp_load'" :=
  (GameParameters_load_entry ParamTable GAME_PARAM_INFO basename).
#[local] Notation "'gp_init'" :=
  (GameParameters_init PARAMDEF_BND ParamTable GAME_PARAM_INFO basename).
#[local] Notation "'dp_load'" :=
  (DrawParamBlock_load_entry DrawParamTable basename).
#[local] Notation "'dp_init'" :=
  (DrawParamBlock_init PARAMDEF_BND DrawParamTable basename).

Lemma dialect_cases (b : BND Data) :
  (dcx b = true -> dialect b = "dsr"%string)
  /\ (dcx b = false -> dialect b = "ptd"%string).
Proof. unfold dialect. destruct (dcx b); split; congruence. Qed.

(** *** [DarkSoulsGameParameters] *)

Lemma gp_load_paramdef self entry self' :
  gp_load self entry = Ok self' ->
  gp_paramdef_bnd self' = gp_paramdef_bnd self
  /\ exists p, ParamTable (entry_data entry) (gp_paramdef_bnd self) = Some p
       /\ gp_data self' = <[entry_path entry := p]> (gp_data self).
Proof.
  unfold GameParameters_load_entry. intros H.
  destruct (ParamTable _ _) as [p|]; simpl in H; [|discriminate].
  inversion H; subst; simpl. eauto.
Qed.

Lemma gp_init_tables (bnd : BND Data) gp :
  gp_init bnd = Ok gp ->
  gp_paramdef_bnd gp = PARAMDEF_BND (dialect bnd)
  /\ (forall path p, gp_data gp !! path = Some p ->
        exists entry, entry ∈ entries bnd /\ entry_path entry = path
          /\ ParamTable (entry_data entry) (PARAMDEF_BND (dialect bnd)) = Some p)
  /\ (forall entry, entry ∈ entries bnd ->
        exists p, ParamTable (entry_data entry) (PARAMDEF_BND (dialect bnd)) = Some p).
Proof.
  unfold GameParameters_init. intros Hrun.
  set (pd := PARAMDEF_BND (dialect bnd)) in *.
  set (P := fun s : DarkSoulsGameParameters (Data:=Data) =>
              gp_paramdef_bnd s = pd
              /\ forall path p, gp_data s !! path = Some p ->
                   exists entry, entry ∈ entries bnd /\ entry_path entry = path
                     /\ ParamTable (entry_data entry) pd = Some p).
  assert (Hinv : forall a x a', x ∈ entries bnd -> P a -> gp_load a x = Ok a' -> P a').
  { intros a x a' Hx [Hpa Hda] Hstep.
    apply gp_load_paramdef in Hstep as (Hpd' & p & Hp & Hd'). split.
    + congruence.
    + intros path q. rewrite Hd'. rewrite lookup_insert.
      case_decide as Hk.
      * intros [= <-]. exists x. rewrite <- Hpa. auto.
      * apply Hda. }
  assert (Hinit : P (mkGameParameters true ∅ bnd pd ∅)).
  { split; [reflexivity|]. simpl. intros path p. rewrite lookup_empty. discriminate. }
  destruct (rfold_invariant gp_load P (entries bnd) Hinv _ _ Hinit Hrun)
    as [[Hpd Hdata] Hall].
  split; [assumption|]. split; [assumption|].
  intros entry Hin. destruct (Hall entry Hin) as (a1 & a2 & [Hpa _] & Hstep).
  apply gp_load_paramdef in Hstep as (_ & p & Hp & _).
  exists p. rewrite <- Hpa. assumption.
Qed.

(** *** [DrawParamBlock] *)

Lemma slot_and_basename_bad entry :
  bad_parts basename entry ->
  exists v, slot_and_basename basename entry = Raise (ValueError v).
Proof.
  unfold bad_parts, slot_and_basename.
  destruct (split "_" (slice_to_neg 6 (basename entry))) as [|p0 [|p1 [|p2 [|p3 ps]]]];
    simpl; intros [[Hlen H1]|[H2 H3]]; try discriminate; try congruence; eauto.
  destruct (String.eqb p1 "1") eqn:E; simpl; eauto.
  apply String.eqb_eq in E. subst. congruence.
Qed.

Lemma slot_and_basename_ok entry slot name :
  slot_and_basename basename entry = Ok (slot, name) ->
  ~ bad_parts basename entry /\ (slot = 0 \/ slot = 1)%nat.
Proof.
  unfold bad_parts, slot_and_basename.
  destruct (split "_" (slice_to_neg 6 (basename entry))) as [|p0 [|p1 [|p2 [|p3 ps]]]];
    simpl; try discriminate.
  - intros [= <- _]. split; [|auto]. intros [[? _]|[? _]]; congruence.
  - destruct (String.eqb p1 "1") eqn:E; simpl; [|discriminate].
    apply String.eqb_eq in E. subst. intros [= <- _]. split; [|auto].
    intros [[_ ?]|[_ ?]]; congruence.
Qed.

Lemma dp_load_ok self entry self' :
  dp_load self entry = Ok self' ->
  dp_paramdef_bnd self' = dp_paramdef_bnd self
  /\ exists slot name t,
       slot_and_basename basename entry = Ok (slot, name)
       /\ DrawParamTable (entry_data entry) (dp_paramdef_bnd self) = Some t
       /\ (slot < length (default [None; None] (dp_data self !! name)))%nat
       /\ dp_data self' =
            <[name := <[slot := Some t]> (default [None; None] (dp_data self !! name))]>
              (dp_data self).
Proof.
  unfold DrawParamBlock_load_entry. intros H.
  destruct (slot_and_basename basename entry) as [e|[slot name]] eqn:Hs;
    simpl in H; [discriminate|].
  destruct (DrawParamTable _ _) as [t|] eqn:Ht; simpl in H; [|discriminate].
  unfold list_assign in H.
  destruct (slot <? _)%nat eqn:Hlt; simpl in H; [|discriminate].
  destruct (DRAWPARAM_ALIASES !! name); [|discriminate].
  inversion H; subst; simpl. split; [reflexivity|].
  exists slot, name, t. apply Nat.ltb_lt in Hlt. auto.
Qed.

Lemma dp_init_tables (bnd : BND Data) blk :
  dp_init bnd = Ok blk ->
  dp_paramdef_bnd blk = PARAMDEF_BND (dialect bnd)
  /\ (forall name tables, dp_data blk !! name = Some tables ->
        length tables = 2%nat
        /\ forall slot t, tables !! slot = Some (Some t) ->
             exists entry, entry ∈ entries bnd
               /\ DrawParamTable (entry_data entry) (PARAMDEF_BND (dialect bnd)) = Some t)
  /\ (forall entry, entry ∈ entries bnd ->
        ~ bad_parts basename entry
        /\ exists t, DrawParamTable (entry_data entry) (PARAMDEF_BND (dialect bnd)) = Some t).
Proof.
  unfold DrawParamBlock_init. intros Hrun.
  set (pd := PARAMDEF_BND (dialect bnd)) in *.
  set (P := fun s : DrawParamBlock (Table:=Table) =>
              dp_paramdef_bnd s = pd
              /\ forall name tables, dp_data s !! name = Some tables ->
                   length tables = 2%nat
                   /\ forall slot t, tables !! slot = Some (Some t) ->
                        exists entry, entry ∈ entries bnd
                          /\ DrawParamTable (entry_data entry) pd = Some t).
  assert (Hinv : forall a x a', x ∈ entries bnd -> P a -> dp_load a x = Ok a' -> P a').
  { intros a x a' Hx [Hpa Hda] Hstep.
    apply dp_load_ok in Hstep as (Hpd' & slot & name & t & Hs & Ht & Hlt & Hd').
    split; [congruence|].
    intros k tables. rewrite Hd', lookup_insert. case_decide as Hk.
    + intros [= <-].
      assert (Hold : length (default [None; None] (dp_data a !! name)) = 2%nat
                     /\ forall slot0 t0,
                          default [None; None] (dp_data a !! name) !! slot0 = Some (Some t0) ->
                          exists entry, entry ∈ entries bnd
                            /\ DrawParamTable (entry_data entry) pd = Some t0).
      { destruct (dp_data a !! name) as [l|] eqn:El; simpl.
        - apply (Hda name l El).
        - split; [reflexivity|]. intros [|[|i]] t0; simpl; discriminate. }
      destruct Hold as [Hlen Hold]. split.
      * rewrite length_insert. assumption.
      * intros slot0 t0. destruct (decide (slot = slot0)) as [<-|Hne].
        -- rewrite list_lookup_insert_eq by assumption. intros [= <-].
           exists x. rewrite <- Hpa. auto.
        -- rewrite list_lookup_insert_ne by assumption. apply Hold.
    + apply Hda. }
  assert (Hinit : P (mkDrawParamBlock ∅ pd ∅)).
  { split; [reflexivity|]. simpl. intros name tables. rewrite lookup_empty. discriminate. }
  destruct (rfold_invariant dp_load P (entries bnd) Hinv _ _ Hinit Hrun)
    as [[Hpd Hdata] Hall].
  split; [assumption|]. split; [assumption|].
  intros entry Hin. destruct (Hall entry Hin) as (a1 & a2 & [Hpa _] & Hstep).
  apply dp_load_ok in Hstep as (_ & slot & name & t & Hs & Ht & _).
  split.
  - apply slot_and_basename_ok in Hs. tauto.
  - exists t. rewrite <- Hpa. assumption.
Qed.

(** Claim C7: The schema dialect of a param archive is chosen from its DCX
    wrapper alone ('dsr' when the archive is DCX-compressed, 'ptd'
    otherwise), the schema archive is obtained once for that choice, and
    every table of the archive, in [DarkSoulsGameParameters] as in
    [DrawParamBlock], is decoded with that one schema archive. *)
Theorem C7_dialect_from_dcx_used_for_every_table (bnd : BND Data) :
  ((dcx bnd = true -> dialect bnd = "dsr"%string)
   /\ (dcx bnd = false -> dialect bnd = "ptd"%string))
  /\ (forall gp, gp_init bnd = Ok gp ->
        gp_paramdef_bnd gp = PARAMDEF_BND (dialect bnd)
        /\ (forall path p, gp_data gp !! path = Some p ->
              exists entry, entry ∈ entries bnd /\ entry_path entry = path
                /\ ParamTable (entry_data entry) (PARAMDEF_BND (dialect bnd)) = Some p)
        /\ (forall entry, entry ∈ entries bnd ->
              exists p,
                ParamTable (entry_data entry) (PARAMDEF_BND (dialect bnd)) = Some p))
  /\ (forall blk, dp_init bnd = Ok blk ->
        dp_paramdef_bnd blk = PARAMDEF_BND (dialect bnd)
        /\ (forall name tables slot t,
              dp_data blk !! name = Some tables ->
              tables !! slot = Some (Some t) ->
              exists entry, entry ∈ entries bnd
                /\ DrawParamTable (entry_data entry) (PARAMDEF_BND (dialect bnd)) = Some t)
        /\ (forall entry, entry ∈ entries bnd ->
              exists t,
                DrawParamTable (entry_data entry) (PARAMDEF_BND (dialect bnd)) = Some t)).
Proof.
  split; [apply dialect_cases|]. split.
  - intros gp Hgp. apply gp_init_tables. assumption.
  - intros blk Hblk. destruct (dp_init_tables bnd blk Hblk) as (Hpd & Hdata & Hall).
    split; [assumption|]. split.
    + intros name tables slot t Hn Hs. destruct (Hdata name tables Hn) as [_ H].
      eauto.
    + intros entry Hin. apply Hall. assumption.
Qed.

(** Claim C10: While a [DrawParamBlock] is built, an entry whose base file name
    (without its last six characters, the '.param' suffix) splits on
    underscores into three parts with a middle part other than '1', or into
    a number of parts other than two or three, makes the loop body raise
    [ValueError], and so does the constructor when the loop reaches that
    entry; a block that was built has seen no such entry and keeps exactly
    the two slots 0 and 1 for every table name. *)
Theorem C10_bad_slot_raises_ValueError (bnd : BND Data) :
  (forall self entry, bad_parts basename entry ->
     exists v, dp_load self entry = Raise (ValueError v))
  /\ (forall pre entry post self,
        entries bnd = pre ++ entry :: post ->
        rfold dp_load (mkDrawParamBlock ∅ (PARAMDEF_BND (dialect bnd)) ∅) pre = Ok self ->
        bad_parts basename entry ->
        exists v, dp_init bnd = Raise (ValueError v))
  /\ (forall blk, dp_init bnd = Ok blk ->
        (forall entry, entry ∈ entries bnd -> ~ bad_parts basename entry)
        /\ (forall name tables, dp_data blk !! name = Some tables ->
              length tables = 2%nat)).
Proof.
  assert (Hbody : forall self entry, bad_parts basename entry ->
            exists v, dp_load self entry = Raise (ValueError v)).
  { intros self entry Hbad. destruct (slot_and_basename_bad entry Hbad) as [v Hv].
    exists v. unfold DrawParamBlock_load_entry. rewrite Hv. reflexivity. }
  split; [exact Hbody|]. split.
  - intros pre entry post self Hsplit Hpre Hbad.
    destruct (Hbody self entry Hbad) as [v Hv]. exists v.
    unfold DrawParamBlock_init. rewrite Hsplit.
    eapply rfold_raise_at; eassumption.
  - intros blk Hblk. destruct (dp_init_tables bnd blk Hblk) as (_ & Hdata & Hall).
    split.
    + intros entry Hin. apply Hall. assumption.
    + intros name tables Hn. apply (Hdata name tables Hn).
Qed.

End ParamsFacts.

Section string_facts.

Lemma string_length_app (a b : string) :
  String.length (a +:+ b) = (String.length a + String.length b)%nat.
Proof. induction a as [|c a IH]; simpl; [reflexivity|]. rewrite IH. reflexivity. Qed.

Lemma string_take_app (a b : string) : take (String.length a) (a +:+ b) = a.
Proof. induction a as [|c a IH]; simpl; [destruct b; reflexivity|]. rewrite IH. reflexivity. Qed.

Lemma string_drop_app (a b : string) : drop (String.length a) (a +:+ b) = b.
Proof. induction a as [|c a IH]; simpl; [destruct b; reflexivity|]. exact IH. Qed.

Lemma string_take_drop (n : nat) (s : string) : take n s +:+ drop n s = s.
Proof.
  revert s. induction n as [|n IH]; intros [|c s]; try reflexivity.
  change (String c (take n s +:+ drop n s) = String c s).
  rewrite IH. reflexivity.
Qed.

Lemma string_app_inj_r (p a b : string) : p +:+ a = p +:+ b -> a = b.
Proof. induction p as [|c p IH]; simpl; intros H; [exact H|]. injection H. exact IH. Qed.

Lemma slice_to_neg_app (b p : string) :
  slice_to_neg (String.length p) (b +:+ p) = b.
Proof.
  unfold slice_to_neg. rewrite string_length_app.
  replace (String.length b + String.length p - String.length p)%nat
    with (String.length b) by lia.
  apply string_take_app.
Qed.

Lemma endswith_app (b p : string) : endswith p (b +:+ p) = true.
Proof.
  unfold endswith. rewrite string_length_app. apply andb_true_iff. split.
  - apply Nat.leb_le. lia.
  - replace (String.length b + String.length p - String.length p)%nat
      with (String.length b) by lia.
    rewrite string_drop_app. apply String.eqb_refl.
Qed.

(** [s.endswith(p)] holds exactly of the strings [b + p], and then
    [s[:-len(p)]] is [b]. *)
Lemma endswith_spec (p s : string) :
  endswith p s = true <-> s = slice_to_neg (String.length p) s +:+ p.
Proof.
  split.
  - unfold endswith, slice_to_neg. intros H.
    apply andb_true_iff in H as [_ H]. apply String.eqb_eq in H.
    transitivity (take (String.length s - String.length p) s
                  +:+ drop (String.length s - String.length p) s).
    + symmetry. apply string_take_drop.
    + rewrite H. reflexivity.
  - intros ->. apply endswith_app.
Qed.

Lemma app_nonempty_neq (b p : string) : p <> EmptyString -> b +:+ p <> b.
Proof.
  intros Hp Heq. apply (f_equal String.length) in Heq. rewrite string_length_app in Heq.
  destruct p; [congruence|]. simpl in Heq. lia.
Qed.

End string_facts.

Section odict_facts.
Context {K V : Type} `{EqDecision K}.
Implicit Types (d : odict K V) (k : K) (v : V).

Lemma oget_oset_eq k v d : oget k (oset k v d) = Some v.
Proof.
  induction d as [|[k' v'] d IH]; simpl.
  - destruct (decide (k = k)); congruence.
  - destruct (decide (k' = k)) as [->|Hne]; simpl.
    + destruct (decide (k = k)); congruence.
    + destruct (decide (k' = k)); [congruence|exact IH].
Qed.

Lemma oget_oset_ne k k' v d : k <> k' -> oget k' (oset k v d) = oget k' d.
Proof.
  intros Hne. induction d as [|[k0 v0] d IH]; simpl.
  - destruct (decide (k = k')); congruence.
  - destruct (decide (k0 = k)) as [->|Hne0]; simpl.
    + destruct (decide (k = k')); congruence.
    + rewrite IH. reflexivity.
Qed.

Lemma oget_None k d : oget k d = None <-> k ∉ okeys d.
Proof.
  unfold okeys. induction d as [|[k0 v0] d IH]; simpl.
  - split; [intros _ H; inversion H|reflexivity].
  - destruct (decide (k0 = k)) as [->|Hne].
    + split; [discriminate|]. intros H. exfalso. apply H. left.
    + rewrite IH. rewrite not_elem_of_cons. split; [auto|tauto].
Qed.

Lemma oget_Some_key k d : is_Some (oget k d) <-> k ∈ okeys d.
Proof.
  rewrite <- not_eq_None_Some. rewrite oget_None.
  destruct (decide (k ∈ okeys d)); tauto.
Qed.

(** Assignment keeps the keys in place; a new key goes last. *)
Lemma okeys_oset k v d :
  okeys (oset k v d) = if decide (k ∈ okeys d) then okeys d else okeys d ++ [k].
Proof.
  unfold okeys. induction d as [|[k0 v0] d IH]; simpl.
  - destruct (decide (k ∈ [])) as [H|_]; [inversion H|reflexivity].
  - destruct (decide (k0 = k)) as [->|Hne]; simpl.
    + destruct (decide (k ∈ k :: map fst d)) as [_|H]; [reflexivity|].
      exfalso. apply H. left.
    + rewrite IH. destruct (decide (k ∈ map fst d)) as [Hin|Hnin].
      * destruct (decide (k ∈ k0 :: map fst d)) as [_|H]; [reflexivity|].
        exfalso. apply H. right. exact Hin.
      * destruct (decide (k ∈ k0 :: map fst d)) as [H|_]; [|reflexivity].
        apply elem_of_cons in H as [->|H]; congruence.
Qed.

End odict_facts.

(* ================================================================== *)
(** * Properties of the text directory *)
(* ================================================================== *)

Section TextFacts.
Import Text.
Context {Data : Type} `{Fmt : MSGFormat Data}.
Implicit Types (s : State Data) (me : MSGDirectory).

(** ** The state-and-exception monad *)

Lemma bind_inv {A B} (m : M Data A) (k : A -> M Data B) s s' (r : result B) :
  bind m k s = (s', r) ->
  (exists e, m s = (s', inl e) /\ r = inl e)
  \/ (exists s1 a, m s = (s1, inr a) /\ k a s1 = (s', r)).
Proof.
  unfold bind. destruct (m s) as [s1 [e|a]]; intros H.
  - left. inversion H; subst. eauto.
  - right. eauto.
Qed.

Lemma bind_ok {A B} (m : M Data A) (k : A -> M Data B) s s1 a :
  m s = (s1, Ok a) -> bind m k s = k a s1.
Proof. unfold bind. intros ->. reflexivity. Qed.

Lemma bind_raise {A B} (m : M Data A) (k : A -> M Data B) s s1 e :
  m s = (s1, Raise e) -> bind m k s = (s1, Raise e).
Proof. unfold bind. intros ->. reflexivity. Qed.

Lemma bind_lift_ok {A B} (a : A) (k : A -> M Data B) s :
  bind (lift (Ok a)) k s = k a s.
Proof. reflexivity. Qed.

Lemma for_each_app {B} (l1 l2 : list B) (body : B -> M Data unit) s :
  for_each (l1 ++ l2) body s
  = bind (for_each l1 body) (fun _ => for_each l2 body) s.
Proof.
  revert s. induction l1 as [|x l1 IH]; intros s; [reflexivity|].
  cbn [app for_each]. unfold bind.
  destruct (body x s) as [s1 [e|u]]; [reflexivity|].
  rewrite IH. reflexivity.
Qed.

(** ** [__getitem__] *)

Lemma getitem_loaded s text_category d :
  oget text_category (categories (self s)) = Some d ->
  getitem text_category s = (s, Ok d).
Proof. unfold getitem, bind, get_self. simpl. intros ->. reflexivity. Qed.

Lemma getitem_missing s text_category :
  oget text_category (categories (self s)) = None ->
  getitem text_category s = (s, Raise (AttributeError (NoCategory text_category))).
Proof. unfold getitem, bind, get_self. simpl. intros ->. reflexivity. Qed.

Lemma getitem_index_text_of s text_category index text :
  text_of (self s) text_category index = Some text ->
  getitem_index text_category index s = (s, Ok text).
Proof.
  unfold text_of, getitem_index. intros H.
  destruct (oget text_category (categories (self s))) as [d|] eqn:Hd; [|discriminate].
  rewrite (bind_ok _ _ _ _ _ (getitem_loaded _ _ _ Hd)).
  unfold subscript. rewrite H. reflexivity.
Qed.

(** Claim C9: Subscripting the directory with a string that is not a key of
    [categories] raises [AttributeError] (never [KeyError], and no value is
    returned); subscripting it with the name of a loaded category returns
    the index-to-string dictionary of that category.  The state is left as
    it was in both cases. *)
Theorem C9_getitem_raises_AttributeError s (text_category : string) :
  (text_category ∉ okeys (categories (self s)) ->
     getitem text_category s
     = (s, Raise (AttributeError (NoCategory text_category))))
  /\ (text_category ∈ okeys (categories (self s)) ->
        exists d, oget text_category (categories (self s)) = Some d
          /\ getitem text_category s = (s, Ok d))
  /\ (forall s' e, getitem text_category s = (s', Raise e) ->
        class_of e = CAttributeError
        /\ text_category ∉ okeys (categories (self s))).
Proof.
  split; [|split].
  - intros Hnot. apply getitem_missing. apply oget_None. assumption.
  - intros Hin. apply oget_Some_key in Hin as [d Hd].
    exists d. split; [assumption|]. apply getitem_loaded. assumption.
  - intros s' e Hrun.
    destruct (oget text_category (categories (self s))) as [d|] eqn:Hd.
    + rewrite (getitem_loaded _ _ _ Hd) in Hrun. discriminate.
    + rewrite (getitem_missing _ _ Hd) in Hrun. inversion Hrun; subst.
      split; [reflexivity|]. apply oget_None. assumption.
Qed.

(** ** [delete_item_text] *)

Lemma category_loaded s name d :
  oget name (categories (self s)) = Some d -> category name s = (s, Ok d).
Proof. unfold category, bind, get_self. simpl. intros ->. reflexivity. Qed.

Lemma set_text_loaded s name index text d :
  oget name (categories (self s)) = Some d ->
  set_text name index text s
  = (mkState
       (with_categories (oset name (<[index := text]> d) (categories (self s)))
          (self s))
       (heap s) (disk s) (locked s), Ok tt).
Proof.
  intros Hd. unfold set_text.
  rewrite (bind_ok _ _ _ _ _ (category_loaded _ _ _ Hd)). reflexivity.
Qed.

Lemma text_of_set me name index text d c i :
  text_of (with_categories (oset name (<[index := text]> d) (categories me)) me) c i
  = if decide (name = c) then
      (if decide (index = i) then Some text else d !! i)
    else text_of me c i.
Proof.
  unfold text_of. simpl. destruct (decide (name = c)) as [<-|Hne].
  - rewrite oget_oset_eq. rewrite lookup_insert. reflexivity.
  - rewrite oget_oset_ne by assumption. reflexivity.
Qed.

(** Claim C6, as amended: [delete_item_text(index, item_type)], for an item
    type that resolves to the prefix [P] with [index] present in the
    category [P + "Names"] and the categories [P + "Summaries"] and
    [P + "Descriptions"] loaded, returns normally; afterwards the three
    categories keep all their keys, the text at [index] in each of the
    three is the empty string (so [self[category][index]] returns it), no
    category is added or removed, and the text of every other
    (category, index) pair is what it was. *)
Theorem C6_delete_item_text_blanks_name_summary_description
    s (index : Z) (item_fmg prefix : string)
    (names summaries descriptions : gmap Z string) :
  resolve_item_type item_fmg = Ok prefix ->
  oget (prefix +:+ "Names") (categories (self s)) = Some names ->
  is_Some (names !! index) ->
  oget (prefix +:+ "Summaries") (categories (self s)) = Some summaries ->
  oget (prefix +:+ "Descriptions") (categories (self s)) = Some descriptions ->
  exists s',
    delete_item_text index item_fmg s = (s', Ok tt)
    /\ (forall kind, kind ∈ ["Names"; "Summaries"; "Descriptions"]%string ->
          getitem_index (prefix +:+ kind) index s' = (s', Ok EmptyString))
    /\ (forall c i, is_Some (text_of (self s) c i) -> is_Some (text_of (self s') c i))
    /\ okeys (categories (self s')) = okeys (categories (self s))
    /\ (forall c i,
          ~ (i = index /\ exists kind,
               kind ∈ ["Names"; "Summaries"; "Descriptions"]%string
               /\ c = prefix +:+ kind) ->
          text_of (self s') c i = text_of (self s) c i).
Proof.
  intros Hres Hn [t Ht] Hs Hd.
  assert (Hns : prefix +:+ "Names" <> prefix +:+ "Summaries")
    by (intros H; apply string_app_inj_r in H; discriminate).
  assert (Hnd : prefix +:+ "Names" <> prefix +:+ "Descriptions")
    by (intros H; apply string_app_inj_r in H; discriminate).
  assert (Hsd : prefix +:+ "Summaries" <> prefix +:+ "Descriptions")
    by (intros H; apply string_app_inj_r in H; discriminate).
  set (me1 := with_categories
                (oset (prefix +:+ "Names") (<[index := EmptyString]> names)
                   (categories (self s))) (self s)).
  set (me2 := with_categories
                (oset (prefix +:+ "Summaries") (<[index := EmptyString]> summaries)
                   (categories me1)) me1).
  set (me3 := with_categories
                (oset (prefix +:+ "Descriptions")
                   (<[index := EmptyString]> descriptions) (categories me2)) me2).
  exists (mkState me3 (heap s) (disk s) (locked s)).
  assert (Hrun : delete_item_text index item_fmg s
                 = (mkState me3 (heap s) (disk s) (locked s), Ok tt)).
  { unfold delete_item_text. rewrite Hres, bind_lift_ok.
    rewrite (bind_ok _ _ _ _ _ (category_loaded _ _ _ Hn)). rewrite Ht.
    rewrite (bind_ok _ _ _ _ _ (set_text_loaded _ _ _ _ _ Hn)).
    erewrite bind_ok; cycle 1.
    { apply set_text_loaded. simpl. rewrite oget_oset_ne by assumption. exact Hs. }
    rewrite set_text_loaded with (d := descriptions); [reflexivity|].
    simpl. rewrite !oget_oset_ne by assumption. exact Hd. }
  assert (Htext : forall c i,
            text_of me3 c i
            = if decide (prefix +:+ "Descriptions" = c) then
                (if decide (index = i) then Some EmptyString else descriptions !! i)
              else if decide (prefix +:+ "Summaries" = c) then
                (if decide (index = i) then Some EmptyString else summaries !! i)
              else if decide (prefix +:+ "Names" = c) then
                (if decide (index = i) then Some EmptyString else names !! i)
              else text_of (self s) c i).
  { intros c i. unfold me3, me2, me1. rewrite !text_of_set. reflexivity. }
  assert (Hold : forall kind d c i,
            oget (prefix +:+ kind) (categories (self s)) = Some d ->
            prefix +:+ kind = c -> text_of (self s) c i = d !! i).
  { intros kind d c i Hk <-. unfold text_of. rewrite Hk. reflexivity. }
  split; [exact Hrun|]. split; [|split; [|split]].
  - intros kind Hkind. apply getitem_index_text_of. simpl. rewrite Htext.
    repeat (apply elem_of_cons in Hkind as [->|Hkind]);
      [| |  |inversion Hkind];
      repeat (case_decide; try congruence).
  - intros c i Hsome. simpl. rewrite Htext.
    destruct (decide (prefix +:+ "Descriptions" = c)) as [Hc|_].
    { destruct (decide (index = i)); [eauto|].
      rewrite <- (Hold _ _ _ i Hd Hc). exact Hsome. }
    destruct (decide (prefix +:+ "Summaries" = c)) as [Hc|_].
    { destruct (decide (index = i)); [eauto|].
      rewrite <- (Hold _ _ _ i Hs Hc). exact Hsome. }
    destruct (decide (prefix +:+ "Names" = c)) as [Hc|_]; [|exact Hsome].
    destruct (decide (index = i)); [eauto|].
    rewrite <- (Hold _ _ _ i Hn Hc). exact Hsome.
  - simpl. unfold me3, me2, me1. simpl. rewrite !okeys_oset.
    assert (Hin1 : prefix +:+ "Names" ∈ okeys (categories (self s)))
      by (apply oget_Some_key; eauto).
    assert (Hin2 : prefix +:+ "Summaries" ∈ okeys (categories (self s)))
      by (apply oget_Some_key; eauto).
    assert (Hin3 : prefix +:+ "Descriptions" ∈ okeys (categories (self s)))
      by (apply oget_Some_key; eauto).
    destruct (decide (prefix +:+ "Names" ∈ okeys (categories (self s)))); [|tauto].
    destruct (decide (prefix +:+ "Summaries" ∈ okeys (categories (self s)))); [|tauto].
    destruct (decide (prefix +:+ "Descriptions" ∈ okeys (categories (self s)))); [|tauto].
    reflexivity.
  - intros c i Hnot. simpl. rewrite Htext.
    assert (Hk : forall kind, kind ∈ ["Names"; "Summaries"; "Descriptions"]%string ->
              prefix +:+ kind = c -> index <> i).
    { intros kind Hkind Hc Hi. apply Hnot. split; [congruence|]. eauto. }
    destruct (decide (prefix +:+ "Descriptions" = c)) as [Hc|_].
    { destruct (decide (index = i)) as [Hi|_].
      - exfalso. apply (Hk "Descriptions"%string); [set_solver|exact Hc|exact Hi].
      - symmetry. exact (Hold _ _ _ i Hd Hc). }
    destruct (decide (prefix +:+ "Summaries" = c)) as [Hc|_].
    { destruct (decide (index = i)) as [Hi|_].
      - exfalso. apply (Hk "Summaries"%string); [set_solver|exact Hc|exact Hi].
      - symmetry. exact (Hold _ _ _ i Hs Hc). }
    destruct (decide (prefix +:+ "Names" = c)) as [Hc|_]; [|reflexivity].
    destruct (decide (index = i)) as [Hi|_].
    + exfalso. apply (Hk "Names"%string); [set_solver|exact Hc|exact Hi].
    + symmetry. exact (Hold _ _ _ i Hn Hc).
Qed.


(** ** [load_fmg_entries_from_bnd] *)

Lemma load_fmg_entry_unexpected s entry is_menu :
  name_of_index MSGBND_INDEX_NAMES !! entry_id entry = None ->
  load_fmg_entry entry is_menu s
  = (s, Raise (ValueError (UnexpectedIndex (entry_path entry) (entry_id entry)))).
Proof. unfold load_fmg_entry. intros ->. reflexivity. Qed.

Lemma load_fmg_entry_loaded s entry is_menu new_name fmg :
  name_of_index MSGBND_INDEX_NAMES !! entry_id entry = Some new_name ->
  FMG_unpack (entry_data entry) = Some fmg ->
  load_fmg_entry entry is_menu s
  = (mkState (loaded_entry entry is_menu new_name fmg (self s))
       (heap s) (disk s) (locked s), Ok tt).
Proof.
  unfold load_fmg_entry, loaded_entry. intros -> Hfmg.
  unfold bind, set_self, lift. simpl. rewrite Hfmg. simpl.
  destruct (endswith "Patch" new_name); reflexivity.
Qed.

Lemma load_fmg_entry_undecoded s entry is_menu new_name :
  name_of_index MSGBND_INDEX_NAMES !! entry_id entry = Some new_name ->
  FMG_unpack (entry_data entry) = None ->
  exists s', load_fmg_entry entry is_menu s = (s', Raise (FormatError "FMG")).
Proof.
  unfold load_fmg_entry. intros -> Hfmg.
  unfold bind, set_self, lift. simpl. rewrite Hfmg. simpl. eauto.
Qed.

(** Every outcome of the loop body. *)
Lemma load_fmg_entry_cases s entry is_menu s' r :
  load_fmg_entry entry is_menu s = (s', r) ->
  (name_of_index MSGBND_INDEX_NAMES !! entry_id entry = None
   /\ s' = s
   /\ r = Raise (ValueError (UnexpectedIndex (entry_path entry) (entry_id entry))))
  \/ (exists new_name,
        name_of_index MSGBND_INDEX_NAMES !! entry_id entry = Some new_name
        /\ ((FMG_unpack (entry_data entry) = None /\ r = Raise (FormatError "FMG"))
            \/ (exists fmg, FMG_unpack (entry_data entry) = Some fmg
                  /\ r = Ok tt
                  /\ s' = mkState (loaded_entry entry is_menu new_name fmg (self s))
                            (heap s) (disk s) (locked s)))).
Proof.
  intros Hrun.
  destruct (name_of_index MSGBND_INDEX_NAMES !! entry_id entry) as [new_name|] eqn:Hn.
  - right. exists new_name. split; [reflexivity|].
    destruct (FMG_unpack (entry_data entry)) as [fmg|] eqn:Hf.
    + right. exists fmg. rewrite (load_fmg_entry_loaded _ _ _ _ _ Hn Hf) in Hrun.
      inversion Hrun; subst. auto.
    + left. destruct (load_fmg_entry_undecoded s _ is_menu _ Hn Hf) as [s1 H1].
      rewrite H1 in Hrun. inversion Hrun; subst. auto.
  - left. rewrite (load_fmg_entry_unexpected _ _ _ Hn) in Hrun.
    inversion Hrun; subst. auto.
Qed.

(** What one iteration does to the merged view and to the provenance set. *)
Lemma text_of_merge_entries me name fmg c i :
  text_of (merge_entries name fmg me) c i
  = if decide (name = c) then
      match fmg !! i with
      | Some text => Some text
      | None => text_of me c i
      end
    else text_of me c i.
Proof.
  unfold text_of, merge_entries. simpl. destruct (decide (name = c)) as [<-|Hne].
  - rewrite oget_oset_eq. rewrite lookup_union.
    destruct (fmg !! i) as [text|] eqn:Hf.
    + destruct (default ∅ (oget name (categories me)) !! i); reflexivity.
    + rewrite (left_id_L None _).
      destruct (oget name (categories me)); simpl; [reflexivity|apply lookup_empty].
  - rewrite oget_oset_ne by assumption. reflexivity.
Qed.

Lemma grows_refl me : grows me me.
Proof. split; [reflexivity|auto]. Qed.

Lemma grows_trans me1 me2 me3 : grows me1 me2 -> grows me2 me3 -> grows me1 me3.
Proof. intros [H1 H2] [H3 H4]. split; [set_solver|auto]. Qed.

Lemma grows_loaded_entry entry is_menu new_name fmg me :
  grows me (loaded_entry entry is_menu new_name fmg me).
Proof.
  unfold loaded_entry. destruct (endswith "Patch" new_name); split.
  - simpl. set_solver.
  - intros c i. rewrite text_of_merge_entries.
    case_decide; [|auto]. destruct (fmg !! i); eauto.
  - simpl. set_solver.
  - intros c i. rewrite text_of_merge_entries.
    case_decide; [|auto]. destruct (fmg !! i); eauto.
Qed.

Lemma load_fmg_entry_grows s entry is_menu s' r :
  load_fmg_entry entry is_menu s = (s', r) -> r = Ok tt \/ s' = s -> grows (self s) (self s').
Proof.
  intros Hrun Hr. apply load_fmg_entry_cases in Hrun
    as [(_ & -> & _)|(new_name & Hn & [[Hf ->]|(fmg & Hf & -> & ->)])].
  - apply grows_refl.
  - destruct Hr as [?| ->]; [discriminate|apply grows_refl].
  - simpl. apply grows_loaded_entry.
Qed.

Lemma load_tagged_grows (l : list (BNDEntry Data * bool)) s s' :
  for_each l load_tagged s = (s', Ok tt) -> grows (self s) (self s').
Proof.
  revert s. induction l as [|p l IH]; intros s Hrun; simpl in Hrun.
  - inversion Hrun; subst. apply grows_refl.
  - apply bind_inv in Hrun as [(err & _ & [=])|(s1 & [] & He & Hrest)].
    eapply grows_trans.
    + eapply load_fmg_entry_grows; eauto.
    + apply IH. assumption.
Qed.


(** ** [__init__] *)

Lemma BND_open_found s path b :
  disk s !! path = Some b ->
  BND_open path s
  = (mkState (self s) (heap s ++ [b]) (disk s) (locked s), Ok (length (heap s))).
Proof. unfold BND_open. intros ->. reflexivity. Qed.

Lemma open_msgbnd_found s dir name b :
  found_msgbnd s dir name = Some b ->
  open_msgbnd dir name s
  = (mkState (self s) (heap s ++ [b]) (disk s) (locked s), Ok (length (heap s))).
Proof.
  unfold found_msgbnd, open_msgbnd, except_FileNotFoundError.
  destruct (disk s !! joinpath dir (name +:+ ".dcx")) as [b'|] eqn:Hdcx.
  - intros [= ->]. rewrite (BND_open_found _ _ _ Hdcx). reflexivity.
  - intros Hplain. unfold BND_open at 1. rewrite Hdcx.
    apply BND_open_found. assumption.
Qed.

Lemma deref_Some s l b attr :
  heap s !! l = Some b -> deref (Some l) attr s = (s, Ok (l, b)).
Proof. unfold deref. intros ->. reflexivity. Qed.

Lemma set_self_run s f :
  set_self f s = (mkState (f (self s)) (heap s) (disk s) (locked s), Ok tt).
Proof. reflexivity. Qed.

Lemma for_each_map {B C} (f : B -> C) (l : list B) (body : C -> M Data unit) s :
  for_each (map f l) body s = for_each l (fun x => body (f x)) s.
Proof.
  revert s. induction l as [|x l IH]; intros s; [reflexivity|].
  cbn [map for_each]. unfold bind. destruct (body (f x) s) as [s1 [e|u]]; [reflexivity|].
  apply IH.
Qed.

Lemma load_fmg_entries_from_bnd_run s l b is_menu :
  heap s !! l = Some b ->
  load_fmg_entries_from_bnd (Some l) is_menu s
  = for_each (entries b) (fun entry => load_fmg_entry entry is_menu) s.
Proof.
  intros Hl. unfold load_fmg_entries_from_bnd.
  rewrite (bind_ok _ _ _ _ _ (deref_Some _ _ _ _ Hl)). reflexivity.
Qed.

(** Loading changes the directory object only. *)
Lemma load_fmg_entry_heap s entry is_menu s' r :
  load_fmg_entry entry is_menu s = (s', r) ->
  heap s' = heap s /\ disk s' = disk s /\ locked s' = locked s.
Proof.
  unfold load_fmg_entry.
  destruct (name_of_index MSGBND_INDEX_NAMES !! entry_id entry);
    [|intros [= <- _]; auto].
  unfold bind, set_self, lift. simpl.
  destruct (FMG_unpack (entry_data entry)); simpl;
    [destruct (endswith "Patch" _)|]; intros [= <- _]; auto.
Qed.

Lemma for_each_load_heap (es : list (BNDEntry Data)) is_menu s s' r :
  for_each es (fun entry => load_fmg_entry entry is_menu) s = (s', r) ->
  heap s' = heap s /\ disk s' = disk s /\ locked s' = locked s.
Proof.
  revert s. induction es as [|x l IH]; intros s Hrun; simpl in Hrun.
  - inversion Hrun; subst. auto.
  - apply bind_inv in Hrun as [(err & He & _)|(s2 & [] & He & Hrest)].
    + eapply load_fmg_entry_heap; eauto.
    + apply IH in Hrest as (-> & -> & ->).
      eapply load_fmg_entry_heap; eauto.
Qed.

Lemma MSGDirectory_init_found s dir item menu :
  found_msgbnd s dir "item.msgbnd" = Some item ->
  found_msgbnd s dir "menu.msgbnd" = Some menu ->
  MSGDirectory_init (Some dir) s
  = if dcx_magic item && negb (dcx_magic menu) then
      (opened_state s dir item menu, Raise (ValueError DcxItemOnly))
    else if negb (dcx_magic item) && dcx_magic menu then
      (opened_state s dir item menu, Raise (ValueError DcxMenuOnly))
    else for_each (tagged_entries item menu) load_tagged (opened_state s dir item menu).
Proof.
  intros Hitem Hmenu. unfold MSGDirectory_init.
  rewrite (bind_ok _ _ _ _ _ (set_self_run _ _)).
  rewrite (bind_ok _ _ _ _ _ (set_self_run _ _)).
  erewrite bind_ok; cycle 1.
  { apply open_msgbnd_found. exact Hitem. }
  rewrite (bind_ok _ _ _ _ _ (set_self_run _ _)).
  erewrite bind_ok; cycle 1.
  { apply open_msgbnd_found. exact Hmenu. }
  rewrite (bind_ok _ _ _ _ _ (set_self_run _ _)).
  cbn [blank with_item_msgbnd with_menu_msgbnd with_msgbnds directory _is_menu
       _original_names categories _is_patch item_msgbnd menu_msgbnd
       self heap disk locked].
  rewrite length_app. cbn [length]. rewrite Nat.add_1_r.
  fold (opened_state s dir item menu).
  assert (Hli : heap (opened_state s dir item menu) !! length (heap s) = Some item).
  { cbn [opened_state heap]. rewrite <- app_assoc. apply list_lookup_middle. reflexivity. }
  assert (Hlm : heap (opened_state s dir item menu) !! S (length (heap s)) = Some menu).
  { cbn [opened_state heap]. apply list_lookup_middle.
    rewrite length_app. cbn [length]. lia. }
  rewrite (bind_ok _ _ _ _ _ (deref_Some _ _ _ _ Hli)).
  rewrite (bind_ok _ _ _ _ _ (deref_Some _ _ _ _ Hlm)).
  destruct (dcx_magic item && negb (dcx_magic menu)); [reflexivity|].
  destruct (negb (dcx_magic item) && dcx_magic menu); [reflexivity|].
  unfold tagged_entries. rewrite for_each_app. unfold bind.
  rewrite (load_fmg_entries_from_bnd_run _ _ _ _ Hli), for_each_map.
  cbn [load_tagged fst snd].
  destruct (for_each (entries item) _ _) as [s1 [e|u]] eqn:Hloop; [reflexivity|].
  apply for_each_load_heap in Hloop as (Hheap & _ & _).
  rewrite <- Hheap in Hlm.
  rewrite (load_fmg_entries_from_bnd_run _ _ _ _ Hlm), for_each_map.
  reflexivity.
Qed.

Lemma elem_of_tagged_entries (item menu : BND Data) (entry : BNDEntry Data) :
  entry ∈ entries item ++ entries menu
  <-> exists is_menu, (entry, is_menu) ∈ tagged_entries item menu.
Proof.
  unfold tagged_entries. rewrite elem_of_app. split.
  - intros [H|H]; [exists false|exists true]; rewrite elem_of_app, !list_elem_of_fmap;
      [left|right]; eauto.
  - intros [b H]. rewrite elem_of_app, !list_elem_of_fmap in H.
    destruct H as [(x & [= -> _] & Hx)|(x & [= -> _] & Hx)]; auto.
Qed.

(** A loop that ran to its end met mapped IDs only. *)
Lemma load_tagged_ok_mapped (l : list (BNDEntry Data * bool)) s s' :
  for_each l load_tagged s = (s', Ok tt) -> forall p, p ∈ l -> mapped p.1.
Proof.
  revert s. induction l as [|x l IH]; intros s Hrun p Hp; [inversion Hp|].
  simpl in Hrun. apply bind_inv in Hrun as [(err & _ & [=])|(s1 & [] & Hx & Hrest)].
  apply elem_of_cons in Hp as [->|Hp]; [|eapply IH; eauto].
  apply load_fmg_entry_cases in Hx
    as [(_ & _ & [=])|(new_name & Hn & _)].
  unfold mapped. rewrite Hn. eauto.
Qed.

(** The exceptions of the loop: an unexpected index at an unmapped entry,
    or the exception of the FMG class. *)
Lemma load_tagged_raise (l : list (BNDEntry Data * bool)) s s' e :
  for_each l load_tagged s = (s', Raise e) ->
  (exists p, p ∈ l /\ ~ mapped p.1
     /\ e = ValueError (UnexpectedIndex (entry_path p.1) (entry_id p.1)))
  \/ (exists p, p ∈ l /\ mapped p.1 /\ FMG_unpack (entry_data p.1) = None
        /\ e = FormatError "FMG").
Proof.
  revert s. induction l as [|x l IH]; intros s Hrun; simpl in Hrun; [discriminate|].
  apply bind_inv in Hrun as [(err & Hx & [= ->])|(s1 & [] & Hx & Hrest)].
  - apply load_fmg_entry_cases in Hx
      as [(Hn & _ & [= ->])|(new_name & Hn & [[Hf [= ->]]|(fmg & _ & [=] & _)])].
    + left. exists x. split; [left|]. split; [|reflexivity].
      unfold mapped. rewrite Hn. intros [? [=]].
    + right. exists x. split; [left|]. unfold mapped. rewrite Hn. eauto.
  - destruct (IH _ Hrest) as [(p & Hp & H)|(p & Hp & H)]; [left|right];
      exists p; (split; [right; assumption|assumption]).
Qed.

(** When the FMG class decodes every mapped entry, the loop raises at the
    first unmapped entry. *)
Lemma load_tagged_first_unmapped (l : list (BNDEntry Data * bool)) s :
  (forall p, p ∈ l -> mapped p.1 -> is_Some (FMG_unpack (entry_data p.1))) ->
  (exists p, p ∈ l /\ ~ mapped p.1) ->
  exists p s', p ∈ l /\ ~ mapped p.1
    /\ for_each l load_tagged s
       = (s', Raise (ValueError (UnexpectedIndex (entry_path p.1) (entry_id p.1)))).
Proof.
  revert s. induction l as [|x l IH]; intros s Hdec (p & Hp & Hun); [inversion Hp|].
  destruct (name_of_index MSGBND_INDEX_NAMES !! entry_id x.1) as [new_name|] eqn:Hn.
  - destruct (Hdec x) as [fmg Hf]; [left|unfold mapped; rewrite Hn; eauto|].
    apply elem_of_cons in Hp as [->|Hp].
    { exfalso. apply Hun. unfold mapped. rewrite Hn. eauto. }
    destruct (IH (mkState (loaded_entry x.1 x.2 new_name fmg (self s))
                    (heap s) (disk s) (locked s)))
      as (q & s' & Hq & Hqun & Hrun).
    + intros q Hq. apply Hdec. right. assumption.
    + eauto.
    + exists q, s'. split; [right; assumption|]. split; [assumption|].
      simpl. erewrite bind_ok; [exact Hrun|].
      apply load_fmg_entry_loaded; assumption.
  - exists x, s. split; [left|]. split.
    + unfold mapped. rewrite Hn. intros [? [=]].
    + simpl. erewrite bind_raise; [reflexivity|].
      apply load_fmg_entry_unexpected. assumption.
Qed.

(** Claim C5: An archive entry whose ID has no name in [_MSGBND_INDEX_NAMES]
    makes the loop body raise the unexpected-index [ValueError] and leaves
    the object as it was; a directory with such an entry is never opened
    (the constructor raises and no object, hence no partial set of
    categories, is returned), the exception being that [ValueError] for an
    unmapped entry when the two archives agree on DCX and the FMG class
    decodes the mapped entries; and when every entry of both archives has
    a mapped ID the constructor never raises it. *)
Theorem C5_unmapped_entry_aborts_open s (dir : string) (item menu : BND Data) :
  found_msgbnd s dir "item.msgbnd" = Some item ->
  found_msgbnd s dir "menu.msgbnd" = Some menu ->
  (forall s1 entry is_menu, ~ mapped entry ->
     load_fmg_entry entry is_menu s1
     = (s1, Raise (ValueError (UnexpectedIndex (entry_path entry) (entry_id entry)))))
  /\ ((exists entry, entry ∈ entries item ++ entries menu /\ ~ mapped entry) ->
        exists e, MSGDirectory_new (Some dir) s = Raise e)
  /\ (dcx_magic item = dcx_magic menu ->
      (forall entry, entry ∈ entries item ++ entries menu -> mapped entry ->
         is_Some (FMG_unpack (entry_data entry))) ->
      (exists entry, entry ∈ entries item ++ entries menu /\ ~ mapped entry) ->
      exists entry, entry ∈ entries item ++ entries menu /\ ~ mapped entry
        /\ MSGDirectory_new (Some dir) s
           = Raise (ValueError (UnexpectedIndex (entry_path entry) (entry_id entry))))
  /\ ((forall entry, entry ∈ entries item ++ entries menu -> mapped entry) ->
        forall path id,
          MSGDirectory_new (Some dir) s <> Raise (ValueError (UnexpectedIndex path id))).
Proof.
  intros Hitem Hmenu.
  pose proof (MSGDirectory_init_found s dir item menu Hitem Hmenu) as Hinit.
  split; [|split; [|split]].
  - intros s1 entry is_menu Hun. apply load_fmg_entry_unexpected.
    destruct (name_of_index MSGBND_INDEX_NAMES !! entry_id entry) eqn:Hn;
      [|reflexivity].
    exfalso. apply Hun. unfold mapped. rewrite Hn. eauto.
  - intros (entry & Hin & Hun). unfold MSGDirectory_new. rewrite Hinit.
    destruct (dcx_magic item && negb (dcx_magic menu)); [eauto|].
    destruct (negb (dcx_magic item) && dcx_magic menu); [eauto|].
    destruct (for_each _ _ _) as [s' [e|[]]] eqn:Hrun; [eauto|].
    exfalso. apply Hun. apply elem_of_tagged_entries in Hin as [b Hb].
    apply (load_tagged_ok_mapped _ _ _ Hrun _ Hb).
  - intros Hdcx Hdec (entry & Hin & Hun).
    unfold MSGDirectory_new. rewrite Hinit. rewrite Hdcx.
    rewrite andb_negb_r, andb_negb_l.
    apply elem_of_tagged_entries in Hin as [b Hb].
    destruct (load_tagged_first_unmapped (tagged_entries item menu)
                (opened_state s dir item menu)) as (p & s' & Hp & Hpun & Hrun).
    + intros q Hq. apply Hdec. apply elem_of_tagged_entries.
      exists q.2. destruct q; assumption.
    + exists (entry, b). auto.
    + exists p.1. split; [|split; [assumption|]].
      * apply elem_of_tagged_entries. exists p.2. destruct p; assumption.
      * rewrite Hrun. reflexivity.
  - intros Hall path id. unfold MSGDirectory_new. rewrite Hinit.
    destruct (dcx_magic item && negb (dcx_magic menu)); [discriminate|].
    destruct (negb (dcx_magic item) && dcx_magic menu); [discriminate|].
    destruct (for_each _ _ _) as [s' [e|[]]] eqn:Hrun; [|discriminate].
    intros [= ->].
    apply load_tagged_raise in Hrun as [(p & Hp & Hun & _)|(p & _ & _ & _ & [=])].
    apply Hun. apply Hall. apply elem_of_tagged_entries.
    exists p.2. destruct p; assumption.
Qed.

(** ** [save] works on copies *)

Section maintains_rules.
Context (I : State Data -> Prop) (E : exn -> Prop).

Lemma maintains_ret {A} (Q : A -> Prop) a : Q a -> maintains I E Q (ret a).
Proof. intros Ha s s' r Hs [= <- <-]. auto. Qed.

Lemma maintains_raise {A} (Q : A -> Prop) e : E e -> maintains I E Q (raise e).
Proof. intros He s s' r Hs [= <- <-]. auto. Qed.

Lemma maintains_bind {A B} (Qa : A -> Prop) (Q : B -> Prop) m k :
  maintains I E Qa m -> (forall a, Qa a -> maintains I E Q (k a)) ->
  maintains I E Q (bind m k).
Proof.
  intros Hm Hk s s' r Hs Hrun.
  apply bind_inv in Hrun as [(e & Hrun & ->)|(s1 & a & Hrun & Hrest)].
  - apply (Hm _ _ _ Hs Hrun).
  - destruct (Hm _ _ _ Hs Hrun) as [Hs1 Ha]. apply (Hk a Ha _ _ _ Hs1 Hrest).
Qed.

Lemma maintains_for_each {B} (l : list B) body :
  (forall x, x ∈ l -> maintains I E (fun _ => True) (body x)) ->
  maintains I E (fun _ => True) (for_each l body).
Proof.
  induction l as [|x l IH]; intros Hbody; simpl.
  - apply maintains_ret. exact Logic.I.
  - eapply maintains_bind.
    + apply Hbody. left.
    + intros _ _. apply IH. intros y Hy. apply Hbody. right. assumption.
Qed.

Lemma maintains_subscript {K V} `{Countable K} (d : gmap K V) k shown :
  E (KeyError shown) -> maintains I E (fun _ => True) (subscript d k shown).
Proof.
  intros He. unfold subscript. destruct (d !! k).
  - apply maintains_ret. exact Logic.I.
  - apply maintains_raise. exact He.
Qed.

Lemma maintains_decoded {A} what (o : option A) :
  E (FormatError what) -> maintains I E (fun _ => True) (lift (decoded what o)).
Proof. intros He s s' r Hs [= <- <-]. split; [assumption|]. destruct o; simpl; auto. Qed.

Lemma maintains_get_self (Q : MSGDirectory -> Prop) :
  (forall s, I s -> Q (self s)) -> maintains I E Q get_self.
Proof.
  intros Hq s s' r Hs [= <- <-]. split; [assumption|]. apply Hq. assumption.
Qed.

Lemma maintains_deref o attr :
  E TypeError -> E (AttributeError (NoneHasNoAttribute attr)) ->
  maintains I E (fun p => o = Some p.1) (deref o attr).
Proof.
  intros Ht Ha. unfold deref. destruct o as [l|].
  - intros s s' r Hs.
    destruct (heap s !! l); intros [= <- <-]; (split; [assumption|]);
      [reflexivity|assumption].
  - apply maintains_raise. exact Ha.
Qed.
End maintains_rules.

Section untouched_rules.
Context (s0 : State Data).
#[local] Notation "'Inv'" := (untouched s0).
#[local] Notation "'NoVE'" := not_ValueError.

Lemma untouched_refl : Inv s0.
Proof. split; [reflexivity|]. split; [lia|auto]. Qed.

Lemma maintains_store l b :
  (length (heap s0) <= l)%nat -> maintains Inv NoVE (fun _ => True) (store l b).
Proof.
  intros Hl s s' r (Hself & Hlen & Hold) [= <- <-]. split; [|exact Logic.I].
  split; [assumption|]. simpl. split.
  - rewrite length_insert. assumption.
  - intros l' Hl'. rewrite list_lookup_insert_ne by lia. apply Hold. assumption.
Qed.

Lemma maintains_deepcopy o : maintains Inv NoVE (fresh_for s0) (deepcopy o).
Proof.
  unfold deepcopy. destruct o as [l|].
  - intros s s' r (Hself & Hlen & Hold). destruct (heap s !! l) as [b|].
    + unfold bind, alloc, ret. simpl. intros [= <- <-]. split.
      * split; [assumption|]. simpl. split.
        -- rewrite length_app. lia.
        -- intros l' Hl'. rewrite lookup_app_l by lia. apply Hold. assumption.
      * intros l' [= <-]. assumption.
    + intros [= <- <-]. split; [|discriminate]. split; auto.
  - apply maintains_ret. intros l [=].
Qed.

Lemma maintains_update_entry l i f :
  (length (heap s0) <= l)%nat ->
  maintains Inv NoVE (fun _ => True) (update_entry l i f).
Proof.
  intros Hl. unfold update_entry. eapply maintains_bind.
  - apply maintains_deref; discriminate.
  - intros [l' b] _. apply maintains_store. assumption.
Qed.
End untouched_rules.

Section save_frame.
Context (s0 : State Data).
#[local] Notation "'Inv'" := (untouched s0).
#[local] Notation "'NoVE'" := not_ValueError.
#[local] Notation "'Any'" := (fun _ => True).

Lemma maintains_remove_entry l (b : BND Data) id :
  (length (heap s0) <= l)%nat -> maintains Inv NoVE Any (remove_entry l b id).
Proof.
  intros Hl. unfold remove_entry. destruct (entries_by_id (entries b) id).
  - apply maintains_store. assumption.
  - apply maintains_raise. discriminate.
Qed.

Lemma maintains_update_msgbnd_entry msgbnd fmg_name fmg_entries
    word_wrap_limit pipe_to_newline use_original_names :
  fresh_for s0 msgbnd ->
  maintains Inv NoVE Any
    (update_msgbnd_entry msgbnd fmg_name fmg_entries word_wrap_limit
       pipe_to_newline use_original_names).
Proof.
  intros Hfresh. unfold update_msgbnd_entry.
  eapply maintains_bind; [apply maintains_decoded; discriminate|]. intros data _.
  eapply maintains_bind; [apply maintains_subscript; discriminate|]. intros id _.
  eapply maintains_bind; [apply maintains_deref; discriminate|].
  intros [l b] Hsome. simpl in Hsome. apply Hfresh in Hsome.
  destruct (entries_by_id (entries b) id) as [i|];
    [|apply maintains_raise; discriminate].
  eapply maintains_bind; [apply maintains_update_entry; assumption|]. intros _ _.
  destruct (negb use_original_names); [|apply maintains_ret; exact Logic.I].
  eapply maintains_bind;
    [apply (maintains_get_self _ _ Any); auto|]. intros me _.
  eapply maintains_bind; [apply maintains_subscript; discriminate|]. intros orig _.
  apply maintains_update_entry. assumption.
Qed.

Lemma fresh_for_if (b : bool) o1 o2 :
  fresh_for s0 o1 -> fresh_for s0 o2 -> fresh_for s0 (if b then o1 else o2).
Proof. destruct b; auto. Qed.

Lemma maintains_remove_merged_patch new_item new_menu patch_fmg_name :
  fresh_for s0 new_item -> fresh_for s0 new_menu ->
  maintains Inv NoVE Any (remove_merged_patch new_item new_menu patch_fmg_name).
Proof.
  intros Hi Hm. unfold remove_merged_patch.
  eapply maintains_bind;
    [apply (maintains_get_self _ _ Any); auto|]. intros me _.
  destruct (_is_menu me !! patch_fmg_name) as [is_menu|];
    [|apply maintains_ret; exact Logic.I].
  eapply maintains_bind; [apply maintains_subscript; discriminate|]. intros id _.
  eapply maintains_bind; [apply maintains_deref; discriminate|].
  intros [l b] Hsome. simpl in Hsome.
  apply (fresh_for_if is_menu _ _ Hm Hi) in Hsome.
  destruct (entries_by_id (entries b) id);
    [|apply maintains_ret; exact Logic.I].
  apply maintains_remove_entry. assumption.
Qed.

Lemma maintains_save_category new_item new_menu limit
    separate_patch use_original_names pipe_to_newline fmg_name fmg_entries :
  fresh_for s0 new_item -> fresh_for s0 new_menu ->
  maintains Inv NoVE Any
    (save_category new_item new_menu limit separate_patch use_original_names
       pipe_to_newline fmg_name fmg_entries).
Proof.
  intros Hi Hm. unfold save_category.
  eapply maintains_bind;
    [apply (maintains_get_self _ _ Any); auto|]. intros me _.
  destruct (if separate_patch || bool_decide (fmg_name ∈ _CANNOT_MERGE_PATCH)
            then separate_patch_indices (_is_patch me) fmg_name fmg_entries
            else (fmg_entries, ∅)) as [main patch].
  eapply maintains_bind.
  - instantiate (1 := Any).
    destruct (decide (patch = ∅)); [apply maintains_ret; exact Logic.I|].
    eapply maintains_bind; [apply maintains_subscript; discriminate|].
    intros is_menu _. apply maintains_update_msgbnd_entry.
    apply fresh_for_if; assumption.
  - intros _ _.
    eapply maintains_bind; [apply maintains_subscript; discriminate|].
    intros is_menu _. apply maintains_update_msgbnd_entry.
    apply fresh_for_if; assumption.
Qed.

Lemma maintains_BND_write o msg_directory :
  maintains Inv NoVE Any (BND_write o msg_directory).
Proof.
  unfold BND_write.
  eapply maintains_bind; [apply maintains_deref; discriminate|].
  intros [l b] _. destruct msg_directory as [dir|];
    [|apply maintains_raise; discriminate].
  intros s s' r Hs. destruct (decide (_ ∈ locked s)); intros [= <- <-].
  - split; [assumption|discriminate].
  - split; [exact Hs|exact Logic.I].
Qed.

(** Packing and writing leave the directory object and every archive
    object that existed before untouched, raise no [ValueError], and
    return references to objects allocated in the meantime. *)
Lemma maintains_save_pack_and_write msg_directory limit
    separate_patch use_original_names pipe_to_newline :
  maintains Inv NoVE (fun p => fresh_for s0 p.1 /\ fresh_for s0 p.2)
    (save_pack_and_write msg_directory limit separate_patch
       use_original_names pipe_to_newline).
Proof.
  unfold save_pack_and_write.
  eapply maintains_bind;
    [apply (maintains_get_self _ _ Any); auto|]. intros me _.
  eapply maintains_bind; [apply maintains_deepcopy|]. intros new_item Hi.
  eapply maintains_bind; [apply maintains_deepcopy|]. intros new_menu Hm.
  eapply maintains_bind.
  { instantiate (1 := Any). destruct (negb separate_patch).
    - apply maintains_for_each. intros x _.
      apply maintains_remove_merged_patch; assumption.
    - apply maintains_ret. exact Logic.I. }
  intros _ _. eapply maintains_bind.
  { apply maintains_for_each. intros [fmg_name fmg_entries] _.
    apply maintains_save_category; assumption. }
  intros _ _.
  eapply maintains_bind; [apply maintains_BND_write|]. intros _ _.
  eapply maintains_bind; [apply maintains_BND_write|]. intros _ _.
  apply maintains_ret. split; assumption.
Qed.
End save_frame.

Lemma BND_write_ok o msg_directory s s' :
  BND_write o msg_directory s = (s', Ok tt) ->
  exists l b dir,
    o = Some l /\ msg_directory = Some dir /\ heap s !! l = Some b
    /\ (joinpath dir (path_name b) ∉ locked s)
    /\ s' = mkState (self s) (heap s)
              (<[joinpath dir (path_name b) := b]> (disk s)) (locked s).
Proof.
  unfold BND_write. intros Hrun.
  apply bind_inv in Hrun as [(e & _ & [=])|(s1 & [l b] & Hd & Hrest)].
  unfold deref in Hd. destruct o as [l'|]; [|discriminate].
  destruct (heap s !! l') as [b'|] eqn:Hl; [|discriminate].
  inversion Hd; subst. destruct msg_directory as [dir|]; [|discriminate].
  destruct (decide (_ ∈ locked s1)) as [|Hn]; [discriminate|].
  inversion Hrest; subst. exists l, b, dir. auto.
Qed.

(** When [save] returns, both copies have been written. *)
Lemma save_pack_and_write_ok msg_directory limit separate_patch
    use_original_names pipe_to_newline s s' new_item new_menu :
  save_pack_and_write msg_directory limit separate_patch use_original_names
    pipe_to_newline s = (s', Ok (new_item, new_menu)) ->
  exists li lm bi bm dir,
    new_item = Some li /\ new_menu = Some lm
    /\ heap s' !! li = Some bi /\ heap s' !! lm = Some bm
    /\ disk s' !! joinpath dir (path_name bm) = Some bm
    /\ (joinpath dir (path_name bi) <> joinpath dir (path_name bm) ->
        disk s' !! joinpath dir (path_name bi) = Some bi).
Proof.
  unfold save_pack_and_write. intros Hrun.
  apply bind_inv in Hrun as [(e & _ & [=])|(s1 & me & _ & Hrun)].
  apply bind_inv in Hrun as [(e & _ & [=])|(s2 & ni & _ & Hrun)].
  apply bind_inv in Hrun as [(e & _ & [=])|(s3 & nm & _ & Hrun)].
  apply bind_inv in Hrun as [(e & _ & [=])|(s4 & [] & _ & Hrun)].
  apply bind_inv in Hrun as [(e & _ & [=])|(s5 & [] & _ & Hrun)].
  apply bind_inv in Hrun as [(e & _ & [=])|(s6 & [] & Hw1 & Hrun)].
  apply bind_inv in Hrun as [(e & _ & [=])|(s7 & [] & Hw2 & Hrun)].
  inversion Hrun; subst.
  apply BND_write_ok in Hw1 as (li & bi & dir & -> & Hdir & Hli & _ & ->).
  apply BND_write_ok in Hw2 as (lm & bm & dir' & -> & Hdir' & Hlm & _ & ->).
  rewrite Hdir in Hdir'. injection Hdir' as <-.
  simpl in *. exists li, lm, bi, bm, dir.
  repeat split; try assumption.
  - apply lookup_insert_eq.
  - intros Hne. rewrite lookup_insert_ne by congruence. apply lookup_insert_eq.
Qed.

(** Claim C8: [save] packs on copies: whatever its outcome, every archive
    object that existed before the call is unchanged.  If it raises, while
    packing or while writing, the directory object is unchanged too, so it
    still holds its old archives.  If it returns, the directory holds two
    archive objects allocated during the call, and both have been written
    to the destination. *)
Theorem C8_save_replaces_archives_only_after_write
    s s' (r : result unit) (msg_directory : option string)
    (description_word_wrap_limit : option Z)
    (separate_patch use_original_names pipe_to_newline : bool) :
  save msg_directory description_word_wrap_limit separate_patch
    use_original_names pipe_to_newline s = (s', r) ->
  (forall l b, heap s !! l = Some b -> heap s' !! l = Some b)
  /\ match r with
     | inl _ => (self s' = self s)
     | inr _ =>
         exists li lm bi bm dir,
           self s' = with_msgbnds (Some li) (Some lm) (self s)
           /\ (length (heap s) <= li)%nat /\ (length (heap s) <= lm)%nat
           /\ heap s' !! li = Some bi /\ heap s' !! lm = Some bm
           /\ disk s' !! joinpath dir (path_name bm) = Some bm
           /\ (joinpath dir (path_name bi) <> joinpath dir (path_name bm) ->
               disk s' !! joinpath dir (path_name bi) = Some bi)
     end.
Proof.
  unfold save. intros Hrun.
  apply bind_inv in Hrun as [(e & Hspw & ->)|(s1 & [ni nm] & Hspw & Hset)].
  - destruct (maintains_save_pack_and_write s _ _ _ _ _ _ _ _
                (untouched_refl s) Hspw) as [(Hself & Hlen & Hold) _].
    split; [|assumption].
    intros l b Hl. rewrite Hold; [assumption|]. eapply lookup_lt_Some; eauto.
  - destruct (maintains_save_pack_and_write s _ _ _ _ _ _ _ _
                (untouched_refl s) Hspw) as [(Hself & Hlen & Hold) [Hfi Hfm]].
    inversion Hset; subst. simpl. split.
    + intros l b Hl. rewrite Hold; [assumption|]. eapply lookup_lt_Some; eauto.
    + apply save_pack_and_write_ok in Hspw
        as (li & lm & bi & bm & dir & -> & -> & Hli & Hlm & Hdm & Hdi).
      exists li, lm, bi, bm, dir. rewrite Hself.
      repeat split; auto.
Qed.

(** [save] makes no check of its own on the DCX signatures: it raises no
    [ValueError] at all. *)
Lemma save_raises_no_ValueError s s' e msg_directory limit
    separate_patch use_original_names pipe_to_newline :
  save msg_directory limit separate_patch use_original_names pipe_to_newline s
  = (s', Raise e) ->
  class_of e <> CValueError.
Proof.
  unfold save. intros Hrun.
  apply bind_inv in Hrun as [(e' & Hspw & [= <-])|(s1 & [ni nm] & _ & [=])].
  apply (maintains_save_pack_and_write s _ _ _ _ _ _ _ _ (untouched_refl s) Hspw).
Qed.

(** Claim C4, as amended: The DCX signatures of the two archives are compared
    when the directory is opened: if exactly one of the two archives found
    in the folder is DCX-compressed, the constructor raises the
    [ValueError] that names the inconsistency and returns no object; if
    the two agree it never raises that error.  [save] makes no such check
    (it raises no [ValueError]). *)
Theorem C4_dcx_mismatch_rejected_on_open s (dir : string) (item menu : BND Data) :
  found_msgbnd s dir "item.msgbnd" = Some item ->
  found_msgbnd s dir "menu.msgbnd" = Some menu ->
  (dcx_magic item = true -> dcx_magic menu = false ->
     MSGDirectory_new (Some dir) s = Raise (ValueError DcxItemOnly))
  /\ (dcx_magic item = false -> dcx_magic menu = true ->
        MSGDirectory_new (Some dir) s = Raise (ValueError DcxMenuOnly))
  /\ (dcx_magic item = dcx_magic menu ->
        MSGDirectory_new (Some dir) s <> Raise (ValueError DcxItemOnly)
        /\ MSGDirectory_new (Some dir) s <> Raise (ValueError DcxMenuOnly))
  /\ (forall s1 s' e msg_directory limit separate_patch use_original_names
             pipe_to_newline,
        save msg_directory limit separate_patch use_original_names
          pipe_to_newline s1 = (s', Raise e) ->
        class_of e <> CValueError).
Proof.
  intros Hitem Hmenu.
  pose proof (MSGDirectory_init_found s dir item menu Hitem Hmenu) as Hinit.
  unfold MSGDirectory_new. rewrite Hinit.
  split; [|split; [|split]].
  - intros -> ->. reflexivity.
  - intros -> ->. reflexivity.
  - intros ->. rewrite andb_negb_r, andb_negb_l.
    destruct (for_each _ _ _) as [s' [e|[]]] eqn:Hrun; [|split; discriminate].
    apply load_tagged_raise in Hrun
      as [(p & _ & _ & ->)|(p & _ & _ & _ & ->)]; split; discriminate.
  - intros s1 s' e msg_directory limit sp uon ptn Hrun.
    eapply save_raises_no_ValueError. exact Hrun.
Qed.

End TextFacts.

(* ================================================================== *)
(** * Concrete runs *)
(* ================================================================== *)

Section Runs.
Import Text Fixtures.
Local Open Scope Z_scope.
Local Open Scope string_scope.

(** Claim C1: Run of the code on the input of the claim.  A mergeable category
    with base entry {1: "a"} and Patch entry {2: "b"} is opened: the merged
    view is {1: "a", 2: "b"} and (WeaponNames, 2) is recorded as a Patch
    index.  It is then saved with [separate_patch=True]: the Patch resource
    written is {2: "b"}, but the base resource written is
    {1: "a", 2: "b"}, not {1: "a"}. *)
Theorem C1_split_save_writes_patch_entry_into_base :
  MSGDirectory_new (Some "msg") weapon_dir = Ok weapon_set
  /\ getitem "WeaponNames" weapon_set
     = (weapon_set, Ok {[ 1 := "a"; 2 := "b" ]})
  /\ _is_patch (self weapon_set) = {[ ("WeaponNames", 2) ]}
  /\ snd (save None None true true true weapon_set) = Ok tt
  /\ disk (fst (save None None true true true weapon_set)) !! "msg/item.msgbnd"
     = Some (mkBND false "item.msgbnd"
               [ entry 11 "WeaponNames.fmg" {[ 1 := "a"; 2 := "b" ]};
                 entry 114 "WeaponNamesPatch.fmg" {[ 2 := "b" ]} ])
  /\ ({[ 1 := "a"; 2 := "b" ]} : gmap Z string) <> {[ 1 := "a" ]}.
Proof.
  repeat (split; [vm_compute; reflexivity|]).
  intros H. apply (f_equal (fun m : gmap Z string => m !! 2)) in H.
  vm_compute in H. discriminate.
Qed.

(** Claim C3: Run of the code on a never-merge category with base entry
    {1: "a"} and Patch entry {2: "b"}, saved with [separate_patch=False]:
    the archive written still has the two resources and the Patch resource
    is {2: "b"}, but the base resource is {1: "a", 2: "b"}: the entry of
    Patch provenance is in both. *)
Theorem C3_never_merge_base_keeps_patch_entry :
  MSGDirectory_new (Some "msg") event_dir = Ok event_set
  /\ bool_decide ("EventText" ∈ _CANNOT_MERGE_PATCH) = true
  /\ _is_patch (self event_set) = {[ ("EventText", 2) ]}
  /\ snd (save None None false true true event_set) = Ok tt
  /\ disk (fst (save None None false true true event_set)) !! "msg/menu.msgbnd"
     = Some (mkBND false "menu.msgbnd"
               [ entry 2 "EventText.fmg" {[ 1 := "a"; 2 := "b" ]};
                 entry 101 "EventTextPatch.fmg" {[ 2 := "b" ]} ])
  /\ ({[ 1 := "a"; 2 := "b" ]} : gmap Z string) <> {[ 1 := "a" ]}.
Proof.
  repeat (split; [vm_compute; reflexivity|]).
  intros H. apply (f_equal (fun m : gmap Z string => m !! 2)) in H.
  vm_compute in H. discriminate.
Qed.


(** C4, as stated, fails on a directory object holding a DCX item archive
    and a non-DCX menu archive: [save] writes both and returns. *)
Lemma C4_counterexample :
  item_msgbnd (self mixed_set) = Some 0%nat
  /\ menu_msgbnd (self mixed_set) = Some 1%nat
  /\ dcx_magic <$> heap mixed_set !! 0%nat = Some true
  /\ dcx_magic <$> heap mixed_set !! 1%nat = Some false
  /\ snd (save None None false true true mixed_set) = Ok tt
  /\ (dcx_magic <$> disk (fst (save None None false true true mixed_set))
                     !! "msg/item.msgbnd.dcx") = Some true
  /\ (dcx_magic <$> disk (fst (save None None false true true mixed_set))
                     !! "msg/menu.msgbnd") = Some false.
Proof. repeat split; vm_compute; reflexivity. Qed.

(** C4 (as amended) at a folder with a DCX item archive and a non-DCX menu
    archive. *)
Lemma C4_witness :
  MSGDirectory_new (Some "msg") mixed_dir = Raise (ValueError DcxItemOnly).
Proof.
  destruct (C4_dcx_mismatch_rejected_on_open mixed_dir "msg"
              dcx_item (no_entries "menu.msgbnd")) as (H & _);
    [vm_compute; reflexivity|vm_compute; reflexivity|].
  apply H; reflexivity.
Defined.

(** C5 at a folder whose item archive has an entry with ID 999. *)
Lemma C5_witness :
  exists entry,
    entry ∈ (entries stray_item ++ entries (no_entries "menu.msgbnd"))%list
    /\ ~ mapped entry
    /\ MSGDirectory_new (Some "msg") stray_dir
       = Raise (ValueError (UnexpectedIndex (entry_path entry) (entry_id entry))).
Proof.
  destruct (C5_unmapped_entry_aborts_open stray_dir "msg"
              stray_item (no_entries "menu.msgbnd")) as (_ & _ & H & _);
    [vm_compute; reflexivity|vm_compute; reflexivity|].
  apply H.
  - reflexivity.
  - intros e _ _. eexists. reflexivity.
  - exists (entry 999 "Stray.fmg" {[ 1 := "x" ]}). split.
    + simpl. right. left.
    + intros [name Hname]. vm_compute in Hname. discriminate.
Defined.

(** C6, as stated, fails: deleting the text of good 1 also blanks its
    summary, a pair other than (GoodNames, 1). *)
Lemma C6_counterexample :
  snd (delete_item_text 1 "good" goods) = Ok tt
  /\ text_of (self (fst (delete_item_text 1 "good" goods))) "GoodNames" 1
     = Some ""
  /\ text_of (self goods) "GoodSummaries" 1 = Some "Restores HP"
  /\ text_of (self (fst (delete_item_text 1 "good" goods))) "GoodSummaries" 1
     = Some ""
  /\ ~ (forall c i, (c, i) <> ("GoodNames", 1) ->
          text_of (self (fst (delete_item_text 1 "good" goods))) c i
          = text_of (self goods) c i).
Proof.
  repeat (split; [vm_compute; reflexivity|]).
  intros H. specialize (H "GoodSummaries" 1).
  vm_compute in H. discriminate H. intros [=].
Qed.

(** C6 (as amended) at good 1. *)
Lemma C6_witness :
  exists s',
    delete_item_text 1 "good" goods = (s', Ok tt)
    /\ getitem_index "GoodDescriptions" 1 s' = (s', Ok "")
    /\ text_of (self s') "GoodNames" 2 = text_of (self goods) "GoodNames" 2.
Proof.
  destruct (C6_delete_item_text_blanks_name_summary_description
              goods 1 "good" "Good" {[ 1 := "Estus Flask" ]}
              {[ 1 := "Restores HP" ]} {[ 1 := "An emerald flask." ]})
    as (s' & Hrun & Hblank & _ & _ & Hother);
    [vm_compute; reflexivity|vm_compute; reflexivity|
     eexists; vm_compute; reflexivity|vm_compute; reflexivity|
     vm_compute; reflexivity|].
  exists s'. split; [exact Hrun|]. split.
  - apply (Hblank "Descriptions"). set_solver.
  - apply Hother. intros [Hi _]. discriminate Hi.
Defined.

(** C8 where the item archive cannot be written: [save] raises and the
    directory object is as before. *)
Lemma C8_witness :
  snd (save None None true true true (locked_item weapon_set))
  = Raise (OSError "msg/item.msgbnd")
  /\ self (fst (save None None true true true (locked_item weapon_set)))
     = self (locked_item weapon_set).
Proof.
  split; [vm_compute; reflexivity|].
  destruct (C8_save_replaces_archives_only_after_write
              (locked_item weapon_set)
              (fst (save None None true true true (locked_item weapon_set)))
              (Raise (OSError "msg/item.msgbnd"))
              None None true true true) as [_ H];
    [vm_compute; reflexivity|exact H].
Defined.

(** C9 at a name that is not loaded and at one that is. *)
Lemma C9_witness :
  getitem "WeaponNamesPatch" weapon_set
  = (weapon_set, Raise (AttributeError (NoCategory "WeaponNamesPatch")))
  /\ exists d, getitem "WeaponNames" weapon_set = (weapon_set, Ok d).
Proof.
  split.
  - apply (C9_getitem_raises_AttributeError weapon_set "WeaponNamesPatch").
    apply oget_None. vm_compute. reflexivity.
  - destruct (C9_getitem_raises_AttributeError weapon_set "WeaponNames")
      as (_ & H & _).
    destruct H as (d & _ & Hd); [|eauto].
    apply oget_Some_key. eexists. vm_compute. reflexivity.
Defined.
End Runs.

Section ParamRuns.
Import Params Fixtures.
Local Open Scope string_scope.

(** C7 at a DCX-compressed DrawParam archive. *)
Lemma C7_witness :
  dialect draw_params = "dsr"
  /\ forall blk,
       DrawParamBlock_init (fun game => game) decode_with entry_path draw_params
       = Ok blk ->
       dp_paramdef_bnd blk = "dsr".
Proof.
  destruct (C7_dialect_from_dcx_used_for_every_table
              (fun game : string => game) decode_with decode_with ∅
              entry_path draw_params) as ((Hdsr & _) & _ & Hblk).
  split; [apply Hdsr; reflexivity|].
  intros blk Hinit. destruct (Hblk blk Hinit) as (Hpd & _). exact Hpd.
Defined.

(** C10 at an archive whose second entry names slot 2. *)
Lemma C10_witness :
  exists v,
    DrawParamBlock_init (fun game => game) decode_with entry_path draw_params_slot2
    = Raise (ValueError v).
Proof.
  destruct (C10_bad_slot_raises_ValueError
              (fun game : string => game) decode_with entry_path draw_params_slot2)
    as (_ & H & _).
  eapply (H [param_entry "m10_FogBank.param"]
            (param_entry "m10_2_FogBank.param") []).
  - reflexivity.
  - vm_compute. reflexivity.
  - left. split; [reflexivity|]. vm_compute. discriminate.
Defined.
End ParamRuns.

(* ================================================================== *)
(** * Further properties of the text directory *)
(* ================================================================== *)

Section ItemTextFacts.
Import Text.
Context {Data : Type} `{Fmt : MSGFormat Data}.
Implicit Types (s : State Data) (me : MSGDirectory).

Lemma lower_ascii_idem (c : ascii) : lower_ascii (lower_ascii c) = lower_ascii c.
Proof. destruct c as [[] [] [] [] [] [] [] []]; reflexivity. Qed.

Lemma lower_idem (t : string) : lower (lower t) = lower t.
Proof.
  induction t as [|c t IH]; simpl; [reflexivity|].
  rewrite lower_ascii_idem, IH. reflexivity.
Qed.

(** Property X1: [resolve_item_type] returns one of the four prefixes Good, Ring,
    Weapon, Armor or raises [ValueError]; the prefix depends on the
    lower-cased item type only. *)
Theorem resolve_item_type_four_prefixes_any_case (item_type : string) :
  (forall p, resolve_item_type item_type = Ok p ->
     p ∈ ["Good"; "Ring"; "Weapon"; "Armor"]%string)
  /\ (forall e, resolve_item_type item_type = Raise e -> class_of e = CValueError)
  /\ (forall p, resolve_item_type (lower item_type) = Ok p
        <-> resolve_item_type item_type = Ok p).
Proof.
  unfold resolve_item_type. rewrite lower_idem.
  assert (Hok : forall p0 : string,
            p0 ∈ ["Good"; "Ring"; "Weapon"; "Armor"]%string ->
            (forall p, Ok p0 = Ok p -> p ∈ ["Good"; "Ring"; "Weapon"; "Armor"]%string)
            /\ (forall e, @Ok string p0 = Raise e -> class_of e = CValueError)
            /\ (forall p, @Ok string p0 = Ok p <-> @Ok string p0 = Ok p)).
  { intros p0 Hp0. split; [|split].
    - intros p [= <-]. exact Hp0.
    - intros e H. discriminate H.
    - intros p. reflexivity. }
  assert (Hraise : forall v,
            (forall p, @Raise string (ValueError v) = Ok p ->
               p ∈ ["Good"; "Ring"; "Weapon"; "Armor"]%string)
            /\ (forall e, @Raise string (ValueError v) = Raise e ->
                  class_of e = CValueError)
            /\ (forall p, @Raise string (ValueError v) = Ok p
                  <-> @Raise string (ValueError v) = Ok p)).
  { intros v. split; [|split].
    - intros p H. discriminate H.
    - intros e [= <-]. reflexivity.
    - intros p. reflexivity. }
  destruct (bool_decide _); [apply Hok; repeat constructor|].
  destruct (bool_decide _); [apply Hok; repeat constructor|].
  destruct (bool_decide _); [apply Hok; repeat constructor|].
  destruct (bool_decide _); [apply Hok; repeat constructor|].
  destruct (String.eqb _ _); [apply Hraise|].
  destruct (String.eqb _ _); [apply Hraise|].
  split; [|split].
  - intros p H. discriminate H.
  - intros e [= <-]. reflexivity.
  - intros p. split; intros H; discriminate H.
Qed.

Lemma text_of_Some me c i t :
  text_of me c i = Some t <->
  exists d, oget c (categories me) = Some d /\ d !! i = Some t.
Proof.
  unfold text_of. destruct (oget c (categories me)) as [d|].
  - split; [eauto|]. intros (d' & [= <-] & H). exact H.
  - split; [discriminate|]. intros (d' & [=] & _).
Qed.

(** Lines 131-133 and 140-142: the three assignments made for one item. *)
Lemma set_name_summary_description s (prefix : string) (index : Z)
    (name summary description : string) (names summaries descriptions : gmap Z string) :
  oget (prefix +:+ "Names") (categories (self s)) = Some names ->
  oget (prefix +:+ "Summaries") (categories (self s)) = Some summaries ->
  oget (prefix +:+ "Descriptions") (categories (self s)) = Some descriptions ->
  exists s',
    bind (set_text (prefix +:+ "Names") index name) (fun _ =>
      bind (set_text (prefix +:+ "Summaries") index summary) (fun _ =>
        set_text (prefix +:+ "Descriptions") index description)) s = (s', Ok tt)
    /\ heap s' = heap s /\ disk s' = disk s /\ locked s' = locked s
    /\ okeys (categories (self s')) = okeys (categories (self s))
    /\ _is_patch (self s') = _is_patch (self s)
    /\ forall c i,
         text_of (self s') c i
         = if decide (i = index) then
             if decide (c = prefix +:+ "Names") then Some name
             else if decide (c = prefix +:+ "Summaries") then Some summary
             else if decide (c = prefix +:+ "Descriptions") then Some description
             else text_of (self s) c i
           else text_of (self s) c i.
Proof.
  intros Hn Hs Hd.
  assert (Hns : prefix +:+ "Names" <> prefix +:+ "Summaries")
    by (intros H; apply string_app_inj_r in H; discriminate).
  assert (Hnd : prefix +:+ "Names" <> prefix +:+ "Descriptions")
    by (intros H; apply string_app_inj_r in H; discriminate).
  assert (Hsd : prefix +:+ "Summaries" <> prefix +:+ "Descriptions")
    by (intros H; apply string_app_inj_r in H; discriminate).
  eexists. split.
  { rewrite (bind_ok _ _ _ _ _ (set_text_loaded _ _ _ _ _ Hn)).
    erewrite bind_ok; cycle 1.
    { apply set_text_loaded. simpl. rewrite oget_oset_ne by assumption. exact Hs. }
    apply set_text_loaded. simpl. rewrite !oget_oset_ne by assumption. exact Hd. }
  cbn [heap disk locked self]. repeat (split; [reflexivity|]).
  split; [|split; [reflexivity|]].
  - simpl. rewrite !okeys_oset.
    destruct (decide (prefix +:+ "Names" ∈ okeys (categories (self s))))
      as [_|H]; [|exfalso; apply H; apply oget_Some_key; eauto].
    destruct (decide (prefix +:+ "Summaries" ∈ okeys (categories (self s))))
      as [_|H]; [|exfalso; apply H; apply oget_Some_key; eauto].
    destruct (decide (prefix +:+ "Descriptions" ∈ okeys (categories (self s))))
      as [_|H]; [|exfalso; apply H; apply oget_Some_key; eauto].
    reflexivity.
  - intros c i. rewrite !text_of_set.
    assert (Hold : forall kind d, oget (prefix +:+ kind) (categories (self s)) = Some d ->
              text_of (self s) (prefix +:+ kind) i = d !! i).
    { intros kind d Hk. unfold text_of. rewrite Hk. reflexivity. }
    destruct (decide (i = index)) as [->|Hi].
    + rewrite !(decide_True (P := index = index)) by reflexivity.
      repeat case_decide; subst; try congruence.
    + rewrite !(decide_False (P := index = i)) by congruence.
      repeat case_decide; subst; try reflexivity; symmetry; eauto.
Qed.

Lemma subscript_Some {K V} `{Countable K} (d : gmap K V) k shown v s :
  d !! k = Some v -> subscript d k shown s = (s, Ok v).
Proof. unfold subscript. intros ->. reflexivity. Qed.

Lemma subscript_None {K V} `{Countable K} (d : gmap K V) k shown s :
  d !! k = None -> subscript d k shown s = (s, Raise (KeyError shown)).
Proof. unfold subscript. intros ->. reflexivity. Qed.

Lemma category_missing s name :
  oget name (categories (self s)) = None ->
  category name s = (s, Raise (KeyError (KStr name))).
Proof. unfold category, bind, get_self. simpl. intros ->. reflexivity. Qed.

Lemma set_text_missing s name index text :
  oget name (categories (self s)) = None ->
  set_text name index text s = (s, Raise (KeyError (KStr name))).
Proof.
  intros H. unfold set_text. apply bind_raise. apply category_missing. exact H.
Qed.

Lemma get_all_item_text_present s item_type prefix index name summary description :
  resolve_item_type item_type = Ok prefix ->
  text_of (self s) (prefix +:+ "Names") index = Some name ->
  text_of (self s) (prefix +:+ "Summaries") index = Some summary ->
  text_of (self s) (prefix +:+ "Descriptions") index = Some description ->
  get_all_item_text index item_type s
  = (s, Ok (Some (mkItemText name summary description))).
Proof.
  intros Hres Hn Hs Hd.
  apply text_of_Some in Hn as (dn & Hdn & Hin).
  apply text_of_Some in Hs as (ds & Hds & His).
  apply text_of_Some in Hd as (dd & Hdd & Hid).
  unfold get_all_item_text. rewrite Hres, bind_lift_ok.
  rewrite (bind_ok _ _ _ _ _ (category_loaded _ _ _ Hdn)). rewrite Hin.
  rewrite (bind_ok _ _ _ _ _ (category_loaded _ _ _ Hdn)).
  rewrite (bind_ok _ _ _ _ _ (subscript_Some _ _ _ _ _ Hin)).
  rewrite (bind_ok _ _ _ _ _ (category_loaded _ _ _ Hds)).
  rewrite (bind_ok _ _ _ _ _ (subscript_Some _ _ _ _ _ His)).
  rewrite (bind_ok _ _ _ _ _ (category_loaded _ _ _ Hdd)).
  rewrite (bind_ok _ _ _ _ _ (subscript_Some _ _ _ _ _ Hid)).
  reflexivity.
Qed.

(** Property X2: a new item can be read back.  For an item type that resolves to
    the prefix [P], with the three categories of [P] loaded and [index]
    not in [P + "Names"], [add_item_text] returns; afterwards
    [get_all_item_text] returns exactly the name, summary and description
    given, and the text of every (category, index) pair other than the
    three written is what it was. *)
Theorem add_item_text_then_get_all_item_text
    s (index : Z) (item_type prefix name summary description : string)
    (names summaries descriptions : gmap Z string) :
  resolve_item_type item_type = Ok prefix ->
  oget (prefix +:+ "Names") (categories (self s)) = Some names ->
  names !! index = None ->
  oget (prefix +:+ "Summaries") (categories (self s)) = Some summaries ->
  oget (prefix +:+ "Descriptions") (categories (self s)) = Some descriptions ->
  exists s',
    add_item_text index item_type name summary description s = (s', Ok tt)
    /\ get_all_item_text index item_type s'
       = (s', Ok (Some (mkItemText name summary description)))
    /\ okeys (categories (self s')) = okeys (categories (self s))
    /\ (forall c i,
          ~ (i = index /\ exists kind,
               kind ∈ ["Names"; "Summaries"; "Descriptions"]%string
               /\ c = prefix +:+ kind) ->
          text_of (self s') c i = text_of (self s) c i).
Proof.
  intros Hres Hn Hnone Hs Hd.
  destruct (set_name_summary_description s prefix index name summary description
              _ _ _ Hn Hs Hd) as (s' & Hrun & _ & _ & _ & Hkeys & _ & Htext).
  assert (Hns : prefix +:+ "Names" <> prefix +:+ "Summaries")
    by (intros H; apply string_app_inj_r in H; discriminate).
  assert (Hnd : prefix +:+ "Descriptions" <> prefix +:+ "Names")
    by (intros H; apply string_app_inj_r in H; discriminate).
  assert (Hsd : prefix +:+ "Descriptions" <> prefix +:+ "Summaries")
    by (intros H; apply string_app_inj_r in H; discriminate).
  exists s'. split; [|split; [|split]].
  - unfold add_item_text. rewrite Hres, bind_lift_ok.
    rewrite (bind_ok _ _ _ _ _ (category_loaded _ _ _ Hn)). rewrite Hnone.
    exact Hrun.
  - apply get_all_item_text_present with (prefix := prefix); [assumption|..];
      rewrite Htext; rewrite decide_True by reflexivity;
      repeat case_decide; congruence.
  - exact Hkeys.
  - intros c i Hnot. rewrite Htext.
    destruct (decide (i = index)) as [Hi|_]; [|reflexivity].
    repeat case_decide; try reflexivity;
      exfalso; apply Hnot; (split; [assumption|]);
      [exists "Names"%string|exists "Summaries"%string|exists "Descriptions"%string];
      (split; [repeat constructor|assumption]).
Qed.

(** Property X3: [add_item_text] refuses an index that [P + "Names"] already has,
    without changing anything; [delete_item_text] does not free an index:
    after it, [get_all_item_text] returns three empty strings (not [None])
    and [add_item_text] on the same index raises that [ValueError]. *)
Theorem add_item_text_refuses_existing_index
    s (index : Z) (item_type prefix : string)
    (names summaries descriptions : gmap Z string) :
  resolve_item_type item_type = Ok prefix ->
  oget (prefix +:+ "Names") (categories (self s)) = Some names ->
  is_Some (names !! index) ->
  (forall name summary description,
     add_item_text index item_type name summary description s
     = (s, Raise (ValueError (ItemExists index))))
  /\ (oget (prefix +:+ "Summaries") (categories (self s)) = Some summaries ->
      oget (prefix +:+ "Descriptions") (categories (self s)) = Some descriptions ->
      exists s',
        delete_item_text index item_type s = (s', Ok tt)
        /\ get_all_item_text index item_type s'
           = (s', Ok (Some (mkItemText "" "" "")))
        /\ forall name summary description,
             add_item_text index item_type name summary description s'
             = (s', Raise (ValueError (ItemExists index)))).
Proof.
  intros Hres Hn [t Ht].
  assert (Hadd : forall s0 names0 t0,
            oget (prefix +:+ "Names") (categories (self s0)) = Some names0 ->
            names0 !! index = Some t0 ->
            forall name summary description,
              add_item_text index item_type name summary description s0
              = (s0, Raise (ValueError (ItemExists index)))).
  { intros s0 names0 t0 Hn0 Ht0 name summary description.
    unfold add_item_text. rewrite Hres, bind_lift_ok.
    rewrite (bind_ok _ _ _ _ _ (category_loaded _ _ _ Hn0)). rewrite Ht0.
    reflexivity. }
  split; [eapply Hadd; eauto|].
  intros Hs Hd.
  destruct (set_name_summary_description s prefix index "" "" ""
              _ _ _ Hn Hs Hd) as (s' & Hrun & _ & _ & _ & _ & _ & Htext).
  assert (Hnd : prefix +:+ "Descriptions" <> prefix +:+ "Names")
    by (intros H; apply string_app_inj_r in H; discriminate).
  assert (Hsd : prefix +:+ "Descriptions" <> prefix +:+ "Summaries")
    by (intros H; apply string_app_inj_r in H; discriminate).
  assert (Hns : prefix +:+ "Summaries" <> prefix +:+ "Names")
    by (intros H; apply string_app_inj_r in H; discriminate).
  exists s'. split; [|split].
  - unfold delete_item_text. rewrite Hres, bind_lift_ok.
    rewrite (bind_ok _ _ _ _ _ (category_loaded _ _ _ Hn)). rewrite Ht.
    exact Hrun.
  - apply get_all_item_text_present with (prefix := prefix); [assumption|..];
      rewrite Htext; rewrite decide_True by reflexivity;
      repeat case_decide; congruence.
  - assert (Hname : text_of (self s') (prefix +:+ "Names") index = Some EmptyString).
    { rewrite Htext. rewrite !decide_True by reflexivity. reflexivity. }
    apply text_of_Some in Hname as (d & Hd' & Hi).
    eapply Hadd; eauto.
Qed.

(** Property X4: how [delete_item_text] fails.  An index that [P + "Names"] does
    not have gives [ValueError] and no change.  When [P + "Names"] has the
    index but the category [P + "Summaries"] is not loaded, the call
    raises [KeyError] for that category after the name has been blanked:
    the deletion is not undone. *)
Theorem delete_item_text_failures
    s (index : Z) (item_fmg prefix : string) (names : gmap Z string) :
  resolve_item_type item_fmg = Ok prefix ->
  oget (prefix +:+ "Names") (categories (self s)) = Some names ->
  (names !! index = None ->
     delete_item_text index item_fmg s
     = (s, Raise (ValueError (NoItemToDelete index))))
  /\ (is_Some (names !! index) ->
      oget (prefix +:+ "Summaries") (categories (self s)) = None ->
      exists s',
        delete_item_text index item_fmg s
        = (s', Raise (KeyError (KStr (prefix +:+ "Summaries"))))
        /\ text_of (self s') (prefix +:+ "Names") index = Some EmptyString
        /\ forall c i, ~ (c = prefix +:+ "Names" /\ i = index) ->
             text_of (self s') c i = text_of (self s) c i).
Proof.
  intros Hres Hn. split.
  - intros Hnone. unfold delete_item_text. rewrite Hres, bind_lift_ok.
    rewrite (bind_ok _ _ _ _ _ (category_loaded _ _ _ Hn)). rewrite Hnone.
    reflexivity.
  - intros [t Ht] Hs.
    assert (Hns : prefix +:+ "Names" <> prefix +:+ "Summaries")
      by (intros H; apply string_app_inj_r in H; discriminate).
    eexists. split; [|split].
    + unfold delete_item_text. rewrite Hres, bind_lift_ok.
      rewrite (bind_ok _ _ _ _ _ (category_loaded _ _ _ Hn)). rewrite Ht.
      rewrite (bind_ok _ _ _ _ _ (set_text_loaded _ _ _ _ _ Hn)).
      apply bind_raise. apply set_text_missing. simpl.
      rewrite oget_oset_ne by assumption. exact Hs.
    + cbn [self]. rewrite text_of_set. rewrite !decide_True by reflexivity.
      reflexivity.
    + intros c i Hnot. cbn [self]. rewrite text_of_set.
      destruct (decide (prefix +:+ "Names" = c)) as [Hc|_]; [|reflexivity].
      destruct (decide (index = i)) as [Hi|_]; [exfalso; auto|].
      unfold text_of. rewrite <- Hc, Hn. reflexivity.
Qed.

End ItemTextFacts.

Section ChangeItemTextFacts.
Import Text.
Context {Data : Type} `{Fmt : MSGFormat Data}.
Implicit Types (s : State Data) (me : MSGDirectory).

Lemma setitem_text_loaded s cat i t d :
  oget cat (categories (self s)) = Some d ->
  setitem_text cat i t s
  = (mkState
       (with_categories (oset cat (<[i := t]> d) (categories (self s))) (self s))
       (heap s) (disk s) (locked s), Ok tt).
Proof.
  intros Hd. unfold setitem_text.
  rewrite (bind_ok _ _ _ _ _ (getitem_loaded _ _ _ Hd)). reflexivity.
Qed.

Lemma setitem_text_missing s cat i t :
  oget cat (categories (self s)) = None ->
  setitem_text cat i t s = (s, Raise (AttributeError (NoCategory cat))).
Proof.
  intros Hd. unfold setitem_text. apply bind_raise.
  apply getitem_missing. exact Hd.
Qed.

Lemma change_if_given_run s (given : option string) cat i :
  cat ∈ okeys (categories (self s)) ->
  exists s1,
    change_if_given given cat i s = (s1, Ok tt)
    /\ okeys (categories (self s1)) = okeys (categories (self s))
    /\ forall c j,
         text_of (self s1) c j
         = if decide (c = cat /\ j = i) then
             match given with
             | Some t => Some t
             | None => text_of (self s) c j
             end
           else text_of (self s) c j.
Proof.
  intros Hin. destruct given as [t|]; simpl.
  - pose proof Hin as Hin'. apply oget_Some_key in Hin' as [d Hd].
    eexists. split; [apply setitem_text_loaded; exact Hd|]. cbn [self]. split.
    + simpl. rewrite okeys_oset. rewrite decide_True by assumption. reflexivity.
    + intros c j. rewrite text_of_set.
      destruct (decide (cat = c)) as [<-|Hc].
      * destruct (decide (i = j)) as [<-|Hj].
        -- rewrite decide_True by auto. reflexivity.
        -- rewrite decide_False by (intros [_ ?]; congruence).
           unfold text_of. rewrite Hd. reflexivity.
      * rewrite decide_False by (intros [? _]; congruence). reflexivity.
  - exists s. split; [reflexivity|]. split; [reflexivity|].
    intros c j. destruct (decide _); reflexivity.
Qed.

Lemma change_item_text_at_run s (td : text_dict) (prefix : string) (i : Z) :
  prefix +:+ "Names" ∈ okeys (categories (self s)) ->
  prefix +:+ "Summaries" ∈ okeys (categories (self s)) ->
  prefix +:+ "Descriptions" ∈ okeys (categories (self s)) ->
  exists s1,
    change_item_text_at td prefix EmptyString i s = (s1, Ok tt)
    /\ okeys (categories (self s1)) = okeys (categories (self s))
    /\ forall c j,
         text_of (self s1) c j
         = if decide (j = i) then changed_text td prefix c (text_of (self s) c j)
           else text_of (self s) c j.
Proof.
  intros Hn Hs Hd.
  assert (Hns : prefix +:+ "Names" <> prefix +:+ "Summaries")
    by (intros H; apply string_app_inj_r in H; discriminate).
  assert (Hnd : prefix +:+ "Names" <> prefix +:+ "Descriptions")
    by (intros H; apply string_app_inj_r in H; discriminate).
  assert (Hsd : prefix +:+ "Summaries" <> prefix +:+ "Descriptions")
    by (intros H; apply string_app_inj_r in H; discriminate).
  destruct (change_if_given_run s (td_name td) (prefix +:+ "Names") i Hn)
    as (s1 & Hr1 & Hk1 & Ht1).
  destruct (change_if_given_run s1 (td_summary td) (prefix +:+ "Summaries") i)
    as (s2 & Hr2 & Hk2 & Ht2); [rewrite Hk1; exact Hs|].
  destruct (change_if_given_run s2 (td_description td) (prefix +:+ "Descriptions") i)
    as (s3 & Hr3 & Hk3 & Ht3); [rewrite Hk2, Hk1; exact Hd|].
  exists s3. split; [|split].
  - unfold change_item_text_at.
    pose proof Hn as Hn'. apply oget_Some_key in Hn' as [d Hdn].
    erewrite bind_ok; cycle 1.
    { rewrite (bind_ok _ _ _ _ _ (getitem_loaded _ _ _ Hdn)). reflexivity. }
    change (prefix +:+ "Names" +:+ "") with (prefix +:+ "Names").
    change (prefix +:+ "Summaries" +:+ "") with (prefix +:+ "Summaries").
    change (prefix +:+ "Descriptions" +:+ "") with (prefix +:+ "Descriptions").
    rewrite (bind_ok _ _ _ _ _ Hr1), (bind_ok _ _ _ _ _ Hr2). exact Hr3.
  - rewrite Hk3, Hk2, Hk1. reflexivity.
  - intros c j. rewrite Ht3, Ht2, Ht1. unfold changed_text.
    destruct (decide (j = i)) as [->|Hj].
    + repeat case_decide; try tauto; try congruence;
        destruct (td_name td), (td_summary td), (td_description td);
        try reflexivity; exfalso; intuition congruence.
    + rewrite !decide_False by tauto. reflexivity.
Qed.

Lemma changed_text_idem td prefix c old :
  changed_text td prefix c (changed_text td prefix c old)
  = changed_text td prefix c old.
Proof.
  unfold changed_text. repeat case_decide;
    destruct (td_name td), (td_summary td), (td_description td); reflexivity.
Qed.

Lemma change_item_text_loop s (td : text_dict) (prefix : string) (l : list Z) :
  prefix +:+ "Names" ∈ okeys (categories (self s)) ->
  prefix +:+ "Summaries" ∈ okeys (categories (self s)) ->
  prefix +:+ "Descriptions" ∈ okeys (categories (self s)) ->
  exists s',
    for_each l (change_item_text_at td prefix EmptyString) s = (s', Ok tt)
    /\ okeys (categories (self s')) = okeys (categories (self s))
    /\ forall c j,
         text_of (self s') c j
         = if decide (j ∈ l) then changed_text td prefix c (text_of (self s) c j)
           else text_of (self s) c j.
Proof.
  revert s. induction l as [|i l IH]; intros s Hn Hs Hd.
  - exists s. split; [reflexivity|]. split; [reflexivity|].
    intros c j. rewrite decide_False by (intros H; inversion H). reflexivity.
  - destruct (change_item_text_at_run s td prefix i Hn Hs Hd) as (s1 & Hr1 & Hk1 & Ht1).
    destruct (IH s1) as (s' & Hr & Hk & Ht); try (rewrite Hk1; assumption).
    exists s'. split; [|split].
    + simpl. rewrite (bind_ok _ _ _ _ _ Hr1). exact Hr.
    + rewrite Hk, Hk1. reflexivity.
    + intros c j. rewrite Ht, Ht1.
      destruct (decide (j = i)) as [->|Hj].
      * rewrite (decide_True (P := i ∈ i :: l)) by left.
        destruct (decide (i ∈ l)); [apply changed_text_idem|reflexivity].
      * destruct (decide (j ∈ l)) as [Hin|Hnin].
        -- rewrite decide_True by (right; assumption). reflexivity.
        -- rewrite decide_False; [reflexivity|].
           intros H. apply elem_of_cons in H as [?|?]; congruence.
Qed.

(** Property X5: [change_item_text] without [patch] writes the texts that
    [text_dict] has, and only those.  With the index and the item type
    taken from the keyword arguments or else from [text_dict], the item
    type resolving to the prefix [P] and the three categories of [P]
    loaded, the call returns; afterwards, at every index given, the text
    of [P + "Names"] is [text_dict["name"]] if [text_dict] has that key and
    is unchanged otherwise (likewise for summary and description), whether
    or not the index existed before; every other text is unchanged and no
    category is added. *)
Theorem change_item_text_writes_given_texts
    s (td : text_dict) (index : option index_arg) (item_type : option string)
    (ix : index_arg) (ty prefix : string) :
  effective index (td_index td) = Some ix ->
  effective item_type (td_item_type td) = Some ty ->
  resolve_item_type ty = Ok prefix ->
  prefix +:+ "Names" ∈ okeys (categories (self s)) ->
  prefix +:+ "Summaries" ∈ okeys (categories (self s)) ->
  prefix +:+ "Descriptions" ∈ okeys (categories (self s)) ->
  exists s',
    change_item_text td index item_type false s = (s', Ok tt)
    /\ okeys (categories (self s')) = okeys (categories (self s))
    /\ forall c j,
         text_of (self s') c j
         = if decide (j ∈ index_tuple ix)
           then changed_text td prefix c (text_of (self s) c j)
           else text_of (self s) c j.
Proof.
  intros Hix Hty Hres Hn Hs Hd.
  destruct (change_item_text_loop s td prefix (index_tuple ix) Hn Hs Hd)
    as (s' & Hrun & Hk & Ht).
  exists s'. split; [|split; assumption].
  unfold change_item_text.
  assert (Hi : forall k : index_arg -> M Data unit,
            bind (match index with
                  | Some index0 => ret index0
                  | None => match td_index td with
                            | Some index0 => ret index0
                            | None => raise (KeyError (KStr "index"))
                            end
                  end) k s = k ix s).
  { intros k. unfold effective in Hix. destruct index as [i0|].
    - injection Hix as ->. reflexivity.
    - rewrite Hix. reflexivity. }
  rewrite Hi.
  assert (Ht' : forall k : string -> M Data unit,
            bind (match item_type with
                  | Some t0 => ret t0
                  | None => match td_item_type td with
                            | Some t0 => ret t0
                            | None => raise (KeyError (KStr "item_type"))
                            end
                  end) k s = k ty s).
  { intros k. unfold effective in Hty. destruct item_type as [t0|].
    - injection Hty as ->. reflexivity.
    - rewrite Hty. reflexivity. }
  rewrite Ht'. rewrite Hres, bind_lift_ok. exact Hrun.
Qed.

Lemma string_app_assoc (a b c : string) : (a +:+ b) +:+ c = a +:+ (b +:+ c).
Proof.
  induction a as [|x a IH]; [reflexivity|].
  change (String x ((a +:+ b) +:+ c) = String x (a +:+ (b +:+ c))).
  rewrite IH. reflexivity.
Qed.

Lemma endswith_app_r (p a b : string) : endswith p b = true -> endswith p (a +:+ b) = true.
Proof.
  intros H. apply endswith_spec in H. rewrite H.
  rewrite <- string_app_assoc. apply endswith_app.
Qed.

(** Property X6: with [patch=True], [change_item_text] looks the categories up under
    their names with the "Patch" suffix.  In a directory none of whose
    category names ends in "Patch", a call that has an index to work on and
    a name, summary or description to write raises [AttributeError] and
    changes nothing. *)
Theorem change_item_text_patch_raises_AttributeError
    s (td : text_dict) (index : option index_arg) (item_type : option string)
    (ix : index_arg) (ty prefix : string) :
  effective index (td_index td) = Some ix ->
  effective item_type (td_item_type td) = Some ty ->
  resolve_item_type ty = Ok prefix ->
  index_tuple ix <> [] ->
  (is_Some (td_name td) \/ is_Some (td_summary td) \/ is_Some (td_description td)) ->
  (forall k, k ∈ okeys (categories (self s)) -> endswith "Patch" k = false) ->
  exists c,
    change_item_text td index item_type true s
    = (s, Raise (AttributeError (NoCategory c))).
Proof.
  intros Hix Hty Hres Hne Hgiven Hkeys.
  assert (Hmiss : forall kind,
            oget (prefix +:+ kind +:+ "Patch") (categories (self s)) = None).
  { intros kind. apply oget_None. intros Hin. apply Hkeys in Hin.
    rewrite <- string_app_assoc in Hin. rewrite endswith_app in Hin. discriminate. }
  assert (Hbody : forall i, exists c,
            change_item_text_at td prefix "Patch" i s
            = (s, Raise (AttributeError (NoCategory c)))).
  { intros i. unfold change_item_text_at.
    destruct (oget (prefix +:+ "Names") (categories (self s))) as [d|] eqn:Hd.
    - erewrite bind_ok; cycle 1.
      { rewrite (bind_ok _ _ _ _ _ (getitem_loaded _ _ _ Hd)). reflexivity. }
      destruct (td_name td) as [t|].
      { eexists. apply bind_raise. apply setitem_text_missing. apply Hmiss. }
      rewrite (bind_ok (change_if_given None _ _) _ s s tt) by reflexivity.
      destruct (td_summary td) as [t|].
      { eexists. apply bind_raise. apply setitem_text_missing. apply Hmiss. }
      rewrite (bind_ok (change_if_given None _ _) _ s s tt) by reflexivity.
      destruct (td_description td) as [t|].
      { eexists. apply setitem_text_missing. apply Hmiss. }
      destruct Hgiven as [[? [=]]|[[? [=]]|[? [=]]]].
    - eexists. apply bind_raise. apply bind_raise.
      apply getitem_missing. exact Hd. }
  destruct (index_tuple ix) as [|i l] eqn:Hl; [congruence|].
  destruct (Hbody i) as [c Hc]. exists c.
  unfold change_item_text.
  assert (Hi : forall k : index_arg -> M Data unit,
            bind (match index with
                  | Some index0 => ret index0
                  | None => match td_index td with
                            | Some index0 => ret index0
                            | None => raise (KeyError (KStr "index"))
                            end
                  end) k s = k ix s).
  { intros k. unfold effective in Hix. destruct index as [i0|].
    - injection Hix as ->. reflexivity.
    - rewrite Hix. reflexivity. }
  rewrite Hi.
  assert (Ht' : forall k : string -> M Data unit,
            bind (match item_type with
                  | Some t0 => ret t0
                  | None => match td_item_type td with
                            | Some t0 => ret t0
                            | None => raise (KeyError (KStr "item_type"))
                            end
                  end) k s = k ty s).
  { intros k. unfold effective in Hty. destruct item_type as [t0|].
    - injection Hty as ->. reflexivity.
    - rewrite Hty. reflexivity. }
  rewrite Ht'. rewrite Hres, bind_lift_ok. rewrite Hl. simpl.
  apply bind_raise. exact Hc.
Qed.

End ChangeItemTextFacts.

Section OpenFacts.
Import Text.
Context {Data : Type} `{Fmt : MSGFormat Data}.
Implicit Types (s : State Data) (me : MSGDirectory).

Lemma BND_open_missing s path :
  disk s !! path = None -> BND_open path s = (s, Raise (FileNotFoundError path)).
Proof. unfold BND_open. intros ->. reflexivity. Qed.

Lemma open_msgbnd_missing s dir name :
  found_msgbnd s dir name = None ->
  open_msgbnd dir name s = (s, Raise (FileNotFoundError (joinpath dir name))).
Proof.
  unfold found_msgbnd, open_msgbnd, except_FileNotFoundError.
  destruct (disk s !! joinpath dir (name +:+ ".dcx")) as [b|] eqn:Hdcx; [discriminate|].
  intros Hplain. rewrite (BND_open_missing _ _ Hdcx).
  apply BND_open_missing. exact Hplain.
Qed.

Lemma MSGDirectory_new_no_item s dir :
  found_msgbnd s dir "item.msgbnd" = None ->
  MSGDirectory_new (Some dir) s
  = Raise (FileNotFoundError (joinpath dir "item.msgbnd")).
Proof.
  intros Hitem. unfold MSGDirectory_new, MSGDirectory_init.
  rewrite (bind_ok _ _ _ _ _ (set_self_run _ _)).
  rewrite (bind_ok _ _ _ _ _ (set_self_run _ _)).
  erewrite bind_raise; [reflexivity|].
  apply open_msgbnd_missing. exact Hitem.
Qed.

Lemma MSGDirectory_new_no_menu s dir item :
  found_msgbnd s dir "item.msgbnd" = Some item ->
  found_msgbnd s dir "menu.msgbnd" = None ->
  MSGDirectory_new (Some dir) s
  = Raise (FileNotFoundError (joinpath dir "menu.msgbnd")).
Proof.
  intros Hitem Hmenu. unfold MSGDirectory_new, MSGDirectory_init.
  rewrite (bind_ok _ _ _ _ _ (set_self_run _ _)).
  rewrite (bind_ok _ _ _ _ _ (set_self_run _ _)).
  erewrite bind_ok; cycle 1.
  { apply open_msgbnd_found. exact Hitem. }
  rewrite (bind_ok _ _ _ _ _ (set_self_run _ _)).
  erewrite bind_raise; [reflexivity|].
  apply open_msgbnd_missing. exact Hmenu.
Qed.

(** Property X7: the archives [__init__] needs.  When neither "item.msgbnd.dcx" nor
    "item.msgbnd" is in the folder the constructor raises
    [FileNotFoundError] for the path without ".dcx"; when the item archive
    is there and the menu archive is missing in both forms, it raises it
    for "menu.msgbnd".  No object is returned in either case. *)
Theorem MSGDirectory_new_missing_archive s (dir : string) :
  (found_msgbnd s dir "item.msgbnd" = None ->
     MSGDirectory_new (Some dir) s
     = Raise (FileNotFoundError (joinpath dir "item.msgbnd")))
  /\ (is_Some (found_msgbnd s dir "item.msgbnd") ->
      found_msgbnd s dir "menu.msgbnd" = None ->
      MSGDirectory_new (Some dir) s
      = Raise (FileNotFoundError (joinpath dir "menu.msgbnd"))).
Proof.
  split.
  - apply MSGDirectory_new_no_item.
  - intros [item Hitem] Hmenu.
    apply (MSGDirectory_new_no_menu s dir item Hitem Hmenu).
Qed.

(** A constructor call that returns has found both archives, with the same
    DCX signature, and has loaded every entry. *)
Lemma MSGDirectory_new_Ok s dir s' :
  MSGDirectory_new (Some dir) s = Ok s' ->
  exists item menu,
    found_msgbnd s dir "item.msgbnd" = Some item
    /\ found_msgbnd s dir "menu.msgbnd" = Some menu
    /\ dcx_magic item = dcx_magic menu
    /\ for_each (tagged_entries item menu) load_tagged (opened_state s dir item menu)
       = (s', Ok tt).
Proof.
  intros Hnew.
  destruct (found_msgbnd s dir "item.msgbnd") as [item|] eqn:Hitem; cycle 1.
  { rewrite (MSGDirectory_new_no_item s dir Hitem) in Hnew. discriminate. }
  destruct (found_msgbnd s dir "menu.msgbnd") as [menu|] eqn:Hmenu; cycle 1.
  { rewrite (MSGDirectory_new_no_menu s dir item Hitem Hmenu) in Hnew.
    discriminate. }
  exists item, menu. split; [reflexivity|]. split; [reflexivity|].
  unfold MSGDirectory_new in Hnew.
  rewrite (MSGDirectory_init_found s dir item menu Hitem Hmenu) in Hnew.
  destruct (dcx_magic item), (dcx_magic menu); simpl in Hnew;
    try discriminate;
    (split; [reflexivity|]);
    destruct (for_each _ _ _) as [s1 [e|[]]]; try discriminate;
    injection Hnew as ->; reflexivity.
Qed.

Lemma load_tagged_files (l : list (BNDEntry Data * bool)) s s' r :
  for_each l load_tagged s = (s', r) ->
  heap s' = heap s /\ disk s' = disk s /\ locked s' = locked s.
Proof.
  revert s. induction l as [|x l IH]; intros s Hrun; simpl in Hrun.
  - inversion Hrun; subst. auto.
  - apply bind_inv in Hrun as [(err & He & _)|(s2 & [] & He & Hrest)].
    + eapply load_fmg_entry_heap; eauto.
    + apply IH in Hrest as (-> & -> & ->).
      eapply load_fmg_entry_heap; eauto.
Qed.

(** An invariant of the iterations that load an entry is an invariant of
    the loop. *)
Lemma load_tagged_invariant (P : MSGDirectory -> Prop)
    (l : list (BNDEntry Data * bool)) :
  (forall p new_name fmg me,
     p ∈ l -> P me ->
     name_of_index MSGBND_INDEX_NAMES !! entry_id p.1 = Some new_name ->
     FMG_unpack (entry_data p.1) = Some fmg ->
     P (loaded_entry p.1 p.2 new_name fmg me)) ->
  forall s s', P (self s) -> for_each l load_tagged s = (s', Ok tt) -> P (self s').
Proof.
  induction l as [|x l IH]; intros Hstep s s' Hs Hrun; simpl in Hrun.
  - inversion Hrun; subst. exact Hs.
  - apply bind_inv in Hrun as [(err & _ & [=])|(s1 & [] & Hx & Hrest)].
    apply load_fmg_entry_cases in Hx
      as [(_ & _ & [=])|(new_name & Hn & [[_ [=]]|(fmg & Hf & _ & ->)])].
    refine (IH (fun p n f me Hp => Hstep p n f me (list_elem_of_further _ _ _ Hp))
              _ _ _ Hrest).
    cbn [self]. apply Hstep; [left|assumption..].
Qed.

Lemma text_of_loaded_entry entry is_menu new_name fmg me c i :
  text_of (loaded_entry entry is_menu new_name fmg me) c i
  = if decide (category_of new_name = c) then
      match fmg !! i with
      | Some text => Some text
      | None => text_of me c i
      end
    else text_of me c i.
Proof.
  unfold loaded_entry, category_of.
  destruct (endswith "Patch" new_name); rewrite text_of_merge_entries;
    reflexivity.
Qed.

Lemma is_patch_loaded_entry entry is_menu new_name fmg me c i :
  (c, i) ∈ _is_patch (loaded_entry entry is_menu new_name fmg me)
  <-> (c, i) ∈ _is_patch me
      \/ (endswith "Patch" new_name = true /\ c = category_of new_name
          /\ is_Some (fmg !! i)).
Proof.
  unfold loaded_entry, category_of.
  destruct (endswith "Patch" new_name); simpl.
  - rewrite elem_of_union, elem_of_map. split; intros [H|H]; auto.
    + destruct H as (j & [= -> ->] & Hj). right.
      split; [reflexivity|]. split; [reflexivity|].
      apply elem_of_dom. assumption.
    + destruct H as (_ & -> & H). right. exists i. split; [reflexivity|].
      apply elem_of_dom. assumption.
  - split; [auto|]. intros [H|(H & _)]; [assumption|discriminate].
Qed.

Lemma okeys_loaded_entry entry is_menu new_name fmg me :
  okeys (categories (loaded_entry entry is_menu new_name fmg me))
  = if decide (category_of new_name ∈ okeys (categories me))
    then okeys (categories me)
    else okeys (categories me) ++ [category_of new_name].
Proof.
  unfold loaded_entry, category_of.
  destruct (endswith "Patch" new_name); simpl; apply okeys_oset.
Qed.

Lemma menu_of_loaded_entry entry is_menu new_name fmg me k :
  _is_menu (loaded_entry entry is_menu new_name fmg me) !! k
  = if decide (new_name = k) then Some is_menu else _is_menu me !! k.
Proof.
  unfold loaded_entry. destruct (endswith "Patch" new_name); simpl;
    apply lookup_insert.
Qed.

Lemma archives_of_loaded_entry entry is_menu new_name fmg me :
  directory (loaded_entry entry is_menu new_name fmg me) = directory me
  /\ item_msgbnd (loaded_entry entry is_menu new_name fmg me) = item_msgbnd me
  /\ menu_msgbnd (loaded_entry entry is_menu new_name fmg me) = menu_msgbnd me.
Proof. unfold loaded_entry. destruct (endswith "Patch" new_name); auto. Qed.

(** Property X8: what a directory that opens holds.  The constructor has read, for
    each of the two archives, the DCX file if the folder has one and the
    plain file otherwise; the two have the same DCX signature; they are
    two new archive objects, placed after the objects that existed, which
    are unchanged; the disk is unchanged; and the object remembers the
    folder. *)
Theorem MSGDirectory_new_holds_both_archives s (dir : string) s' :
  MSGDirectory_new (Some dir) s = Ok s' ->
  exists item menu,
    found_msgbnd s dir "item.msgbnd" = Some item
    /\ found_msgbnd s dir "menu.msgbnd" = Some menu
    /\ dcx_magic item = dcx_magic menu
    /\ heap s' = heap s ++ [item; menu]
    /\ item_msgbnd (self s') = Some (length (heap s))
    /\ menu_msgbnd (self s') = Some (S (length (heap s)))
    /\ directory (self s') = Some dir
    /\ disk s' = disk s /\ locked s' = locked s.
Proof.
  intros Hnew.
  apply MSGDirectory_new_Ok in Hnew as (item & menu & Hitem & Hmenu & Hdcx & Hrun).
  exists item, menu. repeat (split; [assumption|]).
  destruct (load_tagged_files _ _ _ _ Hrun) as (Hheap & Hdisk & Hlocked).
  assert (Hinv : directory (self s') = Some dir
                 /\ item_msgbnd (self s') = Some (length (heap s))
                 /\ menu_msgbnd (self s') = Some (S (length (heap s)))).
  { apply (load_tagged_invariant
             (fun me => directory me = Some dir
                        /\ item_msgbnd me = Some (length (heap s))
                        /\ menu_msgbnd me = Some (S (length (heap s))))
             (tagged_entries item menu)) with (3 := Hrun).
    - intros p n f me _ (H1 & H2 & H3) _ _.
      destruct (archives_of_loaded_entry p.1 p.2 n f me) as (-> & -> & ->). auto.
    - simpl. auto. }
  destruct Hinv as (Hd & Hi & Hm).
  split; [rewrite Hheap; simpl; rewrite <- app_assoc; reflexivity|].
  repeat (split; [assumption|]). assumption.
Qed.

Lemma load_tagged_complete (l : list (BNDEntry Data * bool)) s s' :
  for_each l load_tagged s = (s', Ok tt) ->
  forall p new_name fmg i,
    p ∈ l ->
    name_of_index MSGBND_INDEX_NAMES !! entry_id p.1 = Some new_name ->
    FMG_unpack (entry_data p.1) = Some fmg ->
    is_Some (fmg !! i) ->
    is_Some (text_of (self s') (category_of new_name) i)
    /\ (endswith "Patch" new_name = true ->
        (category_of new_name, i) ∈ _is_patch (self s')).
Proof.
  revert s. induction l as [|x l IH]; intros s Hrun p new_name fmg i Hp Hn Hf Hi;
    [inversion Hp|].
  simpl in Hrun.
  apply bind_inv in Hrun as [(err & _ & [=])|(s1 & [] & Hx & Hrest)].
  apply elem_of_cons in Hp as [->|Hp]; [|eapply IH; eauto].
  unfold load_tagged in Hx.
  rewrite (load_fmg_entry_loaded _ _ _ _ _ Hn Hf) in Hx. injection Hx as <-.
  apply load_tagged_grows in Hrest as [Hsub Hkeys]. cbn [self] in Hsub, Hkeys.
  split.
  - apply Hkeys. rewrite text_of_loaded_entry.
    rewrite decide_True by reflexivity. destruct Hi as [t ->]. eauto.
  - intros Hpatch. apply Hsub. apply is_patch_loaded_entry. right. auto.
Qed.

(** Property X9: the merged view of a directory that opens is made of the tables of
    the two archives and of nothing else.  Every text of the view is the
    text some archive entry has at that index, the entry being named like
    the category or like the category with the "Patch" suffix; every index
    of every entry is a key of the view under the category of the entry;
    and [_is_patch] holds exactly the (category, index) pairs of the
    entries whose name ends in "Patch". *)
Theorem MSGDirectory_new_merged_view s (dir : string) s' (item menu : BND Data) :
  found_msgbnd s dir "item.msgbnd" = Some item ->
  found_msgbnd s dir "menu.msgbnd" = Some menu ->
  MSGDirectory_new (Some dir) s = Ok s' ->
  (forall c i text, text_of (self s') c i = Some text ->
     exists p new_name fmg,
       p ∈ tagged_entries item menu
       /\ name_of_index MSGBND_INDEX_NAMES !! entry_id p.1 = Some new_name
       /\ FMG_unpack (entry_data p.1) = Some fmg
       /\ category_of new_name = c /\ fmg !! i = Some text)
  /\ (forall p new_name fmg i,
        p ∈ tagged_entries item menu ->
        name_of_index MSGBND_INDEX_NAMES !! entry_id p.1 = Some new_name ->
        FMG_unpack (entry_data p.1) = Some fmg ->
        is_Some (fmg !! i) ->
        is_Some (text_of (self s') (category_of new_name) i))
  /\ (forall c i, (c, i) ∈ _is_patch (self s') <->
        exists p new_name fmg,
          p ∈ tagged_entries item menu
          /\ name_of_index MSGBND_INDEX_NAMES !! entry_id p.1 = Some new_name
          /\ FMG_unpack (entry_data p.1) = Some fmg
          /\ endswith "Patch" new_name = true
          /\ category_of new_name = c /\ is_Some (fmg !! i)).
Proof.
  intros Hitem Hmenu Hnew.
  apply MSGDirectory_new_Ok in Hnew as (item' & menu' & Hitem' & Hmenu' & _ & Hrun).
  rewrite Hitem in Hitem'. rewrite Hmenu in Hmenu'.
  injection Hitem' as <-. injection Hmenu' as <-.
  split; [|split].
  - apply (load_tagged_invariant
             (fun me => forall c i text, text_of me c i = Some text ->
                exists p new_name fmg,
                  p ∈ tagged_entries item menu
                  /\ name_of_index MSGBND_INDEX_NAMES !! entry_id p.1 = Some new_name
                  /\ FMG_unpack (entry_data p.1) = Some fmg
                  /\ category_of new_name = c /\ fmg !! i = Some text)
             (tagged_entries item menu)) with (3 := Hrun).
    + intros p n f me Hp IH Hn Hf c i text. rewrite text_of_loaded_entry.
      destruct (decide (category_of n = c)) as [Hc|_]; [|apply IH].
      destruct (f !! i) as [t|] eqn:Hfi; [|apply IH].
      intros [= <-]. exists p, n, f.
      repeat (split; [first [assumption|reflexivity]|]). assumption.
    + simpl. intros c i text. unfold text_of. simpl. discriminate.
  - intros p new_name fmg i Hp Hn Hf Hi.
    apply (load_tagged_complete _ _ _ Hrun p new_name fmg i Hp Hn Hf Hi).
  - intros c i. split.
    + revert c i.
      apply (load_tagged_invariant
               (fun me => forall c i, (c, i) ∈ _is_patch me ->
                  exists p new_name fmg,
                    p ∈ tagged_entries item menu
                    /\ name_of_index MSGBND_INDEX_NAMES !! entry_id p.1 = Some new_name
                    /\ FMG_unpack (entry_data p.1) = Some fmg
                    /\ endswith "Patch" new_name = true
                    /\ category_of new_name = c /\ is_Some (fmg !! i))
               (tagged_entries item menu)) with (3 := Hrun).
      * intros p n f me Hp IH Hn Hf c i Hin.
        apply is_patch_loaded_entry in Hin as [Hin|(Hpatch & -> & Hi)];
          [apply IH; exact Hin|].
        exists p, n, f.
        repeat (split; [first [assumption|reflexivity]|]). assumption.
      * simpl. intros c i Hin. set_solver.
    + intros (p & new_name & fmg & Hp & Hn & Hf & Hpatch & <- & Hi).
      apply (load_tagged_complete _ _ _ Hrun p new_name fmg i Hp Hn Hf Hi).
      exact Hpatch.
Qed.

(** Property X10: invariants of a directory that opens.  Every pair of [_is_patch]
    is a key of the merged view, no category name occurs twice in
    [categories], every category has a record in [_is_menu] under its own
    name or under its name with the "Patch" suffix, and [_is_menu] and
    [_original_names] have the same keys. *)
Theorem MSGDirectory_new_invariants s (dir : string) s' :
  MSGDirectory_new (Some dir) s = Ok s' ->
  (forall c i, (c, i) ∈ _is_patch (self s') -> is_Some (text_of (self s') c i))
  /\ NoDup (okeys (categories (self s')))
  /\ (forall c, c ∈ okeys (categories (self s')) ->
        is_Some (_is_menu (self s') !! c)
        \/ is_Some (_is_menu (self s') !! (c +:+ "Patch")))
  /\ dom (_is_menu (self s')) = dom (_original_names (self s')).
Proof.
  intros Hnew.
  apply MSGDirectory_new_Ok in Hnew as (item & menu & _ & _ & _ & Hrun).
  apply (load_tagged_invariant
           (fun me =>
              (forall c i, (c, i) ∈ _is_patch me -> is_Some (text_of me c i))
              /\ NoDup (okeys (categories me))
              /\ (forall c, c ∈ okeys (categories me) ->
                    is_Some (_is_menu me !! c)
                    \/ is_Some (_is_menu me !! (c +:+ "Patch")))
              /\ dom (_is_menu me) = dom (_original_names me))
           (tagged_entries item menu)) with (3 := Hrun).
  - intros p n f me _ (Hprov & Hnodup & Hmenu & Hdom) Hn Hf.
    split; [|split; [|split]].
    + intros c i Hin. rewrite text_of_loaded_entry.
      apply is_patch_loaded_entry in Hin as [Hin|(_ & -> & Hi)].
      * destruct (decide (category_of n = c)); [|auto].
        destruct (f !! i); [eauto|auto].
      * rewrite decide_True by reflexivity. destruct Hi as [t ->]. eauto.
    + rewrite okeys_loaded_entry.
      destruct (decide (category_of n ∈ okeys (categories me))) as [|Hnew];
        [assumption|].
      apply NoDup_app. split; [assumption|]. split.
      * intros x Hx Hx'. apply list_elem_of_singleton in Hx'. congruence.
      * apply NoDup_singleton.
    + intros c Hc. rewrite !menu_of_loaded_entry.
      rewrite okeys_loaded_entry in Hc.
      assert (Hnewkey : is_Some (if decide (n = category_of n) then Some p.2
                                 else _is_menu me !! category_of n)
                        \/ is_Some (if decide (n = category_of n +:+ "Patch")
                                    then Some p.2
                                    else _is_menu me !! (category_of n +:+ "Patch"))).
      { unfold category_of. destruct (endswith "Patch" n) eqn:He.
        - right. apply endswith_spec in He.
          change (String.length "Patch") with 5%nat in He.
          rewrite decide_True by exact He. eauto.
        - left. rewrite decide_True by reflexivity. eauto. }
      assert (Hold : c ∈ okeys (categories me) ->
                is_Some (if decide (n = c) then Some p.2 else _is_menu me !! c)
                \/ is_Some (if decide (n = c +:+ "Patch") then Some p.2
                            else _is_menu me !! (c +:+ "Patch"))).
      { intros Hin. destruct (Hmenu c Hin) as [H|H]; [left|right].
        - destruct (decide (n = c)); [eexists; reflexivity|exact H].
        - destruct (decide (n = c +:+ "Patch")); [eexists; reflexivity|exact H]. }
      destruct (decide (category_of n ∈ okeys (categories me))); [auto|].
      apply elem_of_app in Hc as [Hc|Hc]; [auto|].
      apply list_elem_of_singleton in Hc. subst c. exact Hnewkey.
    + unfold loaded_entry. destruct (endswith "Patch" n); simpl;
        rewrite !dom_insert_L, Hdom; reflexivity.
  - simpl. split; [set_solver|]. split; [apply NoDup_nil_2|].
    split; [intros c Hc; inversion Hc|]. rewrite !dom_empty_L. reflexivity.
Qed.

(** Property X11: the order of the entries matters.  Loading an entry whose name
    does not end in "Patch" lays its table over the category of that name:
    its text wins at every index it has, also at indices that an earlier
    Patch entry had filled, and [_is_patch] is not changed, so such an
    index stays marked as coming from the Patch resource. *)
Theorem base_entry_loaded_later_overrides
    s (entry : BNDEntry Data) (is_menu : bool) (new_name : string)
    (fmg : gmap Z string) :
  name_of_index MSGBND_INDEX_NAMES !! entry_id entry = Some new_name ->
  endswith "Patch" new_name = false ->
  FMG_unpack (entry_data entry) = Some fmg ->
  exists s',
    load_fmg_entry entry is_menu s = (s', Ok tt)
    /\ _is_patch (self s') = _is_patch (self s)
    /\ (forall i text, fmg !! i = Some text ->
          text_of (self s') new_name i = Some text)
    /\ (forall i, fmg !! i = None ->
          text_of (self s') new_name i = text_of (self s) new_name i)
    /\ (forall c i, c <> new_name -> text_of (self s') c i = text_of (self s) c i).
Proof.
  intros Hn He Hf.
  eexists. split; [apply (load_fmg_entry_loaded _ _ _ _ _ Hn Hf)|]. cbn [self].
  assert (Hc : category_of new_name = new_name)
    by (unfold category_of; rewrite He; reflexivity).
  split; [|split; [|split]].
  - unfold loaded_entry. rewrite He. reflexivity.
  - intros i text Hi. rewrite text_of_loaded_entry, Hc.
    rewrite decide_True by reflexivity. rewrite Hi. reflexivity.
  - intros i Hi. rewrite text_of_loaded_entry, Hc.
    rewrite decide_True by reflexivity. rewrite Hi. reflexivity.
  - intros c i Hne. rewrite text_of_loaded_entry, Hc.
    rewrite decide_False by congruence. reflexivity.
Qed.

Lemma category_of_not_Patch (new_name : string) :
  endswith "PatchPatch" new_name = false ->
  endswith "Patch" (category_of new_name) = false.
Proof.
  intros Hpp. unfold category_of. destruct (endswith "Patch" new_name) eqn:He;
    [|exact He].
  destruct (endswith "Patch" (slice_to_neg 5 new_name)) eqn:He2; [|reflexivity].
  apply endswith_spec in He. apply endswith_spec in He2.
  change (String.length "Patch") with 5%nat in He, He2.
  rewrite He2 in He. rewrite string_app_assoc in He.
  change ("Patch" +:+ "Patch") with "PatchPatch" in He.
  rewrite He in Hpp. rewrite endswith_app in Hpp. discriminate.
Qed.

(** Property X12: the "Patch" suffix never reaches the callers.  If no name of
    [_MSGBND_INDEX_NAMES] ends in "PatchPatch", no category of a directory
    that opens has a name ending in "Patch", so subscripting the directory
    with a name that ends in "Patch" raises [AttributeError]. *)
Theorem MSGDirectory_new_no_Patch_category s (dir : string) s' :
  (forall id new_name,
     name_of_index MSGBND_INDEX_NAMES !! id = Some new_name ->
     endswith "PatchPatch" new_name = false) ->
  MSGDirectory_new (Some dir) s = Ok s' ->
  (forall c, c ∈ okeys (categories (self s')) -> endswith "Patch" c = false)
  /\ (forall c, getitem (c +:+ "Patch") s'
        = (s', Raise (AttributeError (NoCategory (c +:+ "Patch"))))).
Proof.
  intros Htable Hnew.
  apply MSGDirectory_new_Ok in Hnew as (item & menu & _ & _ & _ & Hrun).
  assert (Hkeys : forall c, c ∈ okeys (categories (self s')) ->
            endswith "Patch" c = false).
  { apply (load_tagged_invariant
             (fun me => forall c, c ∈ okeys (categories me) ->
                endswith "Patch" c = false)
             (tagged_entries item menu)) with (3 := Hrun).
    - intros p n f me _ IH Hn _ c. rewrite okeys_loaded_entry.
      destruct (decide (category_of n ∈ okeys (categories me))); [apply IH|].
      intros Hc. apply elem_of_app in Hc as [Hc|Hc]; [auto|].
      apply list_elem_of_singleton in Hc. subst c.
      apply category_of_not_Patch. eapply Htable. exact Hn.
    - simpl. intros c Hc. inversion Hc. }
  split; [exact Hkeys|].
  intros c. apply getitem_missing. apply oget_None. intros Hin.
  apply Hkeys in Hin. rewrite endswith_app in Hin. discriminate.
Qed.

End OpenFacts.

Section SaveFacts.
Import Text.
Context {Data : Type} `{Fmt : MSGFormat Data}.
Implicit Types (s : State Data) (me : MSGDirectory).

(** Property X13: how [save] splits a category.  Of the copy [fmg_entries_main]
    exactly the indices recorded in [_is_patch] for the category are
    popped, and [fmg_entries_patch] receives exactly the popped texts that
    are not empty: an empty text of Patch provenance is in neither. *)
Theorem separate_patch_indices_split
    (is_patch : gset (string * Z)) (fmg_name : string)
    (fmg_entries : gmap Z string) (i : Z) :
  (separate_patch_indices is_patch fmg_name fmg_entries).1 !! i
  = (if decide ((fmg_name, i) ∈ is_patch) then None else fmg_entries !! i)
  /\ (separate_patch_indices is_patch fmg_name fmg_entries).2 !! i
     = (if decide ((fmg_name, i) ∈ is_patch) then
          match fmg_entries !! i with
          | Some text => if decide (text = EmptyString) then None else Some text
          | None => None
          end
        else None).
Proof.
  unfold separate_patch_indices.
  set (f := fun (index : Z) (patch_text : string) (acc : gmap Z string * gmap Z string) =>
              let '(fmg_entries_main, fmg_entries_patch) := acc in
              if decide ((fmg_name, index) ∈ is_patch) then
                (delete index fmg_entries_main,
                 if decide (patch_text = EmptyString) then fmg_entries_patch
                 else <[index := patch_text]> fmg_entries_patch)
              else (fmg_entries_main, fmg_entries_patch)).
  assert (Hgen : forall (m0 m : gmap Z string),
            (map_fold f (m0, ∅) m).1 !! i
            = (if decide ((fmg_name, i) ∈ is_patch) then
                 match m !! i with Some _ => None | None => m0 !! i end
               else m0 !! i)
            /\ (map_fold f (m0, ∅) m).2 !! i
               = (if decide ((fmg_name, i) ∈ is_patch) then
                    match m !! i with
                    | Some text =>
                        if decide (text = EmptyString) then None else Some text
                    | None => None
                    end
                  else None)).
  { intros m0.
    apply (map_fold_weak_ind
             (fun (acc : gmap Z string * gmap Z string) (m : gmap Z string) =>
                acc.1 !! i
                = (if decide ((fmg_name, i) ∈ is_patch) then
                     match m !! i with Some _ => None | None => m0 !! i end
                   else m0 !! i)
                /\ acc.2 !! i
                   = (if decide ((fmg_name, i) ∈ is_patch) then
                        match m !! i with
                        | Some text =>
                            if decide (text = EmptyString) then None else Some text
                        | None => None
                        end
                      else None))).
    - simpl. rewrite !lookup_empty. destruct (decide _); auto.
    - intros j x m [main patch] Hj [Hmain Hpatch]. simpl in Hmain, Hpatch.
      unfold f. destruct (decide ((fmg_name, j) ∈ is_patch)) as [Hjp|Hjp]; simpl.
      + destruct (decide (j = i)) as [->|Hne].
        * rewrite Hj in Hmain, Hpatch.
          rewrite lookup_delete_eq, (lookup_insert_eq m).
          destruct (decide ((fmg_name, i) ∈ is_patch)) as [_|?]; [|contradiction].
          split; [reflexivity|].
          destruct (decide (x = EmptyString)); [exact Hpatch|].
          apply lookup_insert_eq.
        * rewrite lookup_delete_ne by assumption.
          rewrite (lookup_insert_ne m) by assumption. split; [exact Hmain|].
          destruct (decide (x = EmptyString)); [exact Hpatch|].
          rewrite lookup_insert_ne by assumption. exact Hpatch.
      + destruct (decide (j = i)) as [->|Hne].
        * rewrite Hj in Hmain, Hpatch. rewrite (lookup_insert_eq m).
          destruct (decide ((fmg_name, i) ∈ is_patch)) as [?|_]; [contradiction|].
          auto.
        * rewrite (lookup_insert_ne m) by assumption. auto. }
  destruct (Hgen fmg_entries fmg_entries) as [H1 H2]. split; [|exact H2].
  rewrite H1. destruct (decide _); [|reflexivity].
  destruct (fmg_entries !! i); reflexivity.
Qed.

(** *** [save] and the files *)

Lemma maintains_any {A} (I : State Data -> Prop) (E : exn -> Prop)
    (Q : A -> Prop) (m : M Data A) :
  maintains I E Q m -> maintains I E (fun _ => True) m.
Proof.
  intros Hm s s' r Hs Hrun. destruct (Hm _ _ _ Hs Hrun) as [Hs' Hr].
  split; [assumption|]. destruct r; [assumption|exact Logic.I].
Qed.

Section files.
Context (s0 : State Data).
#[local] Notation "'Files'" := (same_files s0).
#[local] Notation "'AnyE'" := (fun _ : exn => True).
#[local] Notation "'Any'" := (fun _ => True).

Lemma files_store l (b : BND Data) : maintains Files AnyE Any (store l b).
Proof. intros s s' r Hs [= <- <-]. split; [exact Hs|exact Logic.I]. Qed.

Lemma files_deepcopy o : maintains Files AnyE Any (deepcopy o).
Proof.
  unfold deepcopy. destruct o as [l|]; [|apply maintains_ret; exact Logic.I].
  intros s s' r Hs. destruct (heap s !! l) as [b|].
  - unfold bind, alloc, ret. simpl. intros [= <- <-]. split; [exact Hs|exact Logic.I].
  - intros [= <- <-]. split; [exact Hs|exact Logic.I].
Qed.

Lemma files_deref o attr : maintains Files AnyE Any (deref o attr).
Proof.
  eapply maintains_any. apply maintains_deref; exact Logic.I.
Qed.

Lemma files_update_entry l i f : maintains Files AnyE Any (update_entry l i f).
Proof.
  unfold update_entry. eapply maintains_bind; [apply files_deref|].
  intros [l' b] _. apply files_store.
Qed.

Lemma files_remove_entry l (b : BND Data) id :
  maintains Files AnyE Any (remove_entry l b id).
Proof.
  unfold remove_entry. destruct (entries_by_id (entries b) id).
  - apply files_store.
  - apply maintains_raise. exact Logic.I.
Qed.

Lemma files_update_msgbnd_entry msgbnd fmg_name fmg_entries
    word_wrap_limit pipe_to_newline use_original_names :
  maintains Files AnyE Any
    (update_msgbnd_entry msgbnd fmg_name fmg_entries word_wrap_limit
       pipe_to_newline use_original_names).
Proof.
  unfold update_msgbnd_entry.
  eapply maintains_bind; [apply maintains_decoded; exact Logic.I|]. intros data _.
  eapply maintains_bind; [apply maintains_subscript; exact Logic.I|]. intros id _.
  eapply maintains_bind; [apply files_deref|]. intros [l b] _.
  destruct (entries_by_id (entries b) id) as [i|];
    [|apply maintains_raise; exact Logic.I].
  eapply maintains_bind; [apply files_update_entry|]. intros _ _.
  destruct (negb use_original_names); [|apply maintains_ret; exact Logic.I].
  eapply maintains_bind; [apply (maintains_get_self _ _ Any); auto|]. intros me _.
  eapply maintains_bind; [apply maintains_subscript; exact Logic.I|]. intros orig _.
  apply files_update_entry.
Qed.

Lemma files_remove_merged_patch new_item new_menu patch_fmg_name :
  maintains Files AnyE Any (remove_merged_patch new_item new_menu patch_fmg_name).
Proof.
  unfold remove_merged_patch.
  eapply maintains_bind; [apply (maintains_get_self _ _ Any); auto|]. intros me _.
  destruct (_is_menu me !! patch_fmg_name) as [is_menu|];
    [|apply maintains_ret; exact Logic.I].
  eapply maintains_bind; [apply maintains_subscript; exact Logic.I|]. intros id _.
  eapply maintains_bind; [apply files_deref|]. intros [l b] _.
  destruct (entries_by_id (entries b) id);
    [|apply maintains_ret; exact Logic.I].
  apply files_remove_entry.
Qed.

Lemma files_save_category new_item new_menu limit
    separate_patch use_original_names pipe_to_newline fmg_name fmg_entries :
  maintains Files AnyE Any
    (save_category new_item new_menu limit separate_patch use_original_names
       pipe_to_newline fmg_name fmg_entries).
Proof.
  unfold save_category.
  eapply maintains_bind; [apply (maintains_get_self _ _ Any); auto|]. intros me _.
  destruct (if separate_patch || bool_decide (fmg_name ∈ _CANNOT_MERGE_PATCH)
            then separate_patch_indices (_is_patch me) fmg_name fmg_entries
            else (fmg_entries, ∅)) as [main patch].
  eapply maintains_bind.
  - instantiate (1 := Any).
    destruct (decide (patch = ∅)); [apply maintains_ret; exact Logic.I|].
    eapply maintains_bind; [apply maintains_subscript; exact Logic.I|].
    intros is_menu _. apply files_update_msgbnd_entry.
  - intros _ _.
    eapply maintains_bind; [apply maintains_subscript; exact Logic.I|].
    intros is_menu _. apply files_update_msgbnd_entry.
Qed.
End files.


Lemma get_self_inv s s1 (r : result MSGDirectory) :
  get_self s = (s1, r) -> s1 = s /\ r = Ok (self s).
Proof. intros [= <- <-]. auto. Qed.



(** Every element of a loop that ran to its end was processed without
    exception, from a state satisfying the invariant of the loop. *)
Lemma for_each_Ok_elem {B} (I : State Data -> Prop) (E : exn -> Prop)
    (l : list B) (body : B -> M Data unit) :
  (forall x, x ∈ l -> maintains I E (fun _ => True) (body x)) ->
  forall s s', I s -> for_each l body s = (s', Ok tt) ->
    forall x, x ∈ l -> exists s1 s2, I s1 /\ body x s1 = (s2, Ok tt).
Proof.
  induction l as [|y l IH]; intros Hbody s s' Hs Hrun x Hx; [inversion Hx|].
  simpl in Hrun.
  apply bind_inv in Hrun as [(e & _ & [=])|(s1 & [] & Hy & Hrest)].
  apply elem_of_cons in Hx as [->|Hx]; [eauto|].
  destruct (Hbody y (list_elem_of_here _ _) _ _ _ Hs Hy) as [Hs1 _].
  apply (IH (fun z Hz => Hbody z (list_elem_of_further _ _ _ Hz)) _ _ Hs1 Hrest x Hx).
Qed.

Lemma save_category_Ok_recorded new_item new_menu limit separate_patch
    use_original_names pipe_to_newline fmg_name fmg_entries s s' :
  save_category new_item new_menu limit separate_patch use_original_names
    pipe_to_newline fmg_name fmg_entries s = (s', Ok tt) ->
  is_Some (_is_menu (self s) !! fmg_name).
Proof.
  unfold save_category. intros Hrun.
  apply bind_inv in Hrun as [(e & _ & [=])|(s1 & me & Hg & Hrun)].
  apply get_self_inv in Hg as [-> [= ->]].
  destruct (if separate_patch || bool_decide (fmg_name ∈ _CANNOT_MERGE_PATCH)
            then separate_patch_indices (_is_patch (self s)) fmg_name fmg_entries
            else (fmg_entries, ∅)) as [main patch].
  apply bind_inv in Hrun as [(e & _ & [=])|(s2 & [] & _ & Hrun)].
  apply bind_inv in Hrun as [(e & _ & [=])|(s3 & is_menu & Hsub & _)].
  unfold subscript in Hsub.
  destruct (_is_menu (self s) !! fmg_name); [eauto|discriminate].
Qed.

(** Property X15: [save] needs a record of the base resource of every category.  If
    some category of the directory has no entry in [_is_menu] under its
    own name (as happens when an archive holds a Patch resource without
    its base resource), every call of [save] raises; nothing is written
    and the directory object is unchanged. *)
Theorem save_raises_without_base_record
    s (c : string) (d : gmap Z string) :
  (c, d) ∈ categories (self s) ->
  _is_menu (self s) !! c = None ->
  forall msg_directory description_word_wrap_limit separate_patch
         use_original_names pipe_to_newline s' (r : result unit),
    save msg_directory description_word_wrap_limit separate_patch
      use_original_names pipe_to_newline s = (s', r) ->
    (exists e, r = Raise e) /\ disk s' = disk s /\ self s' = self s.
Proof.
  intros Hin Hnone msg_directory limit separate_patch use_original_names
         pipe_to_newline s' r Hrun.
  unfold save in Hrun.
  assert (Hspw : forall s1 r1,
            save_pack_and_write msg_directory limit separate_patch
              use_original_names pipe_to_newline s = (s1, r1) ->
            (exists e, r1 = Raise e) /\ disk s1 = disk s /\ self s1 = self s).
  { clear Hrun. intros s1 r1 Hrun.
    pose proof (maintains_save_pack_and_write s _ _ _ _ _ _ _ _
                  (untouched_refl s) Hrun) as [(Hself & _ & _) _].
    cut ((exists e, r1 = Raise e) /\ disk s1 = disk s);
      [intros [? ?]; auto|].
    clear Hself. unfold save_pack_and_write in Hrun.
    assert (F0 : same_files s s) by (split; reflexivity).
    apply bind_inv in Hrun as [(e & Hg & _)|(s2 & me & Hg & Hrun)];
      [discriminate Hg|].
    apply get_self_inv in Hg as [-> [= ->]].
    apply bind_inv in Hrun as [(e & Hd & ->)|(s3 & ni & Hd & Hrun)].
    { destruct (files_deepcopy s _ _ _ _ F0 Hd) as [[Hdisk _] _]. eauto. }
    destruct (files_deepcopy s _ _ _ _ F0 Hd) as [F1 _].
    destruct (maintains_deepcopy s _ _ _ _ (untouched_refl s) Hd) as [U1 Hni].
    clear Hd.
    apply bind_inv in Hrun as [(e & Hd & ->)|(s4 & nm & Hd & Hrun)].
    { destruct (files_deepcopy s _ _ _ _ F1 Hd) as [[Hdisk _] _]. eauto. }
    destruct (files_deepcopy s _ _ _ _ F1 Hd) as [F2 _].
    destruct (maintains_deepcopy s _ _ _ _ U1 Hd) as [U2 Hnm].
    clear Hd.
    assert (HremoveF : maintains (same_files s) (fun _ => True) (fun _ => True)
              (if negb separate_patch
               then for_each _CAN_MERGE_PATCH (remove_merged_patch ni nm)
               else ret tt)).
    { destruct (negb separate_patch).
      - apply maintains_for_each. intros x _. apply files_remove_merged_patch.
      - apply maintains_ret. exact Logic.I. }
    assert (HremoveU : maintains (untouched s) not_ValueError (fun _ => True)
              (if negb separate_patch
               then for_each _CAN_MERGE_PATCH (remove_merged_patch ni nm)
               else ret tt)).
    { destruct (negb separate_patch).
      - apply maintains_for_each. intros x _.
        apply maintains_remove_merged_patch; assumption.
      - apply maintains_ret. exact Logic.I. }
    apply bind_inv in Hrun as [(e & Hd & ->)|(s5 & [] & Hd & Hrun)].
    { destruct (HremoveF _ _ _ F2 Hd) as [[Hdisk _] _]. eauto. }
    destruct (HremoveF _ _ _ F2 Hd) as [F3 _].
    destruct (HremoveU _ _ _ U2 Hd) as [U3 _].
    clear Hd HremoveF HremoveU.
    assert (HloopF : maintains (same_files s) (fun _ => True) (fun _ => True)
              (for_each (categories (self s))
                 (fun '(fmg_name, fmg_entries) =>
                    save_category ni nm limit separate_patch use_original_names
                      pipe_to_newline fmg_name fmg_entries))).
    { apply maintains_for_each. intros [fmg_name fmg_entries] _.
      apply files_save_category. }
    apply bind_inv in Hrun as [(e & Hd & ->)|(s6 & [] & Hd & Hrun)].
    { destruct (HloopF _ _ _ F3 Hd) as [[Hdisk _] _]. eauto. }
    exfalso.
    destruct (for_each_Ok_elem (untouched s) not_ValueError
                (categories (self s))
                (fun '(fmg_name, fmg_entries) =>
                   save_category ni nm limit separate_patch
                     use_original_names pipe_to_newline fmg_name fmg_entries))
      with (3 := Hd) (x := (c, d)) as (sa & sb & (Hsa & _ & _) & Hbody).
    - intros [fmg_name fmg_entries] _. eapply maintains_any.
      apply maintains_save_category; assumption.
    - exact U3.
    - exact Hin.
    - apply save_category_Ok_recorded in Hbody.
      rewrite Hsa, Hnone in Hbody. destruct Hbody as [? [=]]. }
  apply bind_inv in Hrun as [(e & Hrun & ->)|(s1 & [ni nm] & Hrun & _)].
  - destruct (Hspw _ _ Hrun) as (_ & Hdisk & Hself). eauto.
  - destruct (Hspw _ _ Hrun) as ([e [=]] & _).
Qed.

End SaveFacts.

(* ================================================================== *)
(** * [get_range] and [find] *)
(* ================================================================== *)

Section RangeFacts.
Import Text.
Context {Data : Type} `{Fmt : MSGFormat Data}.
Implicit Types (s : State Data).

Lemma slice_sublist {A} (start stop : option Z) (l : list A) :
  slice start stop l `sublist_of` l.
Proof.
  unfold slice. etransitivity; [apply sublist_take|apply sublist_drop].
Qed.

Lemma StronglySorted_slice {A} (R : relation A) start stop (l : list A) :
  StronglySorted R l -> StronglySorted R (slice start stop l).
Proof.
  intros Hl. unfold slice.
  set (lo := slice_bound (length l) 0 start).
  set (n := (slice_bound (length l) (length l) stop - lo)%nat).
  rewrite <- (firstn_skipn lo l) in Hl. apply StronglySorted_app_1_r in Hl.
  rewrite <- (firstn_skipn n (skipn lo l)) in Hl.
  apply StronglySorted_app_1_l in Hl. exact Hl.
Qed.

Lemma slice_all {A} (l : list A) : slice None None l = l.
Proof.
  unfold slice. simpl. rewrite Nat.sub_0_r. apply firstn_all.
Qed.

Lemma length_slice_nonneg {A} (a b : Z) (l : list A) :
  (0 <= a)%Z -> (0 <= b)%Z ->
  Z.of_nat (length (slice (Some a) (Some b) l))
  = Z.max 0 (Z.min b (Z.of_nat (length l)) - Z.min a (Z.of_nat (length l))).
Proof.
  intros Ha Hb. unfold slice, slice_bound.
  destruct (Z.ltb_spec a 0); [lia|]. destruct (Z.ltb_spec b 0); [lia|].
  rewrite length_take, length_drop. lia.
Qed.

Lemma sorted_keys_elem {V} (d : gmap Z V) (i : Z) :
  i ∈ sorted_keys d <-> is_Some (d !! i).
Proof.
  unfold sorted_keys. rewrite merge_sort_Permutation, elem_of_elements.
  apply elem_of_dom.
Qed.

Lemma StronglySorted_le_NoDup (l : list Z) :
  StronglySorted Z.le l -> NoDup l -> StronglySorted Z.lt l.
Proof.
  induction 1 as [|x l Hl IH Hx]; intros Hnd; constructor.
  - apply IH. apply NoDup_cons in Hnd as [_ ?]. assumption.
  - apply NoDup_cons in Hnd as [Hnotin _].
    apply Forall_forall. intros y Hy.
    rewrite Forall_forall in Hx. specialize (Hx y Hy).
    assert (x <> y) by (intros ->; contradiction). lia.
Qed.

Lemma sorted_keys_increasing {V} (d : gmap Z V) :
  StronglySorted Z.lt (sorted_keys d).
Proof.
  apply StronglySorted_le_NoDup.
  - unfold sorted_keys. apply StronglySorted_merge_sort; apply _.
  - unfold sorted_keys. rewrite merge_sort_Permutation. apply NoDup_elements.
Qed.

Lemma length_sorted_keys {V} (d : gmap Z V) : length (sorted_keys d) = size d.
Proof.
  unfold sorted_keys. rewrite merge_sort_Permutation.
  rewrite <- size_dom. reflexivity.
Qed.

Lemma get_range_loop s c d (l : list Z) :
  oget c (categories (self s)) = Some d ->
  (forall i, i ∈ l -> is_Some (d !! i)) ->
  exists r,
    comprehension
      (fun text_id =>
         bind (category c) (fun d =>
         bind (subscript d text_id (KInt text_id)) (fun text =>
         ret (text_id, text)))) l s = (s, Ok r)
    /\ r.*1 = l
    /\ forall i t, (i, t) ∈ r -> d !! i = Some t.
Proof.
  intros Hc. induction l as [|i l IH]; intros Hl; simpl.
  - exists []. split; [reflexivity|]. split; [reflexivity|].
    intros i t Hin. inversion Hin.
  - destruct (Hl i (list_elem_of_here _ _)) as [t Ht].
    destruct (IH (fun j Hj => Hl j (list_elem_of_further _ _ _ Hj)))
      as (r & Hrun & Hfst & Hr).
    exists ((i, t) :: r).
    rewrite (bind_ok _ _ s s (i, t)).
    + rewrite (bind_ok _ _ s s r Hrun). split; [reflexivity|].
      split; [cbn [fmap list_fmap fst]; f_equal; exact Hfst|].
      intros j u Hin. apply elem_of_cons in Hin as [[= -> ->]|Hin]; auto.
    + rewrite (bind_ok _ _ s s d (category_loaded _ _ _ Hc)).
      rewrite (bind_ok _ _ s s t (subscript_Some _ _ _ _ _ Ht)). reflexivity.
Qed.

(** Property X16: [get_range] on a category of the directory returns normally and
    changes nothing.  The pairs are entries of the category, in strictly
    increasing order of id.  The bounds are positions in the sorted list
    of ids, not ids: with both bounds omitted every entry is returned, and
    with bounds [0 <= a] and [0 <= b] the number of pairs is
    [max 0 (min b n - min a n)], [n] the number of entries. *)
Theorem get_range_sorted_part_of_category
    s (c : string) (d : gmap Z string) (start end_ : option Z) :
  oget c (categories (self s)) = Some d ->
  exists l,
    get_range c start end_ s = (s, Ok l)
    /\ StronglySorted Z.lt l.*1
    /\ (forall i t, (i, t) ∈ l -> d !! i = Some t)
    /\ (start = None -> end_ = None ->
        forall i t, d !! i = Some t -> (i, t) ∈ l)
    /\ (forall a b, start = Some a -> end_ = Some b ->
        (0 <= a)%Z -> (0 <= b)%Z ->
        Z.of_nat (length l)
        = Z.max 0 (Z.min b (Z.of_nat (size d)) - Z.min a (Z.of_nat (size d)))).
Proof.
  intros Hc. unfold get_range.
  rewrite (bind_ok _ _ s s d (category_loaded _ _ _ Hc)).
  destruct (get_range_loop s c d (slice start end_ (sorted_keys d)) Hc)
    as (l & Hrun & Hfst & Hl).
  { intros i Hi. apply sorted_keys_elem.
    eapply elem_of_sublist; [exact Hi|apply slice_sublist]. }
  exists l. split; [exact Hrun|]. split; [|split; [exact Hl|split]].
  - rewrite Hfst. apply StronglySorted_slice, sorted_keys_increasing.
  - intros -> -> i t Hit. rewrite slice_all in Hfst.
    assert (Hi : i ∈ l.*1)
      by (rewrite Hfst; apply sorted_keys_elem; eauto).
    apply list_elem_of_fmap in Hi as ([j u] & -> & Hin).
    simpl in Hit. rewrite (Hl _ _ Hin) in Hit. injection Hit as <-. exact Hin.
  - intros a b -> -> Ha Hb.
    rewrite <- (length_fmap fst l), Hfst, length_slice_nonneg by assumption.
    rewrite length_sorted_keys. reflexivity.
Qed.

(** Property X17: [get_range] on a name that is not a category raises [KeyError]
    with that name (not the [AttributeError] of [__getitem__]), and
    changes nothing. *)
Theorem get_range_unknown_category_raises_KeyError
    s (c : string) (start end_ : option Z) :
  oget c (categories (self s)) = None ->
  get_range c start end_ s = (s, Raise (KeyError (KStr c))).
Proof.
  intros Hc. unfold get_range.
  apply bind_raise. apply category_missing. exact Hc.
Qed.

End RangeFacts.

Section FindFacts.
Import Text.
Context {Data : Type} `{Fmt : MSGFormat Data}.
Implicit Types (s : State Data).

(** The text a search leaves at an index that held [text]. *)
#[local] Notation "'left_by'" :=
  (fun (search_string : string) (replace_with : option string) (text : string) =>
     match replace_with with
     | Some new => replace_in search_string new text
     | None => text
     end).

Lemma find_in_dict_spec search_string replace_with (fmg_dict : gmap Z string) :
  (forall j, (find_in_dict search_string replace_with fmg_dict).1 !! j
             = left_by search_string replace_with <$> fmg_dict !! j)
  /\ ((find_in_dict search_string replace_with fmg_dict).2 = true
      <-> exists i t, fmg_dict !! i = Some t /\ contains search_string t = true).
Proof.
  unfold find_in_dict.
  set (f := fun (index : Z) (text : string) (acc : gmap Z string * bool) =>
              let '(dict, found_something) := acc in
              if contains search_string text
              then (match replace_with with
                    | Some new => <[index := replace search_string new text]> dict
                    | None => dict
                    end, true)
              else (dict, found_something)).
  assert (Hind : forall m,
    m ⊆ fmg_dict ->
    (forall j, (map_fold f (fmg_dict, false) m).1 !! j
               = match m !! j with
                 | Some t => Some (left_by search_string replace_with t)
                 | None => fmg_dict !! j
                 end)
    /\ ((map_fold f (fmg_dict, false) m).2 = true
        <-> exists i t, m !! i = Some t /\ contains search_string t = true)).
  { apply (map_fold_weak_ind
             (fun r m => m ⊆ fmg_dict ->
                (forall j, r.1 !! j
                           = match m !! j with
                             | Some t => Some (left_by search_string replace_with t)
                             | None => fmg_dict !! j
                             end)
                /\ (r.2 = true
                    <-> exists i t, m !! i = Some t
                                    /\ contains search_string t = true))).
    - intros _. split.
      + intros j. rewrite lookup_empty. reflexivity.
      + simpl. split; [discriminate|].
        intros (i & t & Hi & _). rewrite lookup_empty in Hi. discriminate.
    - intros i x m [dict found] Hi IH Hsub.
      assert (Hm : m ⊆ fmg_dict).
      { etransitivity; [|exact Hsub]. apply insert_subseteq. exact Hi. }
      assert (Hx : fmg_dict !! i = Some x).
      { eapply lookup_weaken; [|exact Hsub]. apply lookup_insert_eq. }
      destruct (IH Hm) as [IHdict IHfound]. simpl in IHdict, IHfound.
      unfold f. unfold replace_in.
      destruct (contains search_string x) eqn:Hcontains; simpl.
      + split.
        * intros j. destruct (decide (j = i)) as [->|Hne].
          -- rewrite lookup_insert_eq, Hcontains.
             destruct replace_with as [new|]; [apply lookup_insert_eq|].
             rewrite IHdict, Hi. exact Hx.
          -- rewrite (lookup_insert_ne m) by congruence.
             destruct replace_with as [new|];
               [rewrite lookup_insert_ne by congruence|]; apply IHdict.
        * split; [|reflexivity]. intros _. exists i, x.
          rewrite lookup_insert_eq. auto.
      + split.
        * intros j. destruct (decide (j = i)) as [->|Hne].
          -- rewrite lookup_insert_eq, Hcontains, IHdict, Hi.
             destruct replace_with; exact Hx.
          -- rewrite (lookup_insert_ne m) by congruence. apply IHdict.
        * rewrite IHfound. split.
          -- intros (j & t & Hj & Ht). exists j, t. split; [|exact Ht].
             rewrite lookup_insert_ne; [exact Hj|]. intros ->. congruence.
          -- intros (j & t & Hj & Ht). exists j, t. split; [|exact Ht].
             destruct (decide (j = i)) as [->|Hne].
             ++ rewrite lookup_insert_eq in Hj. congruence.
             ++ rewrite lookup_insert_ne in Hj by congruence. exact Hj. }
  destruct (Hind fmg_dict (reflexivity _)) as [Hdict Hfound].
  split; [|exact Hfound].
  intros j. rewrite Hdict. destruct (fmg_dict !! j); reflexivity.
Qed.

Lemma find_in_dict_no_replacement search_string (fmg_dict : gmap Z string) :
  (find_in_dict search_string None fmg_dict).1 = fmg_dict.
Proof.
  apply map_eq. intros j.
  rewrite (proj1 (find_in_dict_spec search_string None fmg_dict)).
  destruct (fmg_dict !! j); reflexivity.
Qed.

Lemma find_in_dict_replacement search_string new (fmg_dict : gmap Z string) :
  (find_in_dict search_string (Some new) fmg_dict).1
  = replace_in search_string new <$> fmg_dict.
Proof.
  apply map_eq. intros j.
  rewrite (proj1 (find_in_dict_spec search_string (Some new) fmg_dict)).
  rewrite lookup_fmap. reflexivity.
Qed.

(** Whether some text of some of the dictionaries contains the string. *)
Lemma found_in_some search_string replace_with
    (l : list (string * gmap Z string)) :
  existsb (fun p => (find_in_dict search_string replace_with p.2).2) l = true
  <-> exists c d i t, (c, d) ∈ l /\ d !! i = Some t
                      /\ contains search_string t = true.
Proof.
  rewrite existsb_exists. split.
  - intros ([c d] & Hin & Hfound). simpl in Hfound.
    apply find_in_dict_spec in Hfound as (i & t & Hi & Ht).
    exists c, d, i, t. split; [apply list_elem_of_In; exact Hin|auto].
  - intros (c & d & i & t & Hin & Hi & Ht). exists (c, d).
    split; [apply list_elem_of_In; exact Hin|]. simpl.
    apply find_in_dict_spec. eauto.
Qed.

Lemma find_in_dicts_no_replacement search_string
    (l : list (string * gmap Z string)) (found_something : bool) s :
  find_in_dicts search_string None l found_something s
  = (s, Ok (found_something
            || existsb (fun p => (find_in_dict search_string None p.2).2) l)).
Proof.
  revert found_something. induction l as [|[c d] l IH]; intros b; simpl.
  - rewrite orb_false_r. reflexivity.
  - destruct (find_in_dict search_string None d) as [dict found] eqn:Hd.
    rewrite (bind_ok _ _ s s tt eq_refl), IH. simpl.
    rewrite orb_assoc. reflexivity.
Qed.

Lemma with_categories_twice c c' (me : MSGDirectory) :
  with_categories c (with_categories c' me) = with_categories c me.
Proof. reflexivity. Qed.

Lemma find_in_dicts_replacement search_string new
    (l : list (string * gmap Z string)) :
  NoDup l.*1 ->
  forall (found_something : bool) s s' r,
    (forall c d, (c, d) ∈ l -> oget c (categories (self s)) = Some d) ->
    find_in_dicts search_string (Some new) l found_something s = (s', r) ->
    r = Ok (found_something
            || existsb (fun p => (find_in_dict search_string (Some new) p.2).2) l)
    /\ self s' = with_categories (categories (self s')) (self s)
    /\ heap s' = heap s /\ disk s' = disk s /\ locked s' = locked s
    /\ okeys (categories (self s')) = okeys (categories (self s))
    /\ forall c, oget c (categories (self s'))
                 = match oget c l with
                   | Some d => Some (replace_in search_string new <$> d)
                   | None => oget c (categories (self s))
                   end.
Proof.
  induction l as [|[c d] l IH]; intros Hnd b s s' r Hl Hrun; simpl in Hrun.
  - injection Hrun as <- <-. simpl. rewrite orb_false_r.
    repeat (split; [first [reflexivity|destruct (self s); reflexivity]|]).
    reflexivity.
  - destruct (find_in_dict search_string (Some new) d) as [dict found] eqn:Hd.
    assert (Hdict : dict = replace_in search_string new <$> d).
    { rewrite <- find_in_dict_replacement, Hd. reflexivity. }
    rewrite (bind_ok _ _ _ _ tt (set_self_run _ _)) in Hrun.
    apply NoDup_cons in Hnd as [Hc Hnd].
    assert (Hcd : oget c (categories (self s)) = Some d)
      by (apply Hl; left).
    apply IH in Hrun as (-> & Hself & Hheap & Hdisk & Hlocked & Hkeys & Hget);
      [|exact Hnd|].
    + simpl in Hself, Hheap, Hdisk, Hlocked, Hkeys, Hget.
      split; [simpl; rewrite Hd, orb_assoc; reflexivity|].
      split; [rewrite Hself; reflexivity|].
      repeat (split; [assumption|]).
      split.
      * rewrite Hkeys, okeys_oset.
        destruct (decide (c ∈ okeys (categories (self s)))) as [_|Hno];
          [reflexivity|].
        exfalso. apply Hno. apply oget_Some_key. eauto.
      * intros c0. rewrite Hget. simpl.
        destruct (decide (c = c0)) as [<-|Hne].
        -- assert (oget c l = None) as -> by (apply oget_None; exact Hc).
           rewrite oget_oset_eq, Hdict. reflexivity.
        -- destruct (oget c0 l); [reflexivity|].
           apply oget_oset_ne. exact Hne.
    + intros c' d' Hin. simpl. rewrite oget_oset_ne.
      * apply Hl. right. exact Hin.
      * intros ->. apply Hc. apply list_elem_of_fmap. exists (c', d'). auto.
Qed.

Lemma oget_elem_of {V} (c : string) (d : V) (l : odict string V) :
  NoDup (okeys l) -> (c, d) ∈ l <-> oget c l = Some d.
Proof.
  unfold okeys. induction l as [|[k v] l IH]; simpl; intros Hnd.
  - split; [intros Hin; inversion Hin|discriminate].
  - apply NoDup_cons in Hnd as [Hk Hnd]. specialize (IH Hnd).
    destruct (decide (k = c)) as [->|Hne].
    + split.
      * intros Hin. apply elem_of_cons in Hin as [[= ->]|Hin]; [reflexivity|].
        exfalso. apply Hk. change (map fst l) with (l.*1).
        apply list_elem_of_fmap. exists (c, d). auto.
      * intros [= ->]. left.
    + rewrite <- IH. split.
      * intros Hin. apply elem_of_cons in Hin as [[= -> ->]|Hin];
          [contradiction|exact Hin].
      * intros Hin. right. exact Hin.
Qed.

(** The dictionaries [find] goes through when no category is named. *)
Lemma oget_dicts_to_search {V} (exclude_conversations : bool) (c : string)
    (cats : list (string * V)) :
  oget c (if exclude_conversations
          then filter (fun p => p.1 <> "Subtitles"%string) cats
          else cats)
  = if searches None exclude_conversations c then oget c cats else None.
Proof.
  unfold searches. destruct exclude_conversations; cbn [negb orb].
  - induction cats as [|[k v] cats IH].
    + simpl. destruct (bool_decide _); reflexivity.
    + rewrite filter_cons. cbn [fst].
      destruct (decide (k <> "Subtitles"%string)) as [Hk|Hk]; cbn [oget].
      * destruct (decide (k = c)) as [->|Hne]; [|exact IH].
        rewrite bool_decide_eq_true_2 by exact Hk. reflexivity.
      * rewrite IH. destruct (decide (k = c)) as [->|Hne]; [|reflexivity].
        rewrite bool_decide_eq_false_2 by exact Hk. reflexivity.
  - reflexivity.
Qed.

Lemma NoDup_dicts_to_search {V} (exclude_conversations : bool)
    (cats : list (string * V)) :
  NoDup (okeys cats) ->
  NoDup (okeys (if exclude_conversations
                then filter (fun p => p.1 <> "Subtitles"%string) cats
                else cats)).
Proof.
  destruct exclude_conversations; [|auto].
  unfold okeys. change (map fst) with (fmap (M := list) (@fst string V)).
  intros Hnd. eapply sublist_NoDup; [exact Hnd|].
  apply fmap_sublist, sublist_filter.
Qed.

(** The dictionaries searched, and what they hold, for either way of
    choosing them. *)
Lemma find_dicts_to_search s (text_category : option string)
    (exclude_conversations : bool) :
  NoDup (okeys (categories (self s))) ->
  (exists c, text_category = Some c
             /\ oget c (categories (self s)) = None)
  \/ exists l,
       (forall search_string replace_with,
          find search_string replace_with text_category exclude_conversations s
          = find_in_dicts search_string replace_with l false s)
       /\ NoDup l.*1
       /\ forall c, oget c l
                    = if searches text_category exclude_conversations c
                      then oget c (categories (self s)) else None.
Proof.
  intros Hnd. destruct text_category as [c|].
  - destruct (oget c (categories (self s))) as [d|] eqn:Hc; [right|left; eauto].
    exists [(c, d)]. split; [|split].
    + intros search_string replace_with. unfold find.
      rewrite (bind_ok _ _ s s (self s) eq_refl).
      rewrite (bind_ok _ _ s s [(c, d)]); [reflexivity|].
      rewrite (bind_ok _ _ s s d (getitem_loaded _ _ _ Hc)). reflexivity.
    + simpl. apply NoDup_singleton.
    + intros c0. simpl. destruct (decide (c = c0)) as [<-|Hne].
      * rewrite bool_decide_eq_true_2 by reflexivity. auto.
      * rewrite bool_decide_eq_false_2 by congruence. reflexivity.
  - right.
    exists (if exclude_conversations
            then filter (fun p => p.1 <> "Subtitles"%string) (categories (self s))
            else categories (self s)).
    split; [|split].
    + intros search_string replace_with. reflexivity.
    + apply (NoDup_dicts_to_search exclude_conversations _ Hnd).
    + intros c. apply oget_dicts_to_search.
Qed.

(** Property X18: [find] raises only when a category is named that the directory
    does not have; then it raises the [AttributeError] of [__getitem__]
    and changes nothing. *)
Theorem find_raises_only_for_unknown_category
    s s' (e : exn) (search_string : string) (replace_with text_category : option string)
    (exclude_conversations : bool) :
  find search_string replace_with text_category exclude_conversations s
  = (s', Raise e) ->
  s' = s
  /\ exists c, text_category = Some c
               /\ oget c (categories (self s)) = None
               /\ e = AttributeError (NoCategory c).
Proof.
  unfold find. intros Hrun.
  rewrite (bind_ok _ _ s s (self s) eq_refl) in Hrun.
  apply bind_inv in Hrun as [(e' & Hsel & [= <-])|(s1 & l & Hsel & Hrun)].
  - destruct text_category as [c|]; [|discriminate].
    apply bind_inv in Hsel as [(e' & Hget & [= <-])|(s1 & d & _ & [=])].
    destruct (oget c (categories (self s))) as [d|] eqn:Hc.
    + rewrite (getitem_loaded _ _ _ Hc) in Hget. discriminate.
    + rewrite (getitem_missing _ _ Hc) in Hget. injection Hget as <- <-. eauto.
  - exfalso. destruct replace_with as [new|].
    + clear Hsel. revert s1 s' Hrun. generalize false.
      induction l as [|[c d] l IH]; intros b s1 s' Hrun; simpl in Hrun;
        [discriminate|].
      destruct (find_in_dict search_string (Some new) d) as [dict found].
      rewrite (bind_ok _ _ _ _ tt (set_self_run _ _)) in Hrun.
      apply IH in Hrun. exact Hrun.
    + rewrite find_in_dicts_no_replacement in Hrun. discriminate.
Qed.

(** Property X19: a search without a replacement changes nothing, and a search
    that returns found something exactly when some text of a searched
    category contains the string.  The searched categories are the named
    one, or all of them, without "Subtitles" unless conversations are
    included. *)
Theorem find_reports_occurrence_in_searched_categories
    s s' (found_something : bool) (search_string : string)
    (replace_with text_category : option string) (exclude_conversations : bool) :
  NoDup (okeys (categories (self s))) ->
  find search_string replace_with text_category exclude_conversations s
  = (s', Ok found_something) ->
  (replace_with = None -> s' = s)
  /\ (found_something = true
      <-> exists c d i t,
            searches text_category exclude_conversations c = true
            /\ oget c (categories (self s)) = Some d
            /\ d !! i = Some t
            /\ contains search_string t = true).
Proof.
  intros Hnd Hrun.
  destruct (find_dicts_to_search s text_category exclude_conversations Hnd)
    as [(c & -> & Hc)|(l & Hfind & Hl & Hget)].
  - unfold find in Hrun.
    rewrite (bind_ok _ _ s s (self s) eq_refl) in Hrun.
    rewrite (bind_raise _ _ s s (AttributeError (NoCategory c))) in Hrun;
      [discriminate|].
    apply bind_raise, getitem_missing, Hc.
  - rewrite Hfind in Hrun.
    assert (Hfound : found_something
                     = existsb (fun p => (find_in_dict search_string
                                            replace_with p.2).2) l
                     /\ (replace_with = None -> s' = s)).
    { destruct replace_with as [new|].
      - apply find_in_dicts_replacement in Hrun as ([= ->] & _);
          [split; [reflexivity|discriminate]|exact Hl|].
        intros c d Hin. apply (oget_elem_of _ _ _ Hl) in Hin.
        rewrite Hget in Hin.
        destruct (searches text_category exclude_conversations c);
          [exact Hin|discriminate].
      - rewrite find_in_dicts_no_replacement in Hrun.
        injection Hrun as <- <-. auto. }
    destruct Hfound as [-> Hsame]. split; [exact Hsame|].
    rewrite found_in_some. split.
    + intros (c & d & i & t & Hin & Hi & Ht). exists c, d, i, t.
      apply (oget_elem_of _ _ _ Hl) in Hin. rewrite Hget in Hin.
      destruct (searches text_category exclude_conversations c);
        [auto|discriminate].
    + intros (c & d & i & t & Hs & Hc & Hi & Ht). exists c, d, i, t.
      split; [|auto]. apply (oget_elem_of _ _ _ Hl). rewrite Hget, Hs. exact Hc.
Qed.

(** Property X20: a search with a replacement keeps the categories, their order
    and the indices of each.  In a searched category every text that
    contains the string is replaced by the result of [str.replace] and
    every other text is kept; a category that is not searched is kept as
    it is, and so are the archives, the files and the other fields of the
    directory. *)
Theorem find_replaces_in_searched_categories_only
    s s' (found_something : bool) (search_string new : string)
    (text_category : option string) (exclude_conversations : bool) :
  NoDup (okeys (categories (self s))) ->
  find search_string (Some new) text_category exclude_conversations s
  = (s', Ok found_something) ->
  okeys (categories (self s')) = okeys (categories (self s))
  /\ (forall c,
        oget c (categories (self s'))
        = (fun d : gmap Z string =>
             if searches text_category exclude_conversations c
             then replace_in search_string new <$> d else d)
          <$> oget c (categories (self s)))
  /\ self s' = with_categories (categories (self s')) (self s)
  /\ heap s' = heap s /\ disk s' = disk s /\ locked s' = locked s.
Proof.
  intros Hnd Hrun.
  destruct (find_dicts_to_search s text_category exclude_conversations Hnd)
    as [(c & -> & Hc)|(l & Hfind & Hl & Hget)].
  - unfold find in Hrun.
    rewrite (bind_ok _ _ s s (self s) eq_refl) in Hrun.
    rewrite (bind_raise _ _ s s (AttributeError (NoCategory c))) in Hrun;
      [discriminate|].
    apply bind_raise, getitem_missing, Hc.
  - rewrite Hfind in Hrun.
    apply find_in_dicts_replacement in Hrun
      as (_ & Hself & Hheap & Hdisk & Hlocked & Hkeys & Hcats); [|exact Hl|].
    + split; [exact Hkeys|]. split; [|auto].
      intros c. rewrite Hcats, Hget.
      destruct (searches text_category exclude_conversations c);
        destruct (oget c (categories (self s))); reflexivity.
    + intros c d Hin. apply (oget_elem_of _ _ _ Hl) in Hin.
      rewrite Hget in Hin.
      destruct (searches text_category exclude_conversations c);
        [exact Hin|discriminate].
Qed.

End FindFacts.

(* ================================================================== *)
(** * More on the param archives *)
(* ================================================================== *)

Section rfold_raise.
Context {A B : Type} (body : A -> B -> result A).

(** A loop that raised did so at one of its elements, from a state that
    satisfies the invariant. *)
Lemma rfold_raise_inv (P : A -> Prop) (l : list B) :
  (forall a x a', x ∈ l -> P a -> body a x = Ok a' -> P a') ->
  forall a e, P a -> rfold body a l = Raise e ->
    exists a1 x, x ∈ l /\ P a1 /\ body a1 x = Raise e.
Proof.
  induction l as [|x l IH]; intros Hstep a e Ha Hrun; simpl in Hrun;
    [discriminate|].
  destruct (body a x) as [e'|a1] eqn:Hbody; simpl in Hrun.
  - injection Hrun as ->. exists a, x. split; [left|auto].
  - assert (Ha1 : P a1) by (eapply Hstep; eauto; left).
    destruct (IH (fun a0 y a0' Hy => Hstep a0 y a0' (list_elem_of_further _ _ _ Hy))
                 a1 e Ha1 Hrun) as (a2 & y & Hy & Ha2 & Hraise).
    exists a2, y. split; [right; exact Hy|auto].
Qed.

(** A loop whose body returns at every element returns. *)
Lemma rfold_total (P : A -> Prop) (l : list B) :
  (forall a x, x ∈ l -> P a -> exists a', body a x = Ok a' /\ P a') ->
  forall a, P a -> exists a', rfold body a l = Ok a' /\ P a'.
Proof.
  induction l as [|x l IH]; intros Hstep a Ha; simpl; [eauto|].
  destruct (Hstep a x (list_elem_of_here _ _) Ha) as (a1 & -> & Ha1). simpl.
  apply IH; [|exact Ha1].
  intros a0 y Hy. apply Hstep. right. exact Hy.
Qed.
End rfold_raise.

Section SplitFacts.

Lemma contains_cons sub c (s : string) :
  contains sub (String c s) = false -> contains sub s = false.
Proof.
  simpl. intros Hc. apply orb_false_iff in Hc as [_ Hc].
  destruct s; exact Hc.
Qed.

Lemma contains_head c (s : string) :
  contains (String c EmptyString) (String c s) = true.
Proof.
  simpl. destruct (ascii_dec c c) as [_|Hne]; [|contradiction].
  destruct s; reflexivity.
Qed.

(** A string without the separator is one part. *)
Lemma split_one_part (sep : ascii) (s : string) :
  contains (String sep EmptyString) s = false -> split sep s = [s].
Proof.
  induction s as [|c s IH]; intros Hs; [reflexivity|].
  simpl. destruct (Ascii.eqb_spec c sep) as [->|Hne].
  - rewrite contains_head in Hs. discriminate.
  - rewrite (IH (contains_cons _ _ _ Hs)). reflexivity.
Qed.

(** The first part ends at the first separator. *)
Lemma split_first_part (sep : ascii) (a b : string) :
  contains (String sep EmptyString) a = false ->
  split sep (a +:+ String sep b) = a :: split sep b.
Proof.
  induction a as [|c a IH]; intros Ha.
  - simpl. rewrite Ascii.eqb_refl. reflexivity.
  - change (String c a +:+ String sep b) with (String c (a +:+ String sep b)).
    simpl. destruct (Ascii.eqb_spec c sep) as [->|Hne].
    + rewrite contains_head in Ha. discriminate.
    + rewrite (IH (contains_cons _ _ _ Ha)). reflexivity.
Qed.

End SplitFacts.

Section ParamsMoreFacts.
Import Params.
Context {Data ParamDef Table : Type}.
Variable PARAMDEF_BND : string -> ParamDef.
Variable ParamTable : Data -> ParamDef -> option Table.
Variable DrawParamTable : Data -> ParamDef -> option Table.
Variable GAME_PARAM_INFO : gmap string string.
Variable basename : BNDEntry Data -> string.

#[local] Notation "'gp_load'" :=
  (GameParameters_load_entry ParamTable GAME_PARAM_INFO basename).
#[local] Notation "'gp_init'" :=
  (GameParameters_init PARAMDEF_BND ParamTable GAME_PARAM_INFO basename).
#[local] Notation "'dp_load'" :=
  (DrawParamBlock_load_entry DrawParamTable basename).
#[local] Notation "'dp_init'" :=
  (DrawParamBlock_init PARAMDEF_BND DrawParamTable basename).

(** *** [DarkSoulsGameParameters] *)



(** *** [DrawParamBlock] *)

(** No two base names of [DRAWPARAM_ALIASES] have the same nickname. *)
Lemma DRAWPARAM_ALIASES_inj name name' nick :
  DRAWPARAM_ALIASES !! name = Some nick ->
  DRAWPARAM_ALIASES !! name' = Some nick ->
  name = name'.
Proof.
  assert (Hall : map_Forall
            (fun name nick =>
               list_to_map (M := gmap string string)
                 ((fun p => (p.2, p.1)) <$> map_to_list DRAWPARAM_ALIASES)
               !! nick = Some name)
            DRAWPARAM_ALIASES).
  { apply (bool_decide_unpack _). vm_compute. reflexivity. }
  intros H1 H2. apply Hall in H1. apply Hall in H2. congruence.
Qed.

Lemma slot_and_basename_raise entry e :
  slot_and_basename basename entry = Raise e ->
  bad_parts basename entry /\ exists v, e = ValueError v.
Proof.
  unfold bad_parts, slot_and_basename.
  destruct (split "_" (slice_to_neg 6 (basename entry)))
    as [|p0 [|p1 [|p2 [|p3 ps]]]]; simpl; intros Hs;
    try (injection Hs as <-; split; [right; split; discriminate|eauto]).
  - discriminate.
  - destruct (String.eqb p1 "1") eqn:E; simpl in Hs; [discriminate|].
    injection Hs as <-. split; [|eauto].
    left. split; [reflexivity|]. simpl. intros [= ->]. discriminate.
Qed.

Lemma dp_load_cases self entry :
  (forall tables name, dp_data self !! name = Some tables ->
     length tables = 2%nat) ->
  match dp_load self entry with
  | inl e =>
      (bad_parts basename entry /\ exists v, e = ValueError v)
      \/ (DrawParamTable (entry_data entry) (dp_paramdef_bnd self) = None
          /\ e = FormatError "DrawParamTable")
      \/ (exists slot name,
            slot_and_basename basename entry = Ok (slot, name)
            /\ DRAWPARAM_ALIASES !! name = None
            /\ e = KeyError (KStr name))
  | inr self' =>
      exists slot name t nick,
        slot_and_basename basename entry = Ok (slot, name)
        /\ DrawParamTable (entry_data entry) (dp_paramdef_bnd self) = Some t
        /\ DRAWPARAM_ALIASES !! name = Some nick
        /\ dp_paramdef_bnd self' = dp_paramdef_bnd self
        /\ dp_data self'
           = <[name := <[slot := Some t]>
                         (default [None; None] (dp_data self !! name))]>
               (dp_data self)
        /\ dp_attrs self' = <[nick := name]> (dp_attrs self)
  end.
Proof.
  intros Hlen. unfold DrawParamBlock_load_entry.
  destruct (slot_and_basename basename entry) as [e|[slot name]] eqn:Hs; simpl.
  { left. apply slot_and_basename_raise. exact Hs. }
  destruct (DrawParamTable _ _) as [t|] eqn:Ht; simpl; [|auto].
  apply slot_and_basename_ok in Hs as Hslot. destruct Hslot as [_ Hslot].
  assert (Hl : length (default [None; None] (dp_data self !! name)) = 2%nat).
  { destruct (dp_data self !! name) as [l|] eqn:El; [|reflexivity].
    apply (Hlen l name El). }
  unfold list_assign. rewrite Hl.
  replace (slot <? 2)%nat with true
    by (symmetry; apply Nat.ltb_lt; destruct Hslot; subst; lia).
  simpl. destruct (DRAWPARAM_ALIASES !! name) as [nick|] eqn:Hn.
  - exists slot, name, t, nick. simpl. auto 10.
  - right. right. eauto.
Qed.

(** What holds of a [DrawParamBlock] under construction. *)
#[local] Notation "'dp_inv'" :=
  (fun (pd : ParamDef) (blk : DrawParamBlock (Table:=Table)) =>
     dp_paramdef_bnd blk = pd
     /\ (forall name tables, dp_data blk !! name = Some tables ->
           length tables = 2%nat
           /\ (exists slot t, tables !! slot = Some (Some t))
           /\ exists nick, DRAWPARAM_ALIASES !! name = Some nick
                           /\ dp_attrs blk !! nick = Some name)
     /\ (forall nick name, dp_attrs blk !! nick = Some name ->
           DRAWPARAM_ALIASES !! name = Some nick
           /\ is_Some (dp_data blk !! name))).

Lemma dp_inv_lengths pd (blk : DrawParamBlock (Table:=Table)) :
  dp_inv pd blk ->
  forall tables name, dp_data blk !! name = Some tables -> length tables = 2%nat.
Proof. intros (_ & Hdata & _) tables name Hn. apply (Hdata name tables Hn). Qed.

Lemma dp_inv_step pd (blk blk' : DrawParamBlock (Table:=Table)) entry :
  dp_inv pd blk -> dp_load blk entry = Ok blk' -> dp_inv pd blk'.
Proof.
  intros Hinv Hload.
  pose proof (dp_load_cases blk entry (dp_inv_lengths pd blk Hinv)) as Hc.
  rewrite Hload in Hc.
  destruct Hc as (slot & name & t & nick & Hs & Ht & Hn & Hpd & Hd & Ha).
  destruct Hinv as (Hpd0 & Hdata & Hattrs).
  apply slot_and_basename_ok in Hs as [_ Hslot].
  assert (Hl : length (default [None; None] (dp_data blk !! name)) = 2%nat).
  { destruct (dp_data blk !! name) as [l|] eqn:El; [|reflexivity].
    apply (Hdata name l El). }
  split; [congruence|]. split.
  - intros k tables. rewrite Hd, Ha.
    destruct (decide (name = k)) as [<-|Hne].
    + rewrite lookup_insert_eq. intros [= <-].
      split; [rewrite length_insert; exact Hl|]. split.
      * exists slot, t. apply list_lookup_insert_eq. rewrite Hl.
        destruct Hslot; subst; lia.
      * exists nick. rewrite lookup_insert_eq. auto.
    + rewrite lookup_insert_ne by exact Hne. intros Hk.
      destruct (Hdata k tables Hk) as (Hlen & Hsome & nick' & Hn' & Ha').
      split; [exact Hlen|]. split; [exact Hsome|].
      exists nick'. split; [exact Hn'|].
      rewrite lookup_insert_ne; [exact Ha'|].
      intros <-. apply Hne. apply (DRAWPARAM_ALIASES_inj _ _ _ Hn Hn').
  - intros nick' k. rewrite Hd, Ha.
    destruct (decide (nick = nick')) as [<-|Hne].
    + rewrite lookup_insert_eq. intros [= <-].
      rewrite lookup_insert_eq. eauto.
    + rewrite lookup_insert_ne by exact Hne. intros Hk.
      destruct (Hattrs nick' k Hk) as [Hn' Hsome]. split; [exact Hn'|].
      destruct (decide (name = k)) as [<-|Hnk];
        [rewrite lookup_insert_eq; eauto|].
      rewrite lookup_insert_ne by exact Hnk. exact Hsome.
Qed.

Lemma dp_inv_init pd : dp_inv pd (mkDrawParamBlock (∅ : gmap string (list (option Table))) pd ∅).
Proof.
  split; [reflexivity|]. simpl. split.
  - intros name tables. rewrite lookup_empty. discriminate.
  - intros nick name. rewrite lookup_empty. discriminate.
Qed.

(** Property X22: the exceptions of [DrawParamBlock.__init__].  When it raises, some
    entry of the archive has a name that is not of two or three parts
    with slot "1" ([ValueError]), or does not decode (the decoder's
    exception), or has a base name that [DRAWPARAM_ALIASES] does not know
    ([KeyError] with that base name).  The assignment to the slot never
    raises [IndexError]. *)
Theorem DrawParamBlock_init_exceptions (bnd : BND Data) (e : exn) :
  dp_init bnd = Raise e ->
  e <> IndexError
  /\ exists entry,
       entry ∈ entries bnd
       /\ ((bad_parts basename entry /\ exists v, e = ValueError v)
           \/ (DrawParamTable (entry_data entry) (PARAMDEF_BND (dialect bnd))
               = None
               /\ e = FormatError "DrawParamTable")
           \/ (exists slot name,
                 slot_and_basename basename entry = Ok (slot, name)
                 /\ DRAWPARAM_ALIASES !! name = None
                 /\ e = KeyError (KStr name))).
Proof.
  unfold DrawParamBlock_init. intros Hrun.
  set (pd := PARAMDEF_BND (dialect bnd)) in *.
  destruct (rfold_raise_inv dp_load (dp_inv pd) (entries bnd)
              (fun a x a' _ Ha Hx => dp_inv_step pd a a' x Ha Hx)
              _ e (dp_inv_init pd) Hrun)
    as (blk & entry & Hin & Hinv & Hraise).
  pose proof (dp_load_cases blk entry (dp_inv_lengths pd blk Hinv)) as Hc.
  rewrite Hraise in Hc. destruct Hinv as (Hpd & _). rewrite Hpd in Hc.
  split.
  - destruct Hc as [(_ & v & ->)|[(_ & ->)|(slot & name & _ & _ & ->)]];
      discriminate.
  - exists entry. auto.
Qed.

(** Property X23: the tables and attributes of a [DrawParamBlock] that was built.
    Every key of [_data] is a base name of [DRAWPARAM_ALIASES], its list
    has two slots of which at least one holds a table, and the attribute
    named by its nickname is that list; and every attribute set is the
    list of such a key. *)
Theorem DrawParamBlock_init_tables_and_attributes
    (bnd : BND Data) (blk : DrawParamBlock) :
  dp_init bnd = Ok blk ->
  (forall name tables, dp_data blk !! name = Some tables ->
     length tables = 2%nat
     /\ (exists slot t, tables !! slot = Some (Some t))
     /\ exists nick, DRAWPARAM_ALIASES !! name = Some nick
                     /\ dp_attrs blk !! nick = Some name)
  /\ (forall nick name, dp_attrs blk !! nick = Some name ->
        DRAWPARAM_ALIASES !! name = Some nick
        /\ is_Some (dp_data blk !! name)).
Proof.
  unfold DrawParamBlock_init. intros Hrun.
  set (pd := PARAMDEF_BND (dialect bnd)) in *.
  destruct (rfold_invariant dp_load (dp_inv pd) (entries bnd)
              (fun a x a' _ Ha Hx => dp_inv_step pd a a' x Ha Hx)
              _ _ (dp_inv_init pd) Hrun) as [(_ & Hdata & Hattrs) _].
  split; assumption.
Qed.

(** Property X24: slot and base name of an entry (lines 144-156).  The last six
    characters of the name are dropped whatever they are.  Of what is
    left, "<map>_<name>" goes to slot 0 and "<map>_1_<name>" to slot 1,
    under the base name <name>, with "s_" put before it when <map> starts
    with "s". *)
Theorem slot_and_basename_of_well_formed_name
    (entry : BNDEntry Data) (map_part name suffix : string) :
  contains "_" map_part = false ->
  contains "_" name = false ->
  String.length suffix = 6%nat ->
  (basename entry = (map_part +:+ "_" +:+ name +:+ suffix)%string ->
   slot_and_basename basename entry
   = Ok (0%nat, if startswith "s" map_part then ("s_" +:+ name)%string
                else name))
  /\ (basename entry = (map_part +:+ "_1_" +:+ name +:+ suffix)%string ->
      slot_and_basename basename entry
      = Ok (1%nat, if startswith "s" map_part then ("s_" +:+ name)%string
                   else name)).
Proof.
  intros Hmap Hname Hsuffix. split; intros Hb; unfold slot_and_basename.
  - assert (Hstem : slice_to_neg 6 (basename entry)
                    = (map_part +:+ String "_" name)%string).
    { rewrite Hb, <- Hsuffix.
      change (map_part +:+ "_" +:+ name +:+ suffix)%string
        with (map_part +:+ String "_" (name +:+ suffix))%string.
      replace (map_part +:+ String "_" (name +:+ suffix))%string
        with ((map_part +:+ String "_" name) +:+ suffix)%string.
      - apply slice_to_neg_app.
      - rewrite string_app_assoc. reflexivity. }
    rewrite Hstem, (split_first_part "_" _ _ Hmap),
      (split_one_part "_" _ Hname).
    reflexivity.
  - assert (Hstem : slice_to_neg 6 (basename entry)
                    = (map_part +:+ String "_" (String "1" (String "_" name)))%string).
    { rewrite Hb, <- Hsuffix.
      change (map_part +:+ "_1_" +:+ name +:+ suffix)%string
        with (map_part
              +:+ String "_" (String "1" (String "_" (name +:+ suffix))))%string.
      replace (map_part
               +:+ String "_" (String "1" (String "_" (name +:+ suffix))))%string
        with ((map_part +:+ String "_" (String "1" (String "_" name)))
              +:+ suffix)%string.
      - apply slice_to_neg_app.
      - rewrite string_app_assoc. reflexivity. }
    rewrite Hstem, (split_first_part "_" _ _ Hmap).
    change (String "1" (String "_" name)) with ("1" +:+ String "_" name)%string.
    rewrite (split_first_part "_" "1" name eq_refl),
      (split_one_part "_" _ Hname).
    reflexivity.
Qed.

(** *** [pickle] *)

(** Property X25: the name of the pickle file.  For a path that ends in ".dcx"
    it is the first four characters of the path followed by ".pickle",
    and for any other path that ends in ".parambnd" the first nine
    characters followed by ".pickle": the slices keep the start of the
    path, they do not strip the extension. *)
Theorem pickle_file_name_keeps_start_of_path (path : string) :
  (endswith ".dcx" path = true ->
   pickle_file_name path = (take 4 path +:+ ".pickle")%string)
  /\ (endswith ".dcx" path = false -> endswith ".parambnd" path = true ->
      pickle_file_name path = (take 9 path +:+ ".pickle")%string).
Proof.
  unfold pickle_file_name. split.
  - intros Hdcx. rewrite Hdcx.
    assert (Hlen : String.length (take (String.length ".dcx") path) = 4%nat).
    { unfold endswith in Hdcx. apply andb_true_iff in Hdcx as [Hlen _].
      apply Nat.leb_le in Hlen. simpl in Hlen. clear -Hlen.
      destruct path as [|c0 [|c1 [|c2 [|c3 p]]]]; simpl in *; lia. }
    assert (Hno : endswith ".parambnd" (take (String.length ".dcx") path)
                  = false).
    { unfold endswith. rewrite Hlen. reflexivity. }
    rewrite Hno. reflexivity.
  - intros Hdcx Hbnd. rewrite Hdcx, Hbnd. reflexivity.
Qed.

(** *** [DarkSoulsLightingParameters] *)

Variable BND_open : string -> result (BND Data).
Variable os_path_join : string -> string -> string.

#[local] Notation "'lp_open'" := (open_draw_param_bnd BND_open os_path_join).
#[local] Notation "'lp_load'" :=
  (LightingParameters_load_area PARAMDEF_BND DrawParamTable basename
     BND_open os_path_join).
#[local] Notation "'lp_init'" :=
  (LightingParameters_init PARAMDEF_BND DrawParamTable basename
     BND_open os_path_join).

Lemma lp_open_ok dir file_map_name bnd :
  lp_open dir file_map_name = Ok bnd ->
  BND_open (os_path_join dir (file_map_name +:+ "_DrawParam.parambnd.dcx"))
  = Ok bnd
  \/ ((exists p, BND_open (os_path_join dir
                             (file_map_name +:+ "_DrawParam.parambnd.dcx"))
                 = Raise (FileNotFoundError p))
      /\ BND_open (os_path_join dir (file_map_name +:+ "_DrawParam.parambnd"))
         = Ok bnd).
Proof.
  unfold open_draw_param_bnd.
  destruct (BND_open (os_path_join dir
                        (file_map_name +:+ "_DrawParam.parambnd.dcx")))
    as [[]|b]; try discriminate; [|auto].
  destruct (BND_open (os_path_join dir
                        (file_map_name +:+ "_DrawParam.parambnd")))
    as [[]|b]; try discriminate.
  intros H. right. split; [eauto|exact H].
Qed.

Lemma lp_open_missing dir file_map_name p q :
  BND_open (os_path_join dir (file_map_name +:+ "_DrawParam.parambnd.dcx"))
  = Raise (FileNotFoundError p) ->
  BND_open (os_path_join dir (file_map_name +:+ "_DrawParam.parambnd"))
  = Raise (FileNotFoundError q) ->
  lp_open dir file_map_name
  = Raise (FileNotFoundError (file_map_name +:+ "_DrawParam.parambnd[.dcx]")).
Proof. unfold open_draw_param_bnd. intros -> ->. reflexivity. Qed.

Lemma lp_load_ok dir self area_id self' :
  lp_load dir self area_id = Ok self' ->
  exists bnd block,
    lp_open dir (map_names area_id).1 = Ok bnd
    /\ dp_init bnd = Ok block
    /\ lp_reload_warning self' = lp_reload_warning self
    /\ lp_data self' = oset (map_names area_id).2 block (lp_data self).
Proof.
  unfold LightingParameters_load_area.
  destruct (map_names area_id) as [file_map_name map_name]. simpl.
  destruct (lp_open dir file_map_name) as [e|bnd] eqn:Hopen; simpl;
    [discriminate|].
  destruct (dp_init bnd) as [e|block] eqn:Hinit; simpl; [discriminate|].
  intros [= <-]. exists bnd, block. simpl.
  split; [reflexivity|]. split; [exact Hinit|]. split; reflexivity.
Qed.

Lemma lp_fold dir (ids : list (Z + string)) :
  NoDup ((fun id => (map_names id).2) <$> ids) ->
  forall self self',
    (forall id, id ∈ ids -> (map_names id).2 ∉ okeys (lp_data self)) ->
    rfold (lp_load dir) self ids = Ok self' ->
    lp_reload_warning self' = lp_reload_warning self
    /\ okeys (lp_data self')
       = (okeys (lp_data self) ++ ((fun id => (map_names id).2) <$> ids))%list
    /\ (forall k, k ∈ okeys (lp_data self) ->
          oget k (lp_data self') = oget k (lp_data self))
    /\ forall id, id ∈ ids ->
         exists bnd block,
           lp_open dir (map_names id).1 = Ok bnd
           /\ dp_init bnd = Ok block
           /\ oget (map_names id).2 (lp_data self') = Some block.
Proof.
  induction ids as [|id ids IH]; intros Hnd self self' Hfresh Hrun.
  - injection Hrun as <-. split; [reflexivity|].
    split; [rewrite fmap_nil, app_nil_r; reflexivity|].
    split; [reflexivity|]. intros id Hid. inversion Hid.
  - rewrite fmap_cons in Hnd. apply NoDup_cons in Hnd as [Hid Hnd].
    simpl in Hrun.
    destruct (lp_load dir self id) as [e|self1] eqn:Hload; simpl in Hrun;
      [discriminate|].
    apply lp_load_ok in Hload as (bnd & block & Hopen & Hinit & Hwarn & Hdata).
    assert (Hkeys1 : okeys (lp_data self1)
                     = (okeys (lp_data self) ++ [(map_names id).2])%list).
    { rewrite Hdata, okeys_oset.
      destruct (decide ((map_names id).2 ∈ okeys (lp_data self))) as [Hin|_];
        [|reflexivity].
      exfalso. apply (Hfresh id (list_elem_of_here _ _) Hin). }
    apply IH in Hrun as (Hwarn' & Hkeys & Hold & Hnew); [|exact Hnd|].
    + split; [congruence|]. split.
      { rewrite Hkeys, Hkeys1, fmap_cons, <- app_assoc. reflexivity. }
      split.
      { intros k Hk. rewrite Hold.
        - rewrite Hdata. apply oget_oset_ne. intros <-.
          apply (Hfresh id (list_elem_of_here _ _) Hk).
        - rewrite Hkeys1. apply elem_of_app. left. exact Hk. }
      intros id' Hid'. apply elem_of_cons in Hid' as [->|Hid']; [|auto].
      exists bnd, block. split; [exact Hopen|]. split; [exact Hinit|].
      rewrite Hold.
      * rewrite Hdata. apply oget_oset_eq.
      * rewrite Hkeys1. apply elem_of_app. right. left.
    + intros id' Hid'. rewrite Hkeys1. intros Hin.
      apply elem_of_app in Hin as [Hin|Hin].
      * apply (Hfresh id' (list_elem_of_further _ _ _ Hid') Hin).
      * apply list_elem_of_singleton in Hin. apply Hid. rewrite <- Hin.
        apply list_elem_of_fmap. exists id'. auto.
Qed.

(** Property X26: a [DarkSoulsLightingParameters] that was built has the eleven
    blocks m10 to m18, m99 and default, in this order, and its reload
    warning set.  The block of every map was built from the archive
    "<file>_DrawParam.parambnd.dcx" of the folder when that opens, and
    from "<file>_DrawParam.parambnd" only when the first is not found,
    <file> being a10 to a18, a99 or default.  [__getitem__] returns a
    block for these eleven names and raises [KeyError] for any other. *)
Theorem LightingParameters_init_blocks
    (draw_param_directory : string) (self : DarkSoulsLightingParameters) :
  lp_init draw_param_directory = Ok self ->
  lp_reload_warning self = true
  /\ okeys (lp_data self)
     = ["m10"; "m11"; "m12"; "m13"; "m14"; "m15"; "m16"; "m17"; "m18"; "m99";
        "default"]%string
  /\ (forall file_map_name map_name,
        (file_map_name, map_name)
        ∈ [("a10", "m10"); ("a11", "m11"); ("a12", "m12"); ("a13", "m13");
           ("a14", "m14"); ("a15", "m15"); ("a16", "m16"); ("a17", "m17");
           ("a18", "m18"); ("a99", "m99"); ("default", "default")]%string ->
        exists bnd block,
          LightingParameters_getitem self map_name = Ok block
          /\ dp_init bnd = Ok block
          /\ (BND_open (os_path_join draw_param_directory
                          (file_map_name +:+ "_DrawParam.parambnd.dcx"))
              = Ok bnd
              \/ ((exists p,
                     BND_open (os_path_join draw_param_directory
                                 (file_map_name +:+ "_DrawParam.parambnd.dcx"))
                     = Raise (FileNotFoundError p))
                  /\ BND_open (os_path_join draw_param_directory
                                 (file_map_name +:+ "_DrawParam.parambnd"))
                     = Ok bnd)))
  /\ forall map_name,
       map_name ∉ ["m10"; "m11"; "m12"; "m13"; "m14"; "m15"; "m16"; "m17";
                   "m18"; "m99"; "default"]%string ->
       LightingParameters_getitem self map_name
       = Raise (KeyError (KStr map_name)).
Proof.
  unfold LightingParameters_init. intros Hrun.
  apply lp_fold in Hrun as (Hwarn & Hkeys & _ & Hblocks).
  - simpl in Hwarn, Hkeys. split; [exact Hwarn|]. split; [exact Hkeys|]. split.
    + intros file_map_name map_name Hin.
      assert (Hid : exists id, id ∈ _MAP_IDS
                               /\ map_names id = (file_map_name, map_name)).
      { assert (Hlist : map_names <$> _MAP_IDS
                        = [("a10", "m10"); ("a11", "m11"); ("a12", "m12");
                           ("a13", "m13"); ("a14", "m14"); ("a15", "m15");
                           ("a16", "m16"); ("a17", "m17"); ("a18", "m18");
                           ("a99", "m99"); ("default", "default")]%string)
          by (vm_compute; reflexivity).
        rewrite <- Hlist in Hin.
        apply list_elem_of_fmap in Hin as (id & Heq & Hid). eauto. }
      destruct Hid as (id & Hid & Hnames).
      destruct (Hblocks id Hid) as (bnd & block & Hopen & Hinit & Hget).
      rewrite Hnames in Hopen, Hget. simpl in Hopen, Hget.
      exists bnd, block. unfold LightingParameters_getitem. rewrite Hget.
      split; [reflexivity|]. split; [exact Hinit|].
      apply lp_open_ok. exact Hopen.
    + intros map_name Hno. unfold LightingParameters_getitem.
      assert (Hno' : map_name ∉ okeys (lp_data self))
        by (rewrite Hkeys; exact Hno).
      apply oget_None in Hno'. rewrite Hno'. reflexivity.
  - apply (bool_decide_unpack _). vm_compute. reflexivity.
  - intros id _ Hin. simpl in Hin. inversion Hin.
Qed.

(** Property X27: [DarkSoulsLightingParameters.__init__] needs all eleven maps.
    If for one of them neither "<file>_DrawParam.parambnd.dcx" nor
    "<file>_DrawParam.parambnd" is found in the folder, the constructor
    raises, whatever the other files are. *)
Theorem LightingParameters_init_needs_every_map
    (draw_param_directory : string) (area_id : Z + string) (p q : string) :
  area_id ∈ _MAP_IDS ->
  BND_open (os_path_join draw_param_directory
              ((map_names area_id).1 +:+ "_DrawParam.parambnd.dcx"))
  = Raise (FileNotFoundError p) ->
  BND_open (os_path_join draw_param_directory
              ((map_names area_id).1 +:+ "_DrawParam.parambnd"))
  = Raise (FileNotFoundError q) ->
  exists e, lp_init draw_param_directory = Raise e.
Proof.
  intros Hin Hdcx Hplain.
  destruct (lp_init draw_param_directory) as [e|self] eqn:Hrun; [eauto|].
  exfalso. unfold LightingParameters_init in Hrun.
  destruct (rfold_invariant (lp_load draw_param_directory) (fun _ => True)
              _MAP_IDS (fun _ _ _ _ _ _ => Logic.I) _ _ Logic.I Hrun)
    as [_ Hall].
  destruct (Hall area_id Hin) as (a1 & a2 & _ & Hload).
  apply lp_load_ok in Hload as (bnd & block & Hopen & _).
  rewrite (lp_open_missing _ _ _ _ Hdcx Hplain) in Hopen. discriminate.
Qed.

End ParamsMoreFacts.

(* ================================================================== *)
(** * [update_msgbnd_entry] *)
(* ================================================================== *)

Section UpdateFacts.
Import Text.
Context {Data : Type} `{Fmt : MSGFormat Data}.
Implicit Types (s : State Data).

(** [entries_by_id] holds, for an ID, the last entry with that ID. *)
Lemma entries_by_id_Some (es : list (BNDEntry Data)) (id : Z) (i : nat) :
  entries_by_id es id = Some i ->
  exists e, es !! i = Some e /\ entry_id e = id
            /\ forall j e', (i < j)%nat -> es !! j = Some e' -> entry_id e' <> id.
Proof.
  revert i. induction es as [|e es IH]; intros i; simpl; [discriminate|].
  destruct (entries_by_id es id) as [k|] eqn:Hk.
  - intros [= <-]. destruct (IH k eq_refl) as (e0 & He0 & Hid & Hlast).
    exists e0. split; [exact He0|]. split; [exact Hid|].
    intros [|j] e' Hj; [lia|]. simpl. apply Hlast. lia.
  - destruct (decide (entry_id e = id)) as [Hid|]; [|discriminate].
    intros [= <-]. exists e. split; [reflexivity|]. split; [exact Hid|].
    intros [|j] e' Hj; [lia|]. simpl. intros He' Hid'.
    clear -Hk He' Hid'. revert j He'.
    induction es as [|e0 es IH]; intros j He'; [destruct j; discriminate|].
    simpl in Hk. destruct (entries_by_id es id); [discriminate|].
    destruct (decide (entry_id e0 = id)) as [|Hne]; [discriminate|].
    destruct j as [|j]; simpl in He'.
    + injection He' as ->. contradiction.
    + apply (IH eq_refl j He').
Qed.

Lemma entries_by_id_None (es : list (BNDEntry Data)) (id : Z) :
  entries_by_id es id = None -> forall e, e ∈ es -> entry_id e <> id.
Proof.
  induction es as [|e0 es IH]; simpl; intros Hnone e He; [inversion He|].
  destruct (entries_by_id es id); [discriminate|].
  destruct (decide (entry_id e0 = id)) as [|Hne]; [discriminate|].
  apply elem_of_cons in He as [->|He]; [exact Hne|apply (IH eq_refl e He)].
Qed.

Lemma update_entry_run s l b i f :
  heap s !! l = Some b ->
  update_entry l i f s
  = (mkState (self s)
       (<[l := mkBND (dcx_magic b) (path_name b) (alter f i (entries b))]> (heap s))
       (disk s) (locked s), Ok tt).
Proof.
  intros Hl. unfold update_entry, bind, deref. rewrite Hl. reflexivity.
Qed.

(** Property X28: what [update_msgbnd_entry] does when it returns.  The
    entries were packed, the name has an ID in [_MSGBND_INDEX_NAMES], and
    the archive has an entry with that ID; of the entries with that ID the
    last one is rewritten: its data is the packed table, its ID is kept,
    and its path is kept with [use_original_names], and otherwise has the
    original name recorded for the category replaced by the category name
    with ".fmg".  Every other entry, every other archive object, the
    directory object and the files are unchanged. *)
Theorem update_msgbnd_entry_rewrites_one_entry
    s s' (l : loc) (b : BND Data) (fmg_name : string)
    (fmg_entries : gmap Z string) (word_wrap_limit : option Z)
    (pipe_to_newline use_original_names : bool) :
  heap s !! l = Some b ->
  update_msgbnd_entry (Some l) fmg_name fmg_entries word_wrap_limit
    pipe_to_newline use_original_names s = (s', Ok tt) ->
  exists data id i e path b',
    FMG_pack fmg_entries word_wrap_limit pipe_to_newline = Some data
    /\ index_of_name MSGBND_INDEX_NAMES !! fmg_name = Some id
    /\ entries b !! i = Some e /\ entry_id e = id
    /\ (forall j e', (i < j)%nat -> entries b !! j = Some e' -> entry_id e' <> id)
    /\ (if use_original_names then path = entry_path e
        else exists original_name,
               _original_names (self s) !! fmg_name = Some original_name
               /\ path = replace original_name (fmg_name +:+ ".fmg")
                           (entry_path e))
    /\ heap s' = <[l := b']> (heap s)
    /\ dcx_magic b' = dcx_magic b /\ path_name b' = path_name b
    /\ (forall j, entries b' !! j
                  = if decide (j = i) then Some (mkBNDEntry id path data)
                    else entries b !! j)
    /\ self s' = self s /\ disk s' = disk s /\ locked s' = locked s.
Proof.
  intros Hl Hrun. unfold update_msgbnd_entry in Hrun.
  destruct (FMG_pack fmg_entries word_wrap_limit pipe_to_newline)
    as [data|] eqn:Hpack; [|discriminate Hrun].
  unfold decoded in Hrun. rewrite bind_lift_ok in Hrun.
  destruct (index_of_name MSGBND_INDEX_NAMES !! fmg_name) as [id|] eqn:Hid;
    [|rewrite (bind_raise _ _ s s _ (subscript_None _ _ _ _ Hid)) in Hrun;
      discriminate Hrun].
  rewrite (bind_ok _ _ s s id (subscript_Some _ _ _ _ _ Hid)) in Hrun.
  rewrite (bind_ok _ _ s s (l, b)) in Hrun
    by (unfold deref; rewrite Hl; reflexivity).
  destruct (entries_by_id (entries b) id) as [i|] eqn:Hi; [|discriminate Hrun].
  destruct (entries_by_id_Some _ _ _ Hi) as (e & He & Heid & Hlast).
  rewrite (bind_ok _ _ _ _ tt (update_entry_run s l b i _ Hl)) in Hrun.
  assert (Hlt : (l < length (heap s))%nat) by (eapply lookup_lt_Some; eauto).
  destruct use_original_names; simpl in Hrun.
  - injection Hrun as <-.
    exists data, id, i, e, (entry_path e),
      (mkBND (dcx_magic b) (path_name b)
         (alter (set_entry_data data) i (entries b))).
    simpl. repeat (split; [first [assumption|reflexivity]|]).
    split; [|auto].
    intros j. rewrite list_lookup_alter.
    destruct (decide (i = j)) as [<-|Hne].
    + rewrite decide_True by reflexivity. rewrite He. simpl.
      unfold set_entry_data. rewrite Heid. reflexivity.
    + rewrite decide_False by congruence. reflexivity.
  - match type of Hrun with
    | bind get_self _ ?s1 = _ =>
        rewrite (bind_ok _ _ s1 s1 (self s1) eq_refl) in Hrun
    end.
    cbn [self] in Hrun.
    destruct (_original_names (self s) !! fmg_name) as [original_name|] eqn:Ho.
    + match type of Hrun with
      | bind _ _ ?s1 = _ =>
          rewrite (bind_ok _ _ s1 s1 original_name
                     (subscript_Some _ _ _ _ _ Ho)) in Hrun;
          rewrite (update_entry_run s1 l
                     (mkBND (dcx_magic b) (path_name b)
                        (alter (set_entry_data data) i (entries b)))) in Hrun
            by (cbn [heap]; apply list_lookup_insert_eq; exact Hlt)
      end.
      injection Hrun as <-. cbn [self heap disk locked dcx_magic path_name entries].
      eexists data, id, i, e, _, _.
      split; [reflexivity|]. split; [reflexivity|]. split; [exact He|].
      split; [exact Heid|]. split; [exact Hlast|].
      split; [exists original_name; split; reflexivity|].
      split; [apply list_insert_insert_eq|]. simpl.
      split; [reflexivity|]. split; [reflexivity|].
      split; [|auto].
      intros j. rewrite list_alter_alter_eq, list_lookup_alter.
      destruct (decide (i = j)) as [<-|Hne].
      * rewrite decide_True by reflexivity. rewrite He. simpl.
        unfold set_entry_path, set_entry_data. simpl. rewrite Heid. reflexivity.
      * rewrite decide_False by congruence. reflexivity.
    + match type of Hrun with
      | bind _ _ ?s1 = _ =>
          rewrite (bind_raise _ _ s1 s1 _ (subscript_None _ _ _ _ Ho)) in Hrun
      end.
      discriminate Hrun.
Qed.

(** Property X29: how [update_msgbnd_entry] fails.  A table that cannot be
    packed, a name without an ID in [_MSGBND_INDEX_NAMES] and an archive
    without an entry of that ID raise before anything is changed, the
    last two as [KeyError] (the handler for [IndexError] never applies).
    Without [use_original_names], a category without a recorded original
    name raises [KeyError] after the data of the entry has been
    replaced. *)
Theorem update_msgbnd_entry_failures
    s s' (e : exn) (l : loc) (b : BND Data) (fmg_name : string)
    (fmg_entries : gmap Z string) (word_wrap_limit : option Z)
    (pipe_to_newline use_original_names : bool) :
  heap s !! l = Some b ->
  update_msgbnd_entry (Some l) fmg_name fmg_entries word_wrap_limit
    pipe_to_newline use_original_names s = (s', Raise e) ->
  (s' = s
   /\ ((FMG_pack fmg_entries word_wrap_limit pipe_to_newline = None
        /\ e = FormatError "FMG.pack")
       \/ (index_of_name MSGBND_INDEX_NAMES !! fmg_name = None
           /\ e = KeyError (KStr fmg_name))
       \/ (exists id,
             index_of_name MSGBND_INDEX_NAMES !! fmg_name = Some id
             /\ (forall e', e' ∈ entries b -> entry_id e' <> id)
             /\ e = KeyError (KInt id))))
  \/ (use_original_names = false
      /\ _original_names (self s) !! fmg_name = None
      /\ e = KeyError (KStr fmg_name)
      /\ exists data i,
           FMG_pack fmg_entries word_wrap_limit pipe_to_newline = Some data
           /\ s' = mkState (self s)
                     (<[l := mkBND (dcx_magic b) (path_name b)
                               (alter (set_entry_data data) i (entries b))]>
                        (heap s))
                     (disk s) (locked s)).
Proof.
  intros Hl Hrun. unfold update_msgbnd_entry in Hrun.
  destruct (FMG_pack fmg_entries word_wrap_limit pipe_to_newline)
    as [data|] eqn:Hpack.
  2: { injection Hrun as <- <-. left. auto. }
  unfold decoded in Hrun. rewrite bind_lift_ok in Hrun.
  destruct (index_of_name MSGBND_INDEX_NAMES !! fmg_name) as [id|] eqn:Hid.
  2: { rewrite (bind_raise _ _ s s _ (subscript_None _ _ _ _ Hid)) in Hrun.
       injection Hrun as <- <-. left. auto. }
  rewrite (bind_ok _ _ s s id (subscript_Some _ _ _ _ _ Hid)) in Hrun.
  rewrite (bind_ok _ _ s s (l, b)) in Hrun
    by (unfold deref; rewrite Hl; reflexivity).
  destruct (entries_by_id (entries b) id) as [i|] eqn:Hi.
  2: { injection Hrun as <- <-. left. split; [reflexivity|]. right. right.
       exists id. split; [reflexivity|]. split; [|reflexivity].
       apply entries_by_id_None. exact Hi. }
  rewrite (bind_ok _ _ _ _ tt (update_entry_run s l b i _ Hl)) in Hrun.
  assert (Hlt : (l < length (heap s))%nat) by (eapply lookup_lt_Some; eauto).
  destruct use_original_names; simpl in Hrun; [discriminate Hrun|].
  match type of Hrun with
  | bind get_self _ ?s1 = _ =>
      rewrite (bind_ok _ _ s1 s1 (self s1) eq_refl) in Hrun
  end.
  cbn [self] in Hrun.
  destruct (_original_names (self s) !! fmg_name) as [original_name|] eqn:Ho.
  - match type of Hrun with
    | bind _ _ ?s1 = _ =>
        rewrite (bind_ok _ _ s1 s1 original_name
                   (subscript_Some _ _ _ _ _ Ho)) in Hrun;
        rewrite (update_entry_run s1 l
                   (mkBND (dcx_magic b) (path_name b)
                      (alter (set_entry_data data) i (entries b)))) in Hrun
          by (cbn [heap]; apply list_lookup_insert_eq; exact Hlt)
    end.
    discriminate Hrun.
  - match type of Hrun with
    | bind _ _ ?s1 = _ =>
        rewrite (bind_raise _ _ s1 s1 _ (subscript_None _ _ _ _ Ho)) in Hrun
    end.
    injection Hrun as <- <-. right. eauto 10.
Qed.

End UpdateFacts.

(* ================================================================== *)
(** * More concrete runs *)
(* ================================================================== *)

Section MoreRuns.
Import Text Fixtures.
Local Open Scope Z_scope.
Local Open Scope string_scope.

(** X2 at a key added to the goods as index 2. *)
Lemma add_item_text_then_get_all_item_text_witness :
  exists s',
    add_item_text 2 "Consumable" "Key" "Opens a door" "A rusty key." goods
    = (s', Ok tt)
    /\ get_all_item_text 2 "Consumable" s'
       = (s', Ok (Some (mkItemText "Key" "Opens a door" "A rusty key.")))
    /\ text_of (self s') "GoodNames" 1 = Some "Estus Flask".
Proof.
  destruct (add_item_text_then_get_all_item_text goods 2 "Consumable" "Good"
              "Key" "Opens a door" "A rusty key."
              {[ 1 := "Estus Flask" ]} {[ 1 := "Restores HP" ]}
              {[ 1 := "An emerald flask." ]})
    as (s' & Hadd & Hget & _ & Hother);
    [vm_compute; reflexivity|vm_compute; reflexivity|vm_compute; reflexivity
    |vm_compute; reflexivity|vm_compute; reflexivity|].
  exists s'. split; [exact Hadd|]. split; [exact Hget|].
  rewrite Hother; [vm_compute; reflexivity|].
  intros [Hi _]. discriminate Hi.
Defined.

(** X3 at the good of index 1. *)
Lemma add_item_text_refuses_existing_index_witness :
  add_item_text 1 "good" "Key" "Opens a door" "A rusty key." goods
  = (goods, Raise (ValueError (ItemExists 1)))
  /\ exists s',
       delete_item_text 1 "good" goods = (s', Ok tt)
       /\ get_all_item_text 1 "good" s' = (s', Ok (Some (mkItemText "" "" "")))
       /\ add_item_text 1 "good" "Key" "Opens a door" "A rusty key." s'
          = (s', Raise (ValueError (ItemExists 1))).
Proof.
  destruct (add_item_text_refuses_existing_index goods 1 "good" "Good"
              {[ 1 := "Estus Flask" ]} {[ 1 := "Restores HP" ]}
              {[ 1 := "An emerald flask." ]})
    as [Hadd Hdelete];
    [vm_compute; reflexivity|vm_compute; reflexivity
    |eexists; vm_compute; reflexivity|].
  split; [apply Hadd|].
  destruct Hdelete as (s' & Hdel & Hget & Hagain);
    [vm_compute; reflexivity|vm_compute; reflexivity|].
  exists s'. split; [exact Hdel|]. split; [exact Hget|]. apply Hagain.
Defined.

(** X4 where the names are loaded without the summaries. *)
Lemma delete_item_text_failures_witness :
  delete_item_text 7 "good" names_only
  = (names_only, Raise (ValueError (NoItemToDelete 7)))
  /\ exists s',
       delete_item_text 1 "good" names_only
       = (s', Raise (KeyError (KStr "GoodSummaries")))
       /\ text_of (self s') "GoodNames" 1 = Some "".
Proof.
  split.
  - destruct (delete_item_text_failures names_only 7 "good" "Good"
                {[ 1 := "Estus Flask" ]}) as [Hnone _];
      [vm_compute; reflexivity|vm_compute; reflexivity|].
    apply Hnone. vm_compute. reflexivity.
  - destruct (delete_item_text_failures names_only 1 "good" "Good"
                {[ 1 := "Estus Flask" ]}) as [_ Hsome];
      [vm_compute; reflexivity|vm_compute; reflexivity|].
    destruct Hsome as (s' & Hrun & Hname & _);
      [eexists; vm_compute; reflexivity|vm_compute; reflexivity|].
    exists s'. split; [exact Hrun|exact Hname].
Defined.

(** X5 at a new name for the good of index 1. *)
Lemma change_item_text_writes_given_texts_witness :
  exists s',
    change_item_text (mkTextDict None None (Some "Elixir") None None)
      (Some (OneIndex 1)) (Some "good") false goods
    = (s', Ok tt)
    /\ text_of (self s') "GoodNames" 1 = Some "Elixir"
    /\ text_of (self s') "GoodSummaries" 1 = Some "Restores HP".
Proof.
  destruct (change_item_text_writes_given_texts goods
              (mkTextDict None None (Some "Elixir") None None)
              (Some (OneIndex 1)) (Some "good") (OneIndex 1) "good" "Good")
    as (s' & Hrun & _ & Htext);
    [reflexivity|reflexivity|vm_compute; reflexivity
    |apply oget_Some_key; eexists; vm_compute; reflexivity
    |apply oget_Some_key; eexists; vm_compute; reflexivity
    |apply oget_Some_key; eexists; vm_compute; reflexivity|].
  exists s'. split; [exact Hrun|].
  split; rewrite Htext; vm_compute; reflexivity.
Defined.

(** X6 at the same call with [patch=True]. *)
Lemma change_item_text_patch_raises_AttributeError_witness :
  exists c,
    change_item_text (mkTextDict None None (Some "Elixir") None None)
      (Some (OneIndex 1)) (Some "good") true goods
    = (goods, Raise (AttributeError (NoCategory c))).
Proof.
  apply (change_item_text_patch_raises_AttributeError goods
           (mkTextDict None None (Some "Elixir") None None)
           (Some (OneIndex 1)) (Some "good") (OneIndex 1) "good" "Good").
  - reflexivity.
  - reflexivity.
  - vm_compute. reflexivity.
  - discriminate.
  - left. eexists. reflexivity.
  - refine (proj1 (Forall_forall (fun k => endswith "Patch" k = false) _) _).
    apply (bool_decide_unpack _). vm_compute. exact Logic.I.
Defined.

(** X7 at a folder without archives. *)
Lemma MSGDirectory_new_missing_archive_witness :
  MSGDirectory_new (Some "msg") empty_dir
  = Raise (FileNotFoundError "msg/item.msgbnd").
Proof.
  destruct (MSGDirectory_new_missing_archive empty_dir "msg") as [Hitem _].
  apply Hitem. vm_compute. reflexivity.
Defined.

(** X8 at the folder of [weapon_item]. *)
Lemma MSGDirectory_new_holds_both_archives_witness :
  exists item menu,
    heap weapon_set = (heap weapon_dir ++ [item; menu])%list
    /\ dcx_magic item = dcx_magic menu
    /\ disk weapon_set = disk weapon_dir.
Proof.
  destruct (MSGDirectory_new_holds_both_archives weapon_dir "msg" weapon_set)
    as (item & menu & _ & _ & Hdcx & Hheap & _ & _ & _ & Hdisk & _);
    [vm_compute; reflexivity|].
  exists item, menu. auto.
Defined.

(** X9 at the folder of [weapon_item]: index 2 comes from the Patch
    resource. *)
Lemma MSGDirectory_new_merged_view_witness :
  ("WeaponNames", 2) ∈ _is_patch (self weapon_set).
Proof.
  destruct (MSGDirectory_new_merged_view weapon_dir "msg" weapon_set
              weapon_item (no_entries "menu.msgbnd"))
    as (_ & _ & Hpatch);
    [vm_compute; reflexivity|vm_compute; reflexivity|vm_compute; reflexivity|].
  apply Hpatch.
  exists (entry 114 "WeaponNamesPatch.fmg" {[ 2 := "b" ]}, false),
         "WeaponNamesPatch", {[ 2 := "b" ]}.
  split; [apply list_elem_of_In; vm_compute; right; left; reflexivity|].
  split; [vm_compute; reflexivity|]. split; [vm_compute; reflexivity|].
  split; [vm_compute; reflexivity|]. split; [vm_compute; reflexivity|].
  eexists. vm_compute. reflexivity.
Defined.

(** X10 at the folder of [weapon_item]. *)
Lemma MSGDirectory_new_invariants_witness :
  NoDup (okeys (categories (self weapon_set)))
  /\ dom (_is_menu (self weapon_set)) = dom (_original_names (self weapon_set)).
Proof.
  destruct (MSGDirectory_new_invariants weapon_dir "msg" weapon_set)
    as (_ & Hnodup & _ & Hdom); [vm_compute; reflexivity|].
  split; assumption.
Defined.

(** X11 at a base entry loaded after the Patch entry that filled
    index 2. *)
Lemma base_entry_loaded_later_overrides_witness :
  exists s',
    load_fmg_entry (entry 11 "WeaponNames.fmg" {[ 2 := "base" ]}) false weapon_set
    = (s', Ok tt)
    /\ text_of (self s') "WeaponNames" 2 = Some "base"
    /\ _is_patch (self s') = _is_patch (self weapon_set).
Proof.
  destruct (base_entry_loaded_later_overrides weapon_set
              (entry 11 "WeaponNames.fmg" {[ 2 := "base" ]}) false
              "WeaponNames" {[ 2 := "base" ]})
    as (s' & Hrun & Hpatch & Htext & _);
    [vm_compute; reflexivity|vm_compute; reflexivity|vm_compute; reflexivity|].
  exists s'. split; [exact Hrun|]. split; [|exact Hpatch].
  apply Htext. vm_compute. reflexivity.
Defined.

(** X12 at the folder of [weapon_item]. *)
Lemma MSGDirectory_new_no_Patch_category_witness :
  getitem "WeaponNamesPatch" weapon_set
  = (weapon_set, Raise (AttributeError (NoCategory "WeaponNamesPatch"))).
Proof.
  destruct (MSGDirectory_new_no_Patch_category weapon_dir "msg" weapon_set)
    as [_ Hget].
  - refine (_ : map_Forall (fun _ new_name => endswith "PatchPatch" new_name = false)
                  (name_of_index MSGBND_INDEX_NAMES)).
    apply (bool_decide_unpack _). vm_compute. exact Logic.I.
  - vm_compute. reflexivity.
  - exact (Hget "WeaponNames").
Defined.


(** X15 at a folder whose item archive has a Patch resource without its
    base resource: the folder opens, and saving it raises. *)
Lemma save_raises_without_base_record_witness :
  MSGDirectory_new (Some "msg") patch_only_dir = Ok patch_only_set
  /\ (exists e, snd (save None None false true true patch_only_set) = Raise e)
  /\ disk (fst (save None None false true true patch_only_set))
     = disk patch_only_set.
Proof.
  split; [vm_compute; reflexivity|].
  assert (Hcats : categories (self patch_only_set)
                  = [ ("WeaponNames", {[ 2 := "b" ]}) ])
    by (vm_compute; reflexivity).
  destruct (save_raises_without_base_record patch_only_set
              "WeaponNames" {[ 2 := "b" ]}) with
    (msg_directory := @None string) (description_word_wrap_limit := @None Z)
    (separate_patch := false) (use_original_names := true)
    (pipe_to_newline := true)
    (s' := fst (save None None false true true patch_only_set))
    (r := snd (save None None false true true patch_only_set))
    as (Hraise & Hdisk & _).
  - rewrite Hcats. left.
  - vm_compute. reflexivity.
  - apply surjective_pairing.
  - split; assumption.
Defined.

(** X16 at positions 1 to 3 of a category with three ids. *)
Lemma get_range_sorted_part_of_category_witness :
  exists l,
    get_range "GoodNames" (Some 1) (Some 3) numbered = (numbered, Ok l)
    /\ StronglySorted Z.lt l.*1
    /\ Z.of_nat (length l) = 2.
Proof.
  destruct (get_range_sorted_part_of_category numbered "GoodNames"
              {[ 30 := "c"; 10 := "a"; 20 := "b" ]} (Some 1) (Some 3))
    as (l & Hrun & Hsorted & _ & _ & Hlen); [vm_compute; reflexivity|].
  exists l. split; [exact Hrun|]. split; [exact Hsorted|].
  rewrite (Hlen 1 3 eq_refl eq_refl); [vm_compute; reflexivity|lia|lia].
Defined.

(** X17 at a name that is not a category. *)
Lemma get_range_unknown_category_raises_KeyError_witness :
  get_range "Nope" None None goods = (goods, Raise (KeyError (KStr "Nope"))).
Proof.
  apply (get_range_unknown_category_raises_KeyError goods "Nope" None None).
  vm_compute. reflexivity.
Defined.

(** X18 at a search in a category that is not there. *)
Lemma find_raises_only_for_unknown_category_witness :
  find "Flask" None (Some "Nope") true goods
  = (goods, Raise (AttributeError (NoCategory "Nope")))
  /\ oget "Nope" (categories (self goods)) = None.
Proof.
  assert (Hrun : find "Flask" None (Some "Nope") true goods
                 = (goods, Raise (AttributeError (NoCategory "Nope"))))
    by (vm_compute; reflexivity).
  split; [exact Hrun|].
  destruct (find_raises_only_for_unknown_category goods goods
              (AttributeError (NoCategory "Nope")) "Flask" None (Some "Nope")
              true Hrun) as (_ & c & Hc & Hnone & _).
  injection Hc as <-. exact Hnone.
Defined.

(** X19 at a search for "Flask" that leaves the conversations out. *)
Lemma find_reports_occurrence_in_searched_categories_witness :
  exists c d i t,
    searches None true c = true
    /\ oget c (categories (self with_subtitles)) = Some d
    /\ d !! i = Some t
    /\ contains "Flask" t = true.
Proof.
  destruct (find_reports_occurrence_in_searched_categories with_subtitles
              with_subtitles true "Flask" None None true) as [_ Hfound].
  - apply (bool_decide_unpack _). vm_compute. exact Logic.I.
  - vm_compute. reflexivity.
  - apply Hfound. reflexivity.
Defined.

(** X20 at the replacement of "Flask" by "Bottle": the name of the good
    changes, the conversation does not. *)
Lemma find_replaces_in_searched_categories_only_witness :
  oget "GoodNames"
    (categories (self (fst (find "Flask" (Some "Bottle") None true
                              with_subtitles))))
  = Some {[ 1 := "Estus Bottle" ]}
  /\ oget "Subtitles"
       (categories (self (fst (find "Flask" (Some "Bottle") None true
                                 with_subtitles))))
     = Some {[ 1 := "Flask?" ]}.
Proof.
  destruct (find_replaces_in_searched_categories_only with_subtitles
              (fst (find "Flask" (Some "Bottle") None true with_subtitles))
              true "Flask" "Bottle" None true) as (_ & Hcats & _).
  - apply (bool_decide_unpack _). vm_compute. exact Logic.I.
  - vm_compute. reflexivity.
  - split; rewrite Hcats; vm_compute; reflexivity.
Defined.

(** X28 at the base resource of [weapon_item], given a new table. *)
Lemma update_msgbnd_entry_rewrites_one_entry_witness :
  exists b',
    heap (fst (update_msgbnd_entry (Some 0%nat) "WeaponNames" {[ 1 := "z" ]}
                 None false true weapon_set))
    = <[0%nat := b']> (heap weapon_set)
    /\ path_name b' = "item.msgbnd"
    /\ exists i, entries b' !! i
                 = Some (entry 11 "WeaponNames.fmg" {[ 1 := "z" ]}).
Proof.
  destruct (update_msgbnd_entry_rewrites_one_entry weapon_set
              (fst (update_msgbnd_entry (Some 0%nat) "WeaponNames"
                      {[ 1 := "z" ]} None false true weapon_set))
              0%nat weapon_item "WeaponNames" {[ 1 := "z" ]} None false true)
    as (data & id & i & e & path & b' & Hpack & Hid & He & Heid & _ & Hpath
        & Hheap & _ & Hname & Hentries & _);
    [vm_compute; reflexivity|vm_compute; reflexivity|].
  exists b'. split; [exact Hheap|]. split; [exact Hname|].
  exists i. rewrite Hentries, decide_True by reflexivity.
  injection Hpack as <-. vm_compute in Hid. injection Hid as <-.
  subst path.
  destruct i as [|[|i]]; vm_compute in He; [| |discriminate He].
  - injection He as <-. reflexivity.
  - injection He as <-. vm_compute in Heid. discriminate Heid.
Defined.

(** X29 at a name that has no ID. *)
Lemma update_msgbnd_entry_failures_witness :
  update_msgbnd_entry (Some 0%nat) "Nope" ∅ None false true weapon_set
  = (weapon_set, Raise (KeyError (KStr "Nope")))
  /\ fst (update_msgbnd_entry (Some 0%nat) "Nope" ∅ None false true weapon_set)
     = weapon_set.
Proof.
  assert (Hrun : update_msgbnd_entry (Some 0%nat) "Nope" ∅ None false true
                   weapon_set
                 = (weapon_set, Raise (KeyError (KStr "Nope"))))
    by (vm_compute; reflexivity).
  split; [exact Hrun|].
  destruct (update_msgbnd_entry_failures weapon_set weapon_set
              (KeyError (KStr "Nope")) 0%nat weapon_item "Nope" ∅ None false
              true) as [[_ _]|(Hfalse & _)];
    [vm_compute; reflexivity|exact Hrun|rewrite Hrun; reflexivity
    |discriminate Hfalse].
Defined.

End MoreRuns.

Section MoreParamRuns.
Import Params Fixtures.
Local Open Scope string_scope.


(** X22 at an archive with an unknown base name. *)
Lemma DrawParamBlock_init_exceptions_witness :
  DrawParamBlock_init (fun game => game) decode_with entry_path
    draw_params_unknown
  = Raise (KeyError (KStr "NopeBank"))
  /\ KeyError (KStr "NopeBank") <> IndexError.
Proof.
  assert (Hrun : DrawParamBlock_init (fun game : string => game) decode_with
                   entry_path draw_params_unknown
                 = Raise (KeyError (KStr "NopeBank")))
    by (vm_compute; reflexivity).
  split; [exact Hrun|].
  apply (DrawParamBlock_init_exceptions (fun game : string => game)
           decode_with entry_path draw_params_unknown _ Hrun).
Defined.

(** X23 at a DrawParam archive with two slots of the fog table and a
    table of the second map part. *)
Lemma DrawParamBlock_init_tables_and_attributes_witness :
  exists blk,
    DrawParamBlock_init (fun game => game) decode_with entry_path draw_params
    = Ok blk
    /\ forall nick name, dp_attrs blk !! nick = Some name ->
         DRAWPARAM_ALIASES !! name = Some nick.
Proof.
  destruct (DrawParamBlock_init (fun game : string => game) decode_with
              entry_path draw_params) as [e|blk] eqn:Hrun;
    [vm_compute in Hrun; discriminate Hrun|].
  exists blk. split; [reflexivity|].
  intros nick name Hattr.
  apply (DrawParamBlock_init_tables_and_attributes (fun game : string => game)
           decode_with entry_path draw_params blk Hrun).
  exact Hattr.
Defined.

(** X24 at a slot-1 entry and at an entry of the second map part. *)
Lemma slot_and_basename_of_well_formed_name_witness :
  slot_and_basename entry_path (param_entry "m10_1_FogBank.param")
  = Ok (1%nat, "FogBank")
  /\ slot_and_basename entry_path (param_entry "s10_LightBank.param")
     = Ok (0%nat, "s_LightBank").
Proof.
  split.
  - apply (slot_and_basename_of_well_formed_name entry_path
             (param_entry "m10_1_FogBank.param") "m10" "FogBank" ".param");
      reflexivity.
  - apply (slot_and_basename_of_well_formed_name entry_path
             (param_entry "s10_LightBank.param") "s10" "LightBank" ".param");
      reflexivity.
Defined.

(** X25 at the two names of the GameParam archive. *)
Lemma pickle_file_name_keeps_start_of_path_witness :
  pickle_file_name "GameParam.parambnd.dcx" = "Game.pickle"
  /\ pickle_file_name "GameParam.parambnd" = "GameParam.pickle".
Proof.
  split.
  - apply (pickle_file_name_keeps_start_of_path "GameParam.parambnd.dcx").
    reflexivity.
  - apply (pickle_file_name_keeps_start_of_path "GameParam.parambnd");
      reflexivity.
Defined.

(** X26 at a folder with all eleven archives. *)
Lemma LightingParameters_init_blocks_witness :
  exists self,
    LightingParameters_init (fun game => game) decode_with entry_path
      (open_file lighting_files) join "DrawParam" = Ok self
    /\ okeys (lp_data self)
       = ["m10"; "m11"; "m12"; "m13"; "m14"; "m15"; "m16"; "m17"; "m18";
          "m99"; "default"]
    /\ (exists block, LightingParameters_getitem self "default" = Ok block)
    /\ LightingParameters_getitem self "m19" = Raise (KeyError (KStr "m19")).
Proof.
  destruct (LightingParameters_init (fun game : string => game) decode_with
              entry_path (open_file lighting_files) join "DrawParam")
    as [e|self] eqn:Hrun; [vm_compute in Hrun; discriminate Hrun|].
  exists self. split; [reflexivity|].
  destruct (LightingParameters_init_blocks (fun game : string => game)
              decode_with entry_path (open_file lighting_files) join
              "DrawParam" self Hrun) as (_ & Hkeys & Hblocks & Hother).
  split; [exact Hkeys|]. split.
  - destruct (Hblocks "default" "default") as (bnd & block & Hblock & _);
      [repeat constructor|eauto].
  - apply Hother. apply (bool_decide_unpack _). vm_compute. exact Logic.I.
Defined.

(** X27 at an empty folder. *)
Lemma LightingParameters_init_needs_every_map_witness :
  exists e,
    LightingParameters_init (fun game => game) decode_with entry_path
      (open_file ∅) join "DrawParam" = Raise e.
Proof.
  apply (LightingParameters_init_needs_every_map (fun game : string => game)
           decode_with entry_path (open_file ∅) join "DrawParam" (inl 18%Z)
           "DrawParam/a18_DrawParam.parambnd.dcx"
           "DrawParam/a18_DrawParam.parambnd").
  - unfold _MAP_IDS. repeat constructor.
  - vm_compute. reflexivity.
  - vm_compute. reflexivity.
Defined.

End MoreParamRuns.
